(** * ctx: context accumulator -- file-set bookkeeping, directory expansion,
      output assembly and history retention

    A shallow embedding of the Go sources: the file list of [context.go],
    [ShouldExclude] and [ExpandDirectory] of [exclude.go], the history store
    ([SaveHistoryEntry], [PruneHistory]) and [refreshFiles]/[yank] of
    [main.go], together with the properties of the specification that
    concern them.

    Go strings are byte sequences and are modelled by [string] (a list of
    8-bit [ascii]); slices are lists (a nil slice and an empty slice are both
    the empty list); [map[string]bool] is a [gmap string bool]. *)

From Stdlib Require Import ZArith Ascii String DecimalString.
From Stdlib Require OrderedTypeEx.
From stdpp Require Import gmap strings list sorting.

(** ** The parts of Go's [strings] package the program calls *)

Module GoStrings.

(** [strings.HasPrefix(s, prefix)]:
    [len(s) >= len(prefix) && s[:len(prefix)] == prefix]. *)
Fixpoint HasPrefix (s prefix : string) {struct prefix} : bool :=
  match prefix, s with
  | EmptyString, _ => true
  | String _ _, EmptyString => false
  | String p prefix', String c s' => Ascii.eqb c p && HasPrefix s' prefix'
  end.

(** [s[n:]] for [n <= len(s)]. *)
Fixpoint sliceFrom (n : nat) (s : string) : string :=
  match n, s with
  | O, _ => s
  | S _, EmptyString => EmptyString
  | S n', String _ s' => sliceFrom n' s'
  end.

(** [strings.HasSuffix(s, suffix)]:
    [len(s) >= len(suffix) && s[len(s)-len(suffix):] == suffix]. *)
Definition HasSuffix (s suffix : string) : bool :=
  (String.length suffix <=? String.length s)%nat
  && String.eqb (sliceFrom (String.length s - String.length suffix) s) suffix.

(** [strings.TrimPrefix(s, prefix)]. *)
Definition TrimPrefix (s prefix : string) : string :=
  if HasPrefix s prefix then sliceFrom (String.length prefix) s else s.

(** [strings.ReplaceAll(s, old, new)] when [old] is one byte long. *)
Fixpoint ReplaceAll1 (s : string) (old : ascii) (new : string) : string :=
  match s with
  | EmptyString => EmptyString
  | String c s' =>
      if Ascii.eqb c old then new +:+ ReplaceAll1 s' old new
      else String c (ReplaceAll1 s' old new)
  end.

(** The line feed byte, ['\n']. *)
Definition LF : ascii := ascii_of_nat 10.
Definition nl : string := String LF EmptyString.

End GoStrings.

(** ** context.go *)

Record Context := mkContext {
  Name : string;
  ProjectRoot : string;
  ProjectContext : string;
  Request : string;
  Files : list string
}.

Definition withFiles (ctx : Context) (files : list string) : Context :=
  mkContext (Name ctx) (ProjectRoot ctx) (ProjectContext ctx) (Request ctx) files.

(** The duplicate check of [AddFile]: the loop returns at the first [f == path]. *)
Fixpoint hasPath (files : list string) (path : string) : bool :=
  match files with
  | [] => false
  | f :: rest => if String.eqb f path then true else hasPath rest path
  end.

(** [func (ctx *Context) AddFile(path string) bool]: the context after the
    call and the returned flag. *)
Definition AddFile (ctx : Context) (path : string) : Context * bool :=
  if hasPath (Files ctx) path then (ctx, false)
  else (withFiles ctx (Files ctx ++ [path]), true).

(** A sequence of [AddFile] calls, one per path, in the order given. *)
Definition AddFile_seq (ctx : Context) (paths : list string) : Context :=
  foldl (fun c p => fst (AddFile c p)) ctx paths.

(** [func (ctx *Context) RemoveFile(path string)]. *)
Definition RemoveFile (ctx : Context) (path : string) : Context :=
  withFiles ctx (List.filter (fun f => negb (String.eqb f path)) (Files ctx)).

(** The [pathSet] that [RemoveFiles] builds: [pathSet[p] = true] for each path. *)
Definition mkPathSet (paths : list string) : gmap string bool :=
  foldl (fun (m : gmap string bool) p => <[p := true]> m) ∅ paths.

(** Go's [m[k]] on a [map[string]bool]: the zero value when the key is absent. *)
Definition mapIndex (m : gmap string bool) (k : string) : bool :=
  default false (m !! k).

(** [func (ctx *Context) RemoveFiles(paths []string)]. *)
Definition RemoveFiles (ctx : Context) (paths : list string) : Context :=
  let pathSet := mkPathSet paths in
  withFiles ctx (List.filter (fun f => negb (mapIndex pathSet f)) (Files ctx)).

(** Removing the paths one call at a time. *)
Definition RemoveFile_seq (ctx : Context) (paths : list string) : Context :=
  foldl RemoveFile ctx paths.


(** ** sort.Slice

    [sort.Slice(x, less)] reorders [x] so that it is sorted by [less]; it is
    not stable.  For slices of at most twelve elements the Go runtime runs
    the insertion sort below ([insertionSortLessFunc]: each element is
    swapped towards the front while it is [less] than its left neighbour);
    longer slices go through pattern-defeating quicksort, whose result is
    again a permutation of the input sorted by [less].  The properties
    proved about the callers use only that contract. *)

(** [rp] is the sorted part already built, last element first. *)
Fixpoint insertBack {A : Type} (less : A -> A -> bool) (x : A) (rp : list A) : list A :=
  match rp with
  | [] => [x]
  | y :: rp' => if less x y then y :: insertBack less x rp' else x :: rp
  end.

Definition sortSlice {A : Type} (less : A -> A -> bool) (l : list A) : list A :=
  reverse (foldl (fun rp x => insertBack less x rp) [] l).

(** [x] may stand after [y] in a slice sorted by [less]. *)
Definition notLess {A : Type} (less : A -> A -> bool) (x y : A) : Prop :=
  less x y = false.

(** ** exclude.go *)

Module Glob.

(** Modelled from the spec: [doublestar.Match] of the third-party package
    [github.com/bmatcuk/doublestar/v4], whose source is not part of the
    repository.  Pattern and name are split at ['/']; a [**] segment matches
    zero or more whole segments, [*] matches any run of bytes inside one
    segment and [?] matches one byte.  Bracket classes, alternatives and
    escapes are not modelled. *)
Fixpoint splitSlash (s : string) : list (list ascii) :=
  match s with
  | EmptyString => [[]]
  | String c s' =>
      if Ascii.eqb c "/"%char then [] :: splitSlash s'
      else match splitSlash s' with
           | seg :: segs => (c :: seg) :: segs
           | [] => [[c]]
           end
  end.

Fixpoint segMatch (pat : list ascii) : list ascii -> bool :=
  match pat with
  | [] => fun name => match name with [] => true | _ :: _ => false end
  | c :: pat' =>
      if Ascii.eqb c "*"%char then
        fix star (name : list ascii) : bool :=
          segMatch pat' name
          || match name with [] => false | _ :: name' => star name' end
      else
        fun name =>
          match name with
          | [] => false
          | d :: name' =>
              (Ascii.eqb c "?"%char || Ascii.eqb c d) && segMatch pat' name'
          end
  end.

Definition isDoubleStar (seg : list ascii) : bool :=
  match seg with
  | [a; b] => Ascii.eqb a "*"%char && Ascii.eqb b "*"%char
  | _ => false
  end.

Fixpoint segsMatch (pats : list (list ascii)) : list (list ascii) -> bool :=
  match pats with
  | [] => fun names => match names with [] => true | _ :: _ => false end
  | p :: pats' =>
      if isDoubleStar p then
        fix star (names : list (list ascii)) : bool :=
          segsMatch pats' names
          || match names with [] => false | _ :: names' => star names' end
      else
        fun names =>
          match names with
          | [] => false
          | n :: names' => segMatch p n && segsMatch pats' names'
          end
  end.

(** [matched, _ := doublestar.Match(pattern, name)]. *)
Definition Match (pattern name : string) : bool :=
  segsMatch (splitSlash pattern) (splitSlash name).

End Glob.

Record ExcludeRule := mkExcludeRule {
  RuleName : string;
  Patterns : list string
}.

Fixpoint dropWhileB {A : Type} (p : A -> bool) (l : list A) : list A :=
  match l with
  | [] => []
  | x :: l' => if p x then dropWhileB p l' else l
  end.

Fixpoint takeWhileB {A : Type} (p : A -> bool) (l : list A) : list A :=
  match l with
  | [] => []
  | x :: l' => if p x then x :: takeWhileB p l' else []
  end.

(** [filepath.Base]: trailing slashes are dropped, then everything up to the
    last slash; [""] gives ["."] and a path of slashes only gives ["/"]. *)
Definition filepath_Base (path : string) : string :=
  match path with
  | EmptyString => "."
  | _ =>
      let isSep := fun c => Ascii.eqb c "/"%char in
      let r := dropWhileB isSep (rev (list_ascii_of_string path)) in
      let base := rev (takeWhileB (fun c => negb (isSep c)) r) in
      match base with
      | [] => "/"
      | _ => string_of_list_ascii base
      end
  end.

Section ShouldExclude.

(** The glob matcher, [doublestar.Match] with its error result dropped. *)
Variable doublestar_Match : string -> string -> bool.

(** One iteration of the loop over [exc.Patterns]. *)
Definition patternExcludes (path pattern : string) : bool :=
  doublestar_Match pattern path
  || doublestar_Match pattern (filepath_Base path).

(** [func (exc *ExcludeRule) ShouldExclude(path string) bool]. *)
Definition ShouldExclude (exc : ExcludeRule) (path : string) : bool :=
  existsb (patternExcludes path) (Patterns exc).

End ShouldExclude.

Unset Elimination Schemes.
(** A file tree as [filepath.WalkDir] sees it: a regular file, or a directory
    with the entries [os.ReadDir] lists for it (in the order it lists them,
    which is by file name), [None] when reading the directory fails (and
    then lists nothing). *)
Inductive FsNode :=
| RegFile (name : string)
| Directory (name : string) (entries : option (list FsNode)).
Set Elimination Schemes.

Definition nodeName (d : FsNode) : string :=
  match d with
  | RegFile name => name
  | Directory name _ => name
  end.

(** [filepath.Join(path, name)] for a directory path that [filepath.Clean]
    leaves alone (or that only carries one trailing slash) and an entry name,
    which holds no slash and is neither ["."] nor [".."]. *)
Definition filepath_Join (path name : string) : string :=
  if String.eqb path "" then name
  else if String.eqb path "." then name
  else if GoStrings.HasSuffix path "/" then path +:+ name
  else path +:+ "/" +:+ name.

(** What a [fs.WalkDirFunc] returns: [nil], [filepath.SkipDir], or an error. *)
Inductive WalkResult := WalkNil | WalkSkipDir | WalkErr.

Section WalkDir.

Context {St : Type}.

(** The callback, as a state transformer over the variables its closure
    captures: [fn st path isDir failed] for [fn(path, d, err)], where [isDir]
    is [d.IsDir()] and [failed] is [err != nil]. *)
Variable fn : St -> string -> bool -> bool -> St * WalkResult.

(** [walkDir] of package [path/filepath]. *)
Fixpoint walkDir (path : string) (d : FsNode) (st : St) : St * WalkResult :=
  match d with
  | RegFile _ => fn st path false false
  | Directory _ entries =>
      let '(st1, r) := fn st path true false in
      match r with
      | WalkSkipDir => (st1, WalkNil)
      | WalkErr => (st1, WalkErr)
      | WalkNil =>
          match entries with
          | None =>
              let '(st2, r2) := fn st1 path true true in
              match r2 with
              | WalkErr => (st2, WalkErr)
              | _ => (st2, WalkNil)
              end
          | Some dirs =>
              (fix loop (dirs : list FsNode) (st : St) : St * WalkResult :=
                 match dirs with
                 | [] => (st, WalkNil)
                 | d1 :: rest =>
                     let '(st', r1) :=
                       walkDir (filepath_Join path (nodeName d1)) d1 st in
                     match r1 with
                     | WalkNil => loop rest st'
                     | WalkSkipDir => (st', WalkNil)
                     | WalkErr => (st', WalkErr)
                     end
                 end) dirs st1
          end
      end
  end.

(** The [for _, d1 := range dirs] loop of [walkDir], under a name of its own. *)
Fixpoint walkEntries (path : string) (dirs : list FsNode) (st : St)
    : St * WalkResult :=
  match dirs with
  | [] => (st, WalkNil)
  | d1 :: rest =>
      let '(st', r1) := walkDir (filepath_Join path (nodeName d1)) d1 st in
      match r1 with
      | WalkNil => walkEntries path rest st'
      | WalkSkipDir => (st', WalkNil)
      | WalkErr => (st', WalkErr)
      end
  end.

(** [filepath.WalkDir(root, fn)]; [node] is what [os.Lstat(root)] finds,
    [None] when it fails.  The result is [true] when an error is returned. *)
Definition WalkDir (root : string) (node : option FsNode) (st : St) : St * bool :=
  match node with
  | None =>
      let '(st', r) := fn st root false true in
      (st', match r with WalkErr => true | _ => false end)
  | Some d =>
      let '(st', r) := walkDir root d st in
      (st', match r with WalkErr => true | _ => false end)
  end.

End WalkDir.

Section ExpandDirectory.

Variable doublestar_Match : string -> string -> bool.

(** [exclude != nil && exclude.ShouldExclude(path)]. *)
Definition excluded (exclude : option ExcludeRule) (path : string) : bool :=
  match exclude with
  | None => false
  | Some exc => ShouldExclude doublestar_Match exc path
  end.

(** The function literal [ExpandDirectory] hands to [filepath.WalkDir]; its
    state is the captured slice [files]. *)
Definition expandVisit (exclude : option ExcludeRule)
    (files : list string) (path : string) (isDir failed : bool)
    : list string * WalkResult :=
  if failed then (files, WalkErr)
  else if isDir then
    if excluded exclude path then (files, WalkSkipDir) else (files, WalkNil)
  else if excluded exclude path then (files, WalkNil)
  else (files ++ [path], WalkNil).

(** [func ExpandDirectory(dir string, exclude *ExcludeRule) ([]string, error)]
    on the tree [node] found at [dir]. *)
Definition ExpandDirectory (dir : string) (node : option FsNode)
    (exclude : option ExcludeRule) : list string * bool :=
  WalkDir (expandVisit exclude) dir node [].

(** The same walk with a probe around the callback that logs every path the
    callback is invoked on; the first component of the state is the log. *)
Definition tracedVisit (exclude : option ExcludeRule)
    (st : list string * list string) (path : string) (isDir failed : bool)
    : (list string * list string) * WalkResult :=
  let '(files', r) := expandVisit exclude (snd st) path isDir failed in
  ((fst st ++ [path], files'), r).

(** [Reached path node f]: [f] is the path of a regular file of the tree
    [node] rooted at [path], and neither the file nor any directory on the
    way down to it (the root included) is excluded. *)
Inductive Reached (exclude : option ExcludeRule)
    : string -> FsNode -> string -> Prop :=
| reached_file path name :
    excluded exclude path = false ->
    Reached exclude path (RegFile name) path
| reached_entry path name dirs d f :
    excluded exclude path = false ->
    d ∈ dirs ->
    Reached exclude (filepath_Join path (nodeName d)) d f ->
    Reached exclude path (Directory name (Some dirs)) f.

(** [Visited path node p]: [p] is the path of a node of the tree (the root
    included), and no directory strictly above it is excluded. *)
Inductive Visited (exclude : option ExcludeRule)
    : string -> FsNode -> string -> Prop :=
| visited_here path node :
    Visited exclude path node path
| visited_entry path name dirs d p :
    excluded exclude path = false ->
    d ∈ dirs ->
    Visited exclude (filepath_Join path (nodeName d)) d p ->
    Visited exclude path (Directory name (Some dirs)) p.

End ExpandDirectory.

(** ** The history store *)

(** A [time.Time], by the fields [Format] prints. *)
Record Time := mkTime {
  year : nat; month : nat; day : nat;
  hour : nat; minute : nat; second : nat
}.

Definition itoa (n : nat) : string := NilEmpty.string_of_uint (Nat.to_uint n).

Fixpoint zeros (k : nat) : string :=
  match k with
  | O => ""
  | S k' => String "0"%char (zeros k')
  end.

(** A decimal number, zero-padded on the left to [width] digits. *)
Definition padded (width n : nat) : string :=
  let s := itoa n in zeros (width - String.length s) +:+ s.

(** [t.Format("2006-01-02_15-04-05")]. *)
Definition formatTimestamp (t : Time) : string :=
  padded 4 (year t) +:+ "-" +:+ padded 2 (month t) +:+ "-" +:+ padded 2 (day t)
  +:+ "_" +:+ padded 2 (hour t) +:+ "-" +:+ padded 2 (minute t)
  +:+ "-" +:+ padded 2 (second t).

Module History.

Definition maxHistoryEntries : nat := 100.

Record HistoryEntry := mkHistoryEntry {
  Timestamp : Time;
  ContextName : string;
  ProjectContext : string;
  Request : string;
  Files : list string
}.

(** An [os.DirEntry] of the history directory. *)
Record DirEntry := mkDirEntry {
  Name : string;
  IsDir : bool
}.

(** The bytes [sanitizeFilename] replaces, by code: slash, backslash, colon,
    star, question mark, double quote, less-than, greater-than, bar, space. *)
Definition unsafe : list ascii :=
  map ascii_of_nat [47; 92; 58; 42; 63; 34; 60; 62; 124; 32].

(** [func sanitizeFilename(name string) string]. *)
Definition sanitizeFilename (name : string) : string :=
  foldl (fun result char => GoStrings.ReplaceAll1 result char "_") name unsafe.

(** [func HistoryEntryFilename(entry HistoryEntry) string], the storage key;
    [SaveHistoryEntry] computes its [filename] by the same expression. *)
Definition HistoryEntryFilename (entry : HistoryEntry) : string :=
  formatTimestamp (Timestamp entry) +:+ "_"
  +:+ sanitizeFilename (ContextName entry) +:+ ".yaml".

(** The entries [PruneHistory] counts: [!e.IsDir() && HasSuffix(e.Name(), ".yaml")]. *)
Definition isYamlFile (e : DirEntry) : bool :=
  negb (IsDir e) && GoStrings.HasSuffix (Name e) ".yaml".

(** [os.Remove] of the entry called [name] in the history directory. *)
Definition osRemove (name : string) (dir : list DirEntry) : list DirEntry :=
  List.filter (fun e => negb (String.eqb (Name e) name)) dir.

(** The [// Filter to only yaml files] loop of [PruneHistory]. *)
Definition yamlFiles (entries : list DirEntry) : list DirEntry :=
  List.filter isYamlFile entries.

(** The [less] function of [PruneHistory]: [Name() < Name()] on Go strings. *)
Definition nameLess (a b : DirEntry) : bool := String.ltb (Name a) (Name b).

(** [func PruneHistory() error] as a function of the directory listing
    [os.ReadDir] returns; the result is the listing afterwards.  The code
    drops the result of [os.Remove]; the entries are regular files, and the
    removal is taken to succeed, as are [HistoryDir] and [os.ReadDir]. *)
Definition PruneHistory (dir : list DirEntry) : list DirEntry :=
  let files := yamlFiles dir in
  if (length files <=? maxHistoryEntries)%nat then dir
  else
    let sorted := sortSlice nameLess files in
    let toDelete := (length files - maxHistoryEntries)%nat in
    foldl (fun d e => osRemove (Name e) d) dir (take toDelete sorted).

(** [os.WriteFile] into the history directory: it fails when [filename] names
    a directory, overwrites an existing file and creates a new one otherwise. *)
Definition osWriteFile (filename : string) (dir : list DirEntry)
    : option (list DirEntry) :=
  match List.find (fun e => String.eqb (Name e) filename) dir with
  | Some e => if IsDir e then None else Some dir
  | None => Some (dir ++ [mkDirEntry filename false])
  end.

(** [func SaveHistoryEntry(entry HistoryEntry) error]: the listing afterwards
    and whether an error is returned. *)
Definition SaveHistoryEntry (entry : HistoryEntry) (dir : list DirEntry)
    : list DirEntry * bool :=
  match osWriteFile (HistoryEntryFilename entry) dir with
  | None => (dir, true)
  | Some dir' => (PruneHistory dir', false)
  end.

End History.

(** ** main.go: the file list of the model and [yank] *)

Record FileInfo := mkFileInfo {
  Path : string;
  Size : Z;
  Exists : bool;
  Selected : bool
}.

(** The part of the Bubble Tea [Model] that [refreshFiles] and [yank] use. *)
Record Model := mkModel {
  context : Context;
  files : list FileInfo
}.

Section Yank.

(** [os.Stat]: the size of the file at a path, [None] on error. *)
Variable os_Stat : string -> option Z.
(** [os.ReadFile]: the bytes of the file at a path, [None] on error. *)
Variable os_ReadFile : string -> option string.
(** [CopyToClipboard]: [true] when it returns no error. *)
Variable CopyToClipboard : string -> bool.
(** [time.Now()]. *)
Variable now : Time.

(** [buildFileInfo], without the [Project] and [RelPath] display fields. *)
Definition buildFileInfo (path : string) : FileInfo :=
  match os_Stat path with
  | None => mkFileInfo path 0 false false
  | Some size => mkFileInfo path size true false
  end.

(** [func (m *Model) refreshFiles()]; the folder summary is left out. *)
Definition refreshFiles (m : Model) : Model :=
  mkModel (context m)
    (sortSlice (fun a b => (Size a >? Size b)%Z)
       (map buildFileInfo (Files (context m)))).

(** The message [yank] hands to [setStatus]:
    ["Warning: %d file(s) missing"], ["Clipboard error: %v"] or
    ["Yanked %d files to clipboard"]. *)
Inductive Status :=
| StatusMissing (count : nat)
| StatusClipboardError
| StatusYanked (count : nat).

(** What one call of [yank] does: the status it reports, the text it hands
    to [CopyToClipboard] ([None] when that call is not reached) and the
    entries it hands to [SaveHistoryEntry]. *)
Record YankResult := mkYankResult {
  status : Status;
  clipboard : option string;
  saved : list History.HistoryEntry
}.

Definition dquote : string := String (ascii_of_nat 34) EmptyString.

(** The fixed text [yank] writes first. *)
Definition preamble : string :=
  "This is a structured prompt for a software development task."
  +:+ GoStrings.nl +:+ GoStrings.nl
  +:+ "<project_context> describes the project: its purpose, tech stack, architecture, and coding conventions. Use this to understand the broader context."
  +:+ GoStrings.nl +:+ GoStrings.nl
  +:+ "<request> contains the specific task or question to address. This is what you should focus on accomplishing."
  +:+ GoStrings.nl +:+ GoStrings.nl
  +:+ "<file> tags contain the relevant source files. Each file has a path attribute. Use these to understand the current implementation and make appropriate changes."
  +:+ GoStrings.nl +:+ GoStrings.nl
  +:+ "---"
  +:+ GoStrings.nl +:+ GoStrings.nl.

(** What the [// Write project context] statement appends to the builder. *)
Definition writeProjectContext (text : string) : string :=
  if String.eqb text "" then ""
  else "<project_context>" +:+ GoStrings.nl
       +:+ text
       +:+ (if negb (GoStrings.HasSuffix text GoStrings.nl) then GoStrings.nl else "")
       +:+ "</project_context>" +:+ GoStrings.nl +:+ GoStrings.nl.

(** What the [// Write request] statement appends to the builder. *)
Definition writeRequest (text : string) : string :=
  if String.eqb text "" then ""
  else "<request>" +:+ GoStrings.nl
       +:+ text
       +:+ (if negb (GoStrings.HasSuffix text GoStrings.nl) then GoStrings.nl else "")
       +:+ "</request>" +:+ GoStrings.nl +:+ GoStrings.nl.

(** The path shown in the [<file>] tag. *)
Definition displayPath (projectRoot path : string) : string :=
  if negb (String.eqb projectRoot "") then
    let root :=
      if negb (GoStrings.HasSuffix projectRoot "/") then projectRoot +:+ "/"
      else projectRoot in
    if GoStrings.HasPrefix path root then GoStrings.TrimPrefix path root
    else path
  else path.

(** [len(content) > 0 && content[len(content)-1] != '\n']. *)
Definition lacksFinalNewline (content : string) : bool :=
  (0 <? String.length content)%nat
  && match String.get (String.length content - 1) content with
     | Some c => negb (Ascii.eqb c GoStrings.LF)
     | None => false
     end.

(** The three [sb.Write...] statements that emit one [<file>] block. *)
Definition writeFileBlock (shown content : string) : string :=
  "<file path=" +:+ dquote +:+ shown +:+ dquote +:+ ">" +:+ GoStrings.nl
  +:+ content
  +:+ (if lacksFinalNewline content then GoStrings.nl else "")
  +:+ "</file>" +:+ GoStrings.nl +:+ GoStrings.nl.

(** One iteration of the [// Write files] loop. *)
Definition writeFile (projectRoot : string) (f : FileInfo) : string :=
  if negb (Exists f) then ""
  else match os_ReadFile (Path f) with
       | None => ""
       | Some content =>
           writeFileBlock (displayPath projectRoot (Path f)) content
       end.

(** The [// Write files] loop, appending to the builder contents [sb]. *)
Definition writeFiles (projectRoot : string) (fs : list FileInfo) (sb : string)
    : string :=
  foldl (fun sb f => sb +:+ writeFile projectRoot f) sb fs.

(** The blocks of a list of files, one after the other. *)
Definition concatBlocks (projectRoot : string) (fs : list FileInfo) : string :=
  foldr (fun f rest => writeFile projectRoot f +:+ rest) "" fs.

(** The [// Check for missing files] loop. *)
Definition missingPaths (fs : list FileInfo) : list string :=
  map Path (List.filter (fun f => negb (Exists f)) fs).

(** [func (m *Model) yank() tea.Cmd]. *)
Definition yank (m : Model) : YankResult :=
  let ctx := context m in
  let sb := preamble
            +:+ writeProjectContext (ProjectContext ctx)
            +:+ writeRequest (Request ctx) in
  let missing := missingPaths (files m) in
  if (0 <? length missing)%nat then
    mkYankResult (StatusMissing (length missing)) None []
  else
    let sb := writeFiles (ProjectRoot ctx) (files m) sb in
    if negb (CopyToClipboard sb) then
      mkYankResult StatusClipboardError (Some sb) []
    else
      let entry :=
        History.mkHistoryEntry now (Name ctx) (ProjectContext ctx)
          (Request ctx) (map Path (files m)) in
      mkYankResult (StatusYanked (length (files m))) (Some sb) [entry].

End Yank.

(** ** More of the history store *)

(** [s[:n]] for [n <= len(s)]. *)
Fixpoint sliceTo (n : nat) (s : string) : string :=
  match n, s with
  | O, _ => EmptyString
  | S _, EmptyString => EmptyString
  | S n', String c s' => String c (sliceTo n' s')
  end.

(** [strings.TrimSuffix(s, suffix)]. *)
Definition strings_TrimSuffix (s suffix : string) : string :=
  if GoStrings.HasSuffix s suffix
  then sliceTo (String.length s - String.length suffix) s
  else s.

(** [strings.Split(s, "\n")[0]]: the text before the first line feed. *)
Fixpoint firstLine (s : string) : string :=
  match s with
  | EmptyString => EmptyString
  | String c s' =>
      if Ascii.eqb c GoStrings.LF then EmptyString else String c (firstLine s')
  end.

(** Whether a byte is one of those [sanitizeFilename] replaces. *)
Definition isUnsafe (c : ascii) : bool := existsb (Ascii.eqb c) History.unsafe.

(** What [sanitizeFilename] does to one byte. *)
Definition sanitizeByte (c : ascii) : ascii :=
  if isUnsafe c then "_"%char else c.

(** A string, byte by byte through [f]. *)
Fixpoint mapBytes (f : ascii -> ascii) (s : string) : string :=
  match s with
  | EmptyString => EmptyString
  | String c s' => String (f c) (mapBytes f s')
  end.

(** A string none of whose bytes [sanitizeFilename] would replace. *)
Definition safeString (s : string) : Prop :=
  Forall (fun c => isUnsafe c = false) (list_ascii_of_string s).

(** The order of two instants that differ in the fields [Format] prints:
    year first, second last. *)
Definition timeCompare (a b : Time) : comparison :=
  match Nat.compare (year a) (year b) with
  | Eq =>
      match Nat.compare (month a) (month b) with
      | Eq =>
          match Nat.compare (day a) (day b) with
          | Eq =>
              match Nat.compare (hour a) (hour b) with
              | Eq =>
                  match Nat.compare (minute a) (minute b) with
                  | Eq => Nat.compare (second a) (second b)
                  | c => c
                  end
              | c => c
              end
          | c => c
          end
      | c => c
      end
  | c => c
  end.

(** The civil times [time.Time] holds with a four-digit year. *)
Definition civilTime (t : Time) : Prop :=
  (Z.of_nat (year t) <= 9999)%Z /\ 1 <= month t <= 12 /\ 1 <= day t <= 31
  /\ hour t <= 23 /\ minute t <= 59 /\ second t <= 59.

(** [func (e HistoryEntry) RequestPreview() string], with [strings.TrimSpace]
    as [trimSpace]. *)
Definition RequestPreview (trimSpace : string -> string)
    (e : History.HistoryEntry) : string :=
  if String.eqb (History.Request e) "" then "(no request)"
  else
    let preview := trimSpace (firstLine (History.Request e)) in
    let preview :=
      if (50 <? String.length preview)%nat then sliceTo 47 preview +:+ "..."
      else preview in
    if String.eqb preview "" then "(empty)" else preview.

(** What [os.Stat] and [os.ReadDir] find at the history directory. *)
Inductive HistoryDirState :=
| DirMissing
| DirUnreadable
| DirListing (entries : list History.DirEntry).

Section ListHistoryEntries.

(** [LoadHistoryEntry] by file name: [None] when reading or parsing fails. *)
Variable LoadHistoryEntry : string -> option History.HistoryEntry.
(** [t.After(u)] on the timestamps of loaded entries. *)
Variable time_After : Time -> Time -> bool.

(** The loop of [ListHistoryEntries] over the directory entries. *)
Fixpoint loadEntries (entries : list History.DirEntry)
    : list History.HistoryEntry :=
  match entries with
  | [] => []
  | e :: rest =>
      if History.IsDir e || negb (GoStrings.HasSuffix (History.Name e) ".yaml")
      then loadEntries rest
      else match LoadHistoryEntry (History.Name e) with
           | None => loadEntries rest
           | Some entry => entry :: loadEntries rest
           end
  end.

(** [func ListHistoryEntries() ([]HistoryEntry, error)]: [None] stands for
    the error result. *)
Definition ListHistoryEntries (dir : HistoryDirState)
    : option (list History.HistoryEntry) :=
  match dir with
  | DirMissing => Some []
  | DirUnreadable => None
  | DirListing entries =>
      Some (sortSlice
              (fun a b => time_After (History.Timestamp a) (History.Timestamp b))
              (loadEntries entries))
  end.

End ListHistoryEntries.

(** ** More of context.go and exclude.go *)

(** [Unreadable match exclude path node]: the tree [node] rooted at [path]
    holds a directory that cannot be read and that the walk enters, that is,
    one that is not excluded and lies below directories that are not
    excluded. *)
Inductive Unreadable (doublestar_Match : string -> string -> bool)
    (exclude : option ExcludeRule) : string -> FsNode -> Prop :=
| unreadable_here path name :
    excluded doublestar_Match exclude path = false ->
    Unreadable doublestar_Match exclude path (Directory name None)
| unreadable_below path name dirs d :
    excluded doublestar_Match exclude path = false ->
    d ∈ dirs ->
    Unreadable doublestar_Match exclude (filepath_Join path (nodeName d)) d ->
    Unreadable doublestar_Match exclude path (Directory name (Some dirs)).


(** The loop of [ListContexts] and of [ListExcludeRules] over the entries
    [os.ReadDir] lists. *)
Fixpoint listYamlNames (entries : list History.DirEntry) : list string :=
  match entries with
  | [] => []
  | e :: rest =>
      if negb (History.IsDir e) && GoStrings.HasSuffix (History.Name e) ".yaml"
      then strings_TrimSuffix (History.Name e) ".yaml" :: listYamlNames rest
      else listYamlNames rest
  end.

(** [func ListContexts() ([]string, error)] on the listing of
    [~/.ctx/contexts]. *)
Definition ListContexts (entries : list History.DirEntry) : list string :=
  listYamlNames entries.

(** [func ListExcludeRules() ([]string, error)] on the listing of
    [~/.ctx/excludes]. *)
Definition ListExcludeRules (entries : list History.DirEntry) : list string :=
  listYamlNames entries.

(** ** More of main.go: adding, selecting and deleting files, replaying *)

(** The message [processPaste] hands to [setStatus], or that it returns
    [nil] without one. *)
Inductive PasteStatus :=
| PasteIgnored
| PasteNotValidPath
| PastePathNotFound
| PasteErrorExpanding
| PasteErrorSaving
| PasteAddedFromDirectory (added : nat)
| PasteFileAdded
| PasteAlreadyInContext.

(** The message [deleteSelected] hands to [setStatus]. *)
Inductive DeleteStatus :=
| DeleteErrorSaving
| DeletedFiles (count : nat)
| DeletedFile.

(** The message [yankHistoryEntry] hands to [setStatus]. *)
Inductive ReplayStatus :=
| ReplayNoSelection
| ReplayClipboardError
| ReplayYanked (count : nat).

(** What one call of [yankHistoryEntry] does: the status it reports and the
    text it hands to [CopyToClipboard] ([None] when that call is not
    reached). *)
Record ReplayResult := mkReplayResult {
  replayStatus : ReplayStatus;
  replayClipboard : option string
}.

(** [func (m *Model) selectedCount() int]. *)
Definition selectedCount (fs : list FileInfo) : nat :=
  length (List.filter Selected fs).

(** The [case "*"] of [handleNormalKey]: select all, or deselect all when
    every file is selected already. *)
Definition toggleAll (fs : list FileInfo) : list FileInfo :=
  let allSelected := forallb Selected fs in
  map (fun f => mkFileInfo (Path f) (Size f) (Exists f) (negb allSelected)) fs.

Section MainOperations.

(** [strings.TrimSpace]. *)
Variable strings_TrimSpace : string -> string.
(** [os.Stat]: size and [IsDir()] of what is at a path, [None] on error. *)
Variable os_StatInfo : string -> option (Z * bool).
(** The tree [filepath.WalkDir] finds at a path, [None] when [os.Lstat]
    fails. *)
Variable os_Lstat : string -> option FsNode.
Variable os_ReadFile : string -> option string.
Variable doublestar_Match : string -> string -> bool.
(** [SaveContext]: [true] when it returns no error. *)
Variable SaveContext : Context -> bool.
Variable CopyToClipboard : string -> bool.

(** The size part of [os.Stat], as [refreshFiles] reads it. *)
Definition statSize (path : string) : option Z := fst <$> os_StatInfo path.

(** The loop of [processPaste] over the expanded files, with its counter. *)
Definition addExpanded (ctx : Context) (paths : list string) : Context * nat :=
  foldl (fun (acc : Context * nat) f =>
           let '(ctx', ok) := AddFile (fst acc) f in
           (ctx', if ok then S (snd acc) else snd acc))
        (ctx, 0) paths.

(** [func (m *Model) processPaste(input string) tea.Cmd], with [m.exclude]
    as [exclude]. *)
Definition processPaste (exclude : ExcludeRule) (m : Model) (input : string)
    : Model * PasteStatus :=
  let input := strings_TrimSpace input in
  if String.eqb input "" then (m, PasteIgnored)
  else if negb (GoStrings.HasPrefix input "/") then (m, PasteNotValidPath)
  else
    match os_StatInfo input with
    | None => (m, PastePathNotFound)
    | Some (_, true) =>
        let '(expanded, failed) :=
          ExpandDirectory doublestar_Match input (os_Lstat input) (Some exclude) in
        if failed then (m, PasteErrorExpanding)
        else
          let '(ctx', added) := addExpanded (context m) expanded in
          if negb (SaveContext ctx') then (mkModel ctx' (files m), PasteErrorSaving)
          else (refreshFiles statSize (mkModel ctx' (files m)),
                PasteAddedFromDirectory added)
    | Some (_, false) =>
        let '(ctx', ok) := AddFile (context m) input in
        if ok then
          if negb (SaveContext ctx') then (mkModel ctx' (files m), PasteErrorSaving)
          else (refreshFiles statSize (mkModel ctx' (files m)), PasteFileAdded)
        else (m, PasteAlreadyInContext)
    end.

(** The paths [deleteSelected] collects in [toRemove]. *)
Definition selectedPaths (fs : list FileInfo) : list string :=
  map Path (List.filter Selected fs).

(** [func (m *Model) deleteSelected() tea.Cmd], with [m.cursor] as [cursor];
    the result is the model, the cursor and the status afterwards, and
    [None] when [m.files[m.cursor]] is out of range and the program panics. *)
Definition deleteSelected (m : Model) (cursor : Z)
    : option (Model * Z * DeleteStatus) :=
  let selected := selectedCount (files m) in
  let removed : option Context :=
    if (0 <? selected)%nat then
      Some (RemoveFiles (context m) (selectedPaths (files m)))
    else if (cursor <? Z.of_nat (length (files m)))%Z then
      if (cursor <? 0)%Z then None
      else match files m !! Z.to_nat cursor with
           | Some f => Some (RemoveFile (context m) (Path f))
           | None => None
           end
    else Some (context m) in
  match removed with
  | None => None
  | Some ctx' =>
      if negb (SaveContext ctx') then
        Some (mkModel ctx' (files m), cursor, DeleteErrorSaving)
      else
        let m' := refreshFiles statSize (mkModel ctx' (files m)) in
        let count := Z.of_nat (length (files m')) in
        let cursor' :=
          if (count <=? cursor)%Z && (0 <? cursor)%Z then (count - 1)%Z
          else cursor in
        Some (m', cursor',
              if (0 <? selected)%nat then DeletedFiles selected else DeletedFile)
  end.

(** One iteration of the [// Write files (read from disk)] loop of
    [yankHistoryEntry]. *)
Definition writeReplayFile (filePath : string) : string :=
  match os_ReadFile filePath with
  | None => ""
  | Some content => writeFileBlock filePath content
  end.

(** [func (m *Model) yankHistoryEntry() tea.Cmd], with [m.historyEntries]
    and [m.historyCursor]; [None] when the index is out of range and the
    program panics. *)
Definition yankHistoryEntry (historyEntries : list History.HistoryEntry)
    (historyCursor : Z) : option ReplayResult :=
  if (length historyEntries =? 0)%nat
     || (Z.of_nat (length historyEntries) <=? historyCursor)%Z
  then Some (mkReplayResult ReplayNoSelection None)
  else if (historyCursor <? 0)%Z then None
  else
    match historyEntries !! Z.to_nat historyCursor with
    | None => None
    | Some entry =>
        let sb := preamble
                  +:+ writeProjectContext (History.ProjectContext entry)
                  +:+ writeRequest (History.Request entry) in
        let sb :=
          foldl (fun sb filePath => sb +:+ writeReplayFile filePath)
                sb (History.Files entry) in
        if negb (CopyToClipboard sb) then
          Some (mkReplayResult ReplayClipboardError (Some sb))
        else
          Some (mkReplayResult (ReplayYanked (length (History.Files entry)))
                  (Some sb))
    end.

End MainOperations.

(** ** main.go: the folder view *)

(** Go's [int64], and [int] on the 64-bit platforms the program is built
    for: the result of an addition or a subtraction wraps around. *)
Definition wrap64 (z : Z) : Z :=
  ((z + 9223372036854775808) mod 18446744073709551616 - 9223372036854775808)%Z.

(** The values an [int64] holds. *)
Definition int64 (z : Z) : Prop :=
  (-9223372036854775808 <= z < 9223372036854775808)%Z.

(** [FolderInfo]; [FileCount] only ever counts elements of a slice, so that
    it stays far from the bounds of [int]. *)
Module Folder.

Record FolderInfo := mkFolderInfo {
  Path : string;
  FileCount : nat;
  TotalSize : Z;
  Selected : bool
}.

End Folder.

(** [func (m *Model) totalSize() int64]. *)
Definition totalSize (fs : list FileInfo) : Z :=
  foldl (fun total f => wrap64 (total + Size f)) 0%Z fs.

(** [func (m Model) visibleFileRows() int], with [m.height] as [height]. *)
Definition visibleFileRows (height : Z) : Z :=
  let available := wrap64 (height - 5) in
  if (available <? 3)%Z then 3%Z else available.

(** The modes [handleFolderKey] moves between. *)
Inductive Mode := modeNormal | modeFolderView.

(** The keys [handleFolderKey] acts on: ["f"] or ["esc"], ["up"] or ["k"],
    ["down"] or ["j"], the space bar and ["d"]; ["q"] quits and any other key
    leaves the model as it is. *)
Inductive FolderKey := keyBack | keyUp | keyDown | keySpace | keyDelete | keyOther.

(** The fields of the [Model] that the folder view reads and writes. *)
Record FolderView := mkFolderView {
  model : Model;
  folders : list Folder.FolderInfo;
  folderCursor : Z;
  folderOffset : Z;
  mode : Mode
}.

(** The sum of the sizes of some files, without wrap-around. *)
Definition sumSizes (fs : list FileInfo) : Z :=
  foldr (fun f total => (Size f + total)%Z) 0%Z fs.

(** [folder.Selected = !folder.Selected]. *)
Definition toggleFolder (folder : Folder.FolderInfo) : Folder.FolderInfo :=
  Folder.mkFolderInfo (Folder.Path folder) (Folder.FileCount folder)
    (Folder.TotalSize folder) (negb (Folder.Selected folder)).

(** A folder as [refreshFolders] lists it: not selected. *)
Definition unselectFolder (folder : Folder.FolderInfo) : Folder.FolderInfo :=
  Folder.mkFolderInfo (Folder.Path folder) (Folder.FileCount folder)
    (Folder.TotalSize folder) false.

Section FolderView.

(** [filepath.Dir]. *)
Variable filepath_Dir : string -> string.
(** [os.Stat], as in [processPaste]. *)
Variable os_StatInfo : string -> option (Z * bool).

(** One iteration of the first loop of [refreshFolders]; the map holds
    pointers, so that [folder.FileCount++] updates what is stored at [dir]. *)
Definition addToFolder (folderMap : gmap string Folder.FolderInfo) (f : FileInfo)
    : gmap string Folder.FolderInfo :=
  let dir := filepath_Dir (Path f) in
  match folderMap !! dir with
  | Some folder =>
      <[dir := Folder.mkFolderInfo (Folder.Path folder)
                 (S (Folder.FileCount folder))
                 (wrap64 (Folder.TotalSize folder + Size f))
                 (Folder.Selected folder)]> folderMap
  | None => <[dir := Folder.mkFolderInfo dir 1 (Size f) false]> folderMap
  end.

Definition groupByFolder (fs : list FileInfo) : gmap string Folder.FolderInfo :=
  foldl addToFolder ∅ fs.

Definition folderLess (a b : Folder.FolderInfo) : bool :=
  String.ltb (Folder.Path a) (Folder.Path b).

(** [func (m *Model) refreshFolders()], from [m.files] to [m.folders].  Go
    ranges over a map in an order it does not specify; the model takes the
    order of [map_to_list], and the sorted result does not depend on it. *)
Definition refreshFolders (fs : list FileInfo) : list Folder.FolderInfo :=
  sortSlice folderLess (snd <$> map_to_list (groupByFolder fs)).

(** [m.refreshFiles()], which ends in [m.refreshFolders()]. *)
Definition refreshView (ctx : Context) (v : FolderView) : FolderView :=
  let m := refreshFiles (fun path => fst <$> os_StatInfo path)
             (mkModel ctx (files (model v))) in
  mkFolderView m (refreshFolders (files m)) (folderCursor v) (folderOffset v)
    (mode v).

(** The paths the [case "d"] of [handleFolderKey] collects in
    [foldersToDelete]; [None] when [m.folders[m.folderCursor]] is out of
    range and the program panics. *)
Definition foldersToDelete (v : FolderView) : option (list string) :=
  if existsb Folder.Selected (folders v) then
    Some (map Folder.Path (List.filter Folder.Selected (folders v)))
  else if (folderCursor v <? Z.of_nat (length (folders v)))%Z then
    if (folderCursor v <? 0)%Z then None
    else match folders v !! Z.to_nat (folderCursor v) with
         | Some folder => Some [Folder.Path folder]
         | None => None
         end
  else Some [].

(** The inner loop of the [case "d"]: whether [file] is kept. *)
Definition keepFile (toDelete : list string) (file : string) : bool :=
  negb (existsb (String.eqb (filepath_Dir file)) toDelete).

(** [func (m Model) handleFolderKey(msg tea.KeyMsg) (tea.Model, tea.Cmd)],
    with [m.height] as [height]; [None] when an index is out of range and
    the program panics.  The error of [SaveContext] is dropped by the
    [case "d"], which goes on as if the context had been saved. *)
Definition handleFolderKey (height : Z) (key : FolderKey) (v : FolderView)
    : option FolderView :=
  let visibleRows := visibleFileRows height in
  let count := Z.of_nat (length (folders v)) in
  match key with
  | keyBack =>
      Some (mkFolderView (model v) (folders v) (folderCursor v) (folderOffset v)
              modeNormal)
  | keyUp =>
      if (0 <? folderCursor v)%Z then
        let cursor := wrap64 (folderCursor v - 1) in
        let offset :=
          if (cursor <? folderOffset v)%Z then cursor else folderOffset v in
        Some (mkFolderView (model v) (folders v) cursor offset (mode v))
      else Some v
  | keyDown =>
      if (folderCursor v <? count - 1)%Z then
        let cursor := wrap64 (folderCursor v + 1) in
        let offset :=
          if (wrap64 (folderOffset v + visibleRows) <=? cursor)%Z
          then wrap64 (wrap64 (cursor - visibleRows) + 1)
          else folderOffset v in
        Some (mkFolderView (model v) (folders v) cursor offset (mode v))
      else Some v
  | keySpace =>
      if (folderCursor v <? count)%Z then
        if (folderCursor v <? 0)%Z then None
        else match folders v !! Z.to_nat (folderCursor v) with
             | Some folder =>
                 Some (mkFolderView (model v)
                         (<[Z.to_nat (folderCursor v) := toggleFolder folder]>
                            (folders v))
                         (folderCursor v) (folderOffset v) (mode v))
             | None => None
             end
      else Some v
  | keyDelete =>
      match foldersToDelete v with
      | None => None
      | Some toDelete =>
          let newFiles :=
            List.filter (keepFile toDelete) (Files (context (model v))) in
          let v' := refreshView (withFiles (context (model v)) newFiles) v in
          let count' := Z.of_nat (length (folders v')) in
          let cursor :=
            if (count' <=? folderCursor v)%Z && (0 <? folderCursor v)%Z
            then (count' - 1)%Z else folderCursor v in
          Some (mkFolderView (model v') (folders v') cursor (folderOffset v)
                  (if (count' =? 0)%Z then modeNormal else mode v))
      end
  | keyOther => Some v
  end.

(** Whether [f] lies in the folder [dir]. *)
Definition inFolder (dir : string) (f : FileInfo) : bool :=
  String.eqb (filepath_Dir (Path f)) dir.

(** What the folder view is to show for [dir]: the number of files of [fs]
    that lie in it and the sum of their sizes as an [int64]. *)
Definition folderOf (dir : string) (fs : list FileInfo) : Folder.FolderInfo :=
  let members := List.filter (inFolder dir) fs in
  Folder.mkFolderInfo dir (length members) (wrap64 (sumSizes members)) false.

End FolderView.

(** The cursor of the folder view is on a folder, and the window of
    [visibleFileRows] rows that starts at the offset shows it. *)
Definition cursorInWindow (height : Z) (v : FolderView) : Prop :=
  (0 <= folderOffset v <= folderCursor v)%Z
  /\ (folderCursor v < folderOffset v + visibleFileRows height)%Z
  /\ (folderCursor v < Z.of_nat (length (folders v)))%Z.

(** The sums of the two columns of the folder view. *)
Definition sumFileCount (l : list Folder.FolderInfo) : nat :=
  foldr (fun folder n => Folder.FileCount folder + n) 0 l.

Definition sumTotalSize (l : list Folder.FolderInfo) : Z :=
  foldr (fun folder total => (Folder.TotalSize folder + total)%Z) 0%Z l.
(** ** main.go: the display fields of a file *)

(** [strings.Split(s, sep)] for a separator of one byte: the pieces between
    the separators, one more than there are separators. *)
Fixpoint strings_Split1 (s : string) (sep : ascii) : list string :=
  match s with
  | EmptyString => [EmptyString]
  | String c rest =>
      if Ascii.eqb c sep then EmptyString :: strings_Split1 rest sep
      else match strings_Split1 rest sep with
           | part :: parts => String c part :: parts
           | [] => [String c EmptyString]
           end
  end.

(** [strings.Join(elems, sep)]. *)
Fixpoint strings_Join (elems : list string) (sep : string) : string :=
  match elems with
  | [] => ""
  | e :: rest =>
      match rest with
      | [] => e
      | _ => e +:+ sep +:+ strings_Join rest sep
      end
  end.

Section DisplayFields.

(** What [os.UserHomeDir] returns; its error is dropped, and the path it
    returns with an error is empty. *)
Variable home : string.
(** [m.config.SkipPrefixes]. *)
Variable SkipPrefixes : list string.

(** The [relPath] of [buildFileInfo]. *)
Definition relPathOf (path : string) : string :=
  if GoStrings.HasPrefix path home
  then GoStrings.TrimPrefix path (home +:+ "/")
  else path.

(** The inner loop of [// Skip known prefixes]. *)
Definition isSkipped (part : string) : bool :=
  existsb (String.eqb part) SkipPrefixes.

(** The outer loop, from index [i] on: the index of the first part that is
    not skipped, at which the loop breaks. *)
Fixpoint firstKept (parts : list string) (i : nat) : option nat :=
  match parts with
  | [] => None
  | part :: rest => if isSkipped part then firstKept rest (S i) else Some i
  end.

(** The [Project] and [RelPath] fields that [buildFileInfo] computes for
    [path]. *)
Definition displayFields (path : string) : string * string :=
  let relPath := relPathOf path in
  let parts := strings_Split1 relPath "/" in
  let projectIdx := default 0 (firstKept parts 0) in
  if projectIdx <? length parts then
    (default "" (parts !! projectIdx),
     if S projectIdx <? length parts
     then strings_Join (drop (S projectIdx) parts) "/"
     else "")
  else ("", relPath).

End DisplayFields.


(** ** A disk to run the model on *)

(** Regular files by path, with their bytes. *)
Definition Disk := list (string * string).

Fixpoint diskRead (disk : Disk) (path : string) : option string :=
  match disk with
  | [] => None
  | (p, content) :: rest =>
      if String.eqb p path then Some content else diskRead rest path
  end.

Definition diskStat (disk : Disk) (path : string) : option Z :=
  match diskRead disk path with
  | Some content => Some (Z.of_nat (String.length content))
  | None => None
  end.

Definition clipboardWorks (text : string) : bool := true.
Definition clipboardFails (text : string) : bool := false.

Definition exampleDisk : Disk :=
  [("/p/small.go", "a" +:+ GoStrings.nl); ("/p/big.go", "package big")].

Definition exampleNow : Time := mkTime 2025 1 15 14 30 45.

(** Both files are on the disk; the smaller one was added first. *)
Definition exampleModel : Model :=
  mkModel (mkContext "default" "/p" "" "task" ["/p/small.go"; "/p/big.go"]) [].

(** The second path is not on the disk. *)
Definition exampleModelGone : Model :=
  mkModel (mkContext "default" "/p" "" "task" ["/p/small.go"; "/p/gone.go"]) [].

(** A history directory holding one hundred entries, saved one second apart
    from 10:00:00 on. *)
Definition exampleHistoryDir : list History.DirEntry :=
  map (fun i =>
         History.mkDirEntry
           (History.HistoryEntryFilename
              (History.mkHistoryEntry (mkTime 2025 6 1 10 (i / 60) (i mod 60))
                 "default" "" "" []))
           false)
      (seq 0 100).

(** An entry saved after all of them. *)
Definition exampleLateEntry : History.HistoryEntry :=
  History.mkHistoryEntry (mkTime 2025 6 1 10 1 40) "default" "" "task" [].

(** An entry whose local time lies before theirs: the clock was set back. *)
Definition exampleEarlyEntry : History.HistoryEntry :=
  History.mkHistoryEntry (mkTime 2025 6 1 9 59 59) "default" "" "task" [].

(** The tree of the pruning example: [/root] with [node_modules/pkg/index.js]
    and [src/main.go]. *)
Definition exampleTree : FsNode :=
  Directory "root"
    (Some [Directory "node_modules"
             (Some [Directory "pkg" (Some [RegFile "index.js"])]);
           Directory "src" (Some [RegFile "main.go"])]).

Definition exampleRule : ExcludeRule :=
  mkExcludeRule "default" ["**/node_modules/**"].

(** [t.After(u)] for instants told apart by the fields [Format] prints. *)
Definition timeAfter (t u : Time) : bool :=
  match timeCompare t u with
  | Gt => true
  | _ => false
  end.

(** A history directory with two entries that load, one that does not parse,
    a subdirectory and a stray file. *)
Definition exampleListing : list History.DirEntry :=
  [History.mkDirEntry "2025-06-01_09-59-59_default.yaml" false;
   History.mkDirEntry "2025-06-01_10-01-40_default.yaml" false;
   History.mkDirEntry "corrupt.yaml" false;
   History.mkDirEntry "backup.yaml" true;
   History.mkDirEntry "notes.txt" false].

Definition exampleLoad (filename : string) : option History.HistoryEntry :=
  if String.eqb filename "2025-06-01_09-59-59_default.yaml"
  then Some exampleEarlyEntry
  else if String.eqb filename "2025-06-01_10-01-40_default.yaml"
  then Some exampleLateEntry
  else None.

(** The bytes [strings.TrimSpace] trims among the ASCII ones: tab, line feed,
    vertical tab, form feed, carriage return and space. *)
Definition isAsciiSpace (c : ascii) : bool :=
  existsb (Ascii.eqb c) (map ascii_of_nat [9; 10; 11; 12; 13; 32]).

(** [strings.TrimSpace] on text whose outermost bytes are ASCII. *)
Definition trimAsciiSpace (s : string) : string :=
  string_of_list_ascii
    (rev (dropWhileB isAsciiSpace
            (rev (dropWhileB isAsciiSpace (list_ascii_of_string s))))).

(** [os.Stat] on a disk that holds the files of [exampleDisk] and the
    directory [/root]. *)
Definition exampleStatInfo (path : string) : option (Z * bool) :=
  if String.eqb path "/root" then Some (4096%Z, true)
  else match diskStat exampleDisk path with
       | Some size => Some (size, false)
       | None => None
       end.

Definition exampleLstat (path : string) : option FsNode :=
  if String.eqb path "/root" then Some exampleTree else None.

Definition saveWorks (ctx : Context) : bool := true.

(** The model with the project root of its context cleared. *)
Definition withoutRoot (m : Model) : Model :=
  mkModel (mkContext (Name (context m)) "" (ProjectContext (context m))
             (Request (context m)) (Files (context m)))
          (files m).

(** The model of [exampleModel] once refreshed, with its larger file
    selected. *)
Definition exampleSelection : Model :=
  mkModel (context exampleModel)
    [mkFileInfo "/p/big.go" 11 true true; mkFileInfo "/p/small.go" 2 true false].

(** The same, with both files selected. *)
Definition exampleAllSelected : Model :=
  mkModel (context exampleModel)
    [mkFileInfo "/p/big.go" 11 true true; mkFileInfo "/p/small.go" 2 true true].

(** [filepath.Dir] on a cleaned absolute path of two elements or more: the
    path without its last element and the slash before it. *)
Definition parentOf (path : string) : string :=
  let isSep := fun c => Ascii.eqb c "/"%char in
  string_of_list_ascii
    (rev (drop 1 (dropWhileB (fun c => negb (isSep c))
                    (rev (list_ascii_of_string path))))).

(** The files of [exampleDisk] and one that is not on the disk, in another
    folder. *)
Definition exampleFolderFiles : list FileInfo :=
  [mkFileInfo "/p/big.go" 11 true false; mkFileInfo "/p/small.go" 2 true false;
   mkFileInfo "/q/gone.go" 0 false false].

(** The folder view of these files, with the second folder selected. *)
Definition exampleFolderView : FolderView :=
  mkFolderView
    (mkModel (mkContext "default" "/p" "" "task"
                ["/p/small.go"; "/q/gone.go"; "/p/big.go"])
       exampleFolderFiles)
    [Folder.mkFolderInfo "/p" 2 13 false; Folder.mkFolderInfo "/q" 1 0 true]
    0 0 modeFolderView.


(** * Properties *)

(** ** The context's file list *)

Lemma hasPath_elem_of (files : list string) (path : string) :
  hasPath files path = true <-> path ∈ files.
Proof.
  induction files as [|f rest IH]; simpl.
  - split; [discriminate | intros H; inversion H].
  - destruct (String.eqb_spec f path) as [->|Hne].
    + split; [intros _; left | reflexivity].
    + rewrite IH. split; [intros H; by right |].
      intros H. apply elem_of_cons in H as [H|H]; [congruence | done].
Qed.

Lemma AddFile_fresh (ctx : Context) (path : string) :
  path ∉ Files ctx ->
  AddFile ctx path = (withFiles ctx (Files ctx ++ [path]), true).
Proof.
  intros Hnot. unfold AddFile.
  destruct (hasPath (Files ctx) path) eqn:E; [|reflexivity].
  apply hasPath_elem_of in E. contradiction.
Qed.

Lemma AddFile_present (ctx : Context) (path : string) :
  path ∈ Files ctx -> AddFile ctx path = (ctx, false).
Proof.
  intros Hin. unfold AddFile.
  apply hasPath_elem_of in Hin. by rewrite Hin.
Qed.

Lemma AddFile_NoDup (ctx : Context) (path : string) :
  NoDup (Files ctx) -> NoDup (Files (fst (AddFile ctx path))).
Proof.
  intros Hnd. destruct (decide (path ∈ Files ctx)) as [Hin|Hnot].
  - by rewrite AddFile_present.
  - rewrite AddFile_fresh by done. simpl.
    apply NoDup_app. split_and!; [done | | apply NoDup_singleton].
    intros x Hx Hx'. apply list_elem_of_singleton in Hx'. by subst.
Qed.

Lemma AddFile_seq_NoDup (paths : list string) (ctx : Context) :
  NoDup (Files ctx) -> NoDup (Files (AddFile_seq ctx paths)).
Proof.
  revert ctx. induction paths as [|p paths IH]; intros ctx Hnd; simpl.
  - exact Hnd.
  - apply IH, AddFile_NoDup, Hnd.
Qed.

Lemma withFiles_same (ctx : Context) : withFiles ctx (Files ctx) = ctx.
Proof. by destruct ctx. Qed.

Lemma filter_keep_all {A : Type} (keep : A -> bool) (l : list A) :
  (forall x, x ∈ l -> keep x = true) -> List.filter keep l = l.
Proof.
  induction l as [|x l IH]; intros Hall; simpl; [reflexivity|].
  rewrite Hall by left. f_equal. apply IH. intros y Hy. apply Hall. by right.
Qed.

Lemma filter_agree {A : Type} (p q : A -> bool) (l : list A) :
  (forall x, x ∈ l -> p x = q x) -> List.filter p l = List.filter q l.
Proof.
  induction l as [|x l IH]; intros Hall; simpl; [reflexivity|].
  rewrite Hall by left. rewrite IH; [reflexivity|].
  intros y Hy. apply Hall. by right.
Qed.

Lemma filter_twice {A : Type} (p q : A -> bool) (l : list A) :
  List.filter p (List.filter q l) = List.filter (fun x => q x && p x) l.
Proof.
  induction l as [|x l IH]; simpl; [reflexivity|].
  destruct (q x); simpl; [destruct (p x)|]; by rewrite IH.
Qed.

Lemma elem_of_List_filter {A : Type} (p : A -> bool) (l : list A) (x : A) :
  x ∈ List.filter p l <-> x ∈ l /\ p x = true.
Proof. rewrite !list_elem_of_In. apply filter_In. Qed.

Lemma List_filter_sublist {A : Type} (p : A -> bool) (l : list A) :
  sublist (List.filter p l) l.
Proof.
  induction l as [|x l IH]; simpl; [constructor|].
  destruct (p x); by constructor.
Qed.

(** The entries of [pathSet] are the paths given, all mapped to [true]. *)
Lemma mkPathSet_from (paths : list string) (m : gmap string bool) (f : string) :
  mapIndex (foldl (fun (m : gmap string bool) p => <[p := true]> m) m paths) f
  = bool_decide (f ∈ paths) || mapIndex m f.
Proof.
  revert m. induction paths as [|p paths IH]; intros m; simpl.
  - reflexivity.
  - rewrite IH. unfold mapIndex.
    destruct (decide (p = f)) as [->|Hne].
    + rewrite lookup_insert_eq. simpl.
      rewrite (bool_decide_eq_true_2 (f ∈ f :: paths)) by left.
      by rewrite orb_true_r.
    + rewrite lookup_insert_ne by done.
      f_equal. apply bool_decide_ext. rewrite elem_of_cons.
      split; [by right | intros [Heq|Hin]; [congruence | done]].
Qed.

Lemma mapIndex_mkPathSet (paths : list string) (f : string) :
  mapIndex (mkPathSet paths) f = bool_decide (f ∈ paths).
Proof.
  unfold mkPathSet. rewrite mkPathSet_from.
  unfold mapIndex. rewrite lookup_empty. simpl. apply orb_false_r.
Qed.

Lemma RemoveFiles_Files (ctx : Context) (paths : list string) :
  Files (RemoveFiles ctx paths)
  = List.filter (fun f => bool_decide (f ∉ paths)) (Files ctx).
Proof.
  unfold RemoveFiles. simpl. apply filter_agree. intros f _.
  rewrite mapIndex_mkPathSet. by rewrite bool_decide_not.
Qed.

Lemma RemoveFile_seq_Files (paths : list string) (ctx : Context) :
  Files (RemoveFile_seq ctx paths)
  = List.filter (fun f => bool_decide (f ∉ paths)) (Files ctx).
Proof.
  revert ctx. induction paths as [|p paths IH]; intros ctx; simpl.
  - symmetry. apply filter_keep_all. intros f _. reflexivity.
  - rewrite IH. simpl. rewrite filter_twice. apply filter_agree. intros f _.
    destruct (String.eqb_spec f p) as [->|Hne]; simpl.
    + symmetry. apply bool_decide_eq_false_2. intros H. apply H. left.
    + apply bool_decide_ext. rewrite not_elem_of_cons.
      split; [by intros H | by intros [_ H]].
Qed.

Lemma RemoveFile_seq_fields (paths : list string) (ctx : Context) :
  RemoveFile_seq ctx paths = withFiles ctx (Files (RemoveFile_seq ctx paths)).
Proof.
  revert ctx. induction paths as [|p paths IH]; intros ctx; simpl.
  - by rewrite withFiles_same.
  - rewrite IH at 1. reflexivity.
Qed.

(** C4: a sequence of [AddFile] calls on a duplicate-free file list leaves it
    duplicate-free; [AddFile path] appends [path] and returns [true] when no
    entry is equal to [path] as a string, and otherwise returns [false] and
    leaves the context as it was. *)
Theorem AddFile_dedup (ctx : Context) (paths : list string) (path : string) :
  NoDup (Files ctx) ->
  NoDup (Files (AddFile_seq ctx paths))
  /\ (path ∉ Files ctx ->
      AddFile ctx path = (withFiles ctx (Files ctx ++ [path]), true))
  /\ (path ∈ Files ctx -> AddFile ctx path = (ctx, false))
  /\ (snd (AddFile ctx path) = true <-> path ∉ Files ctx)
  /\ (snd (AddFile ctx path) = false -> fst (AddFile ctx path) = ctx).
Proof.
  intros Hnd. split_and!.
  - by apply AddFile_seq_NoDup.
  - apply AddFile_fresh.
  - apply AddFile_present.
  - destruct (decide (path ∈ Files ctx)) as [Hin|Hnot].
    + rewrite AddFile_present by done. simpl. split; [discriminate | done].
    + rewrite AddFile_fresh by done. simpl. split; done.
  - destruct (decide (path ∈ Files ctx)) as [Hin|Hnot].
    + by rewrite AddFile_present.
    + rewrite AddFile_fresh by done. discriminate.
Qed.

Lemma AddFile_dedup_witness :
  let ctx := mkContext "default" "" "" "" ["/a/b"; "/c"] in
  NoDup (Files (AddFile_seq ctx ["/a/./b"; "/c"; "/a/./b"; "/d"]))
  /\ Files (AddFile_seq ctx ["/a/./b"; "/c"; "/a/./b"; "/d"])
     = ["/a/b"; "/c"; "/a/./b"; "/d"]
  /\ AddFile ctx "/c" = (ctx, false).
Proof.
  intros ctx.
  assert (Hnd : NoDup (Files ctx)) by compute_done.
  destruct (AddFile_dedup ctx ["/a/./b"; "/c"; "/a/./b"; "/d"] "/c" Hnd)
    as (H1 & _ & H3 & _).
  split; [exact H1|]. split; [reflexivity|].
  apply H3. compute_done.
Defined.

(** C9: [RemoveFile p] twice is [RemoveFile p] once, and on a list that does
    not hold [p] it changes nothing; [RemoveFiles paths] keeps, in their
    original order, exactly the entries that are not among [paths]. *)
Theorem RemoveFile_idempotent (ctx : Context) (p : string) (paths : list string) :
  RemoveFile (RemoveFile ctx p) p = RemoveFile ctx p
  /\ (p ∉ Files ctx -> RemoveFile ctx p = ctx)
  /\ Files (RemoveFiles ctx paths)
     = List.filter (fun f => bool_decide (f ∉ paths)) (Files ctx)
  /\ (forall f, f ∈ Files (RemoveFiles ctx paths) <-> f ∈ Files ctx /\ f ∉ paths)
  /\ sublist (Files (RemoveFiles ctx paths)) (Files ctx).
Proof.
  split_and!.
  - unfold RemoveFile. simpl. f_equal. rewrite filter_twice.
    apply filter_agree. intros f _. apply andb_diag.
  - intros Hnot. unfold RemoveFile.
    rewrite filter_keep_all; [apply withFiles_same|].
    intros f Hf. destruct (String.eqb_spec f p) as [->|Hne]; [contradiction | done].
  - apply RemoveFiles_Files.
  - intros f. rewrite RemoveFiles_Files, elem_of_List_filter.
    by rewrite bool_decide_eq_true.
  - rewrite RemoveFiles_Files. apply List_filter_sublist.
Qed.

Lemma RemoveFile_idempotent_witness :
  let ctx := mkContext "default" "" "" "" ["/a"; "/b"; "/c"; "/d"] in
  ("/x" ∉ Files ctx)
  /\ RemoveFile ctx "/x" = ctx
  /\ Files (RemoveFile (RemoveFile ctx "/b") "/b") = ["/a"; "/c"; "/d"]
  /\ Files (RemoveFiles ctx ["/c"; "/x"; "/a"]) = ["/b"; "/d"].
Proof.
  intros ctx.
  assert (Hnot : "/x" ∉ Files ctx) by compute_done.
  destruct (RemoveFile_idempotent ctx "/x" []) as (_ & H2 & _).
  split; [exact Hnot|]. split; [exact (H2 Hnot)|]. split; reflexivity.
Defined.

(** C10: [RemoveFiles paths] leaves the same context as calling [RemoveFile]
    once per path, whatever the order in which the paths are taken. *)
Theorem RemoveFiles_as_RemoveFile_seq (ctx : Context) (paths paths' : list string) :
  paths ≡ₚ paths' ->
  RemoveFiles ctx paths = RemoveFile_seq ctx paths'.
Proof.
  intros Hperm. rewrite (RemoveFile_seq_fields paths' ctx).
  rewrite RemoveFile_seq_Files. unfold RemoveFiles. f_equal.
  apply filter_agree. intros f _. rewrite mapIndex_mkPathSet.
  rewrite <- bool_decide_not. apply bool_decide_ext. by rewrite Hperm.
Qed.

Lemma RemoveFiles_as_RemoveFile_seq_witness :
  let ctx := mkContext "default" "/r" "pc" "rq" ["/a"; "/b"; "/c"; "/b"; "/d"] in
  ["/b"; "/d"; "/zz"] ≡ₚ ["/zz"; "/b"; "/d"]
  /\ RemoveFiles ctx ["/b"; "/d"; "/zz"] = RemoveFile_seq ctx ["/zz"; "/b"; "/d"]
  /\ Files (RemoveFile_seq ctx ["/zz"; "/b"; "/d"]) = ["/a"; "/c"].
Proof.
  intros ctx.
  assert (Hperm : ["/b"; "/d"; "/zz"] ≡ₚ ["/zz"; "/b"; "/d"]).
  { change ["/zz"; "/b"; "/d"] with (["/zz"] ++ ["/b"; "/d"]).
    apply (Permutation_app_comm ["/b"; "/d"] ["/zz"]). }
  split; [exact Hperm|].
  split; [exact (RemoveFiles_as_RemoveFile_seq ctx _ _ Hperm) | reflexivity].
Defined.

(** ** Sorting *)

Section SortSlice.

Context {A : Type} (less : A -> A -> bool).

#[local] Abbreviation notLess := (notLess less).

Lemma insertBack_Permutation (x : A) (rp : list A) :
  insertBack less x rp ≡ₚ x :: rp.
Proof.
  induction rp as [|y rp IH]; simpl; [reflexivity|].
  destruct (less x y); [|reflexivity].
  rewrite IH. apply Permutation_swap.
Qed.

Lemma foldl_insertBack_Permutation (l rp : list A) :
  foldl (fun rp x => insertBack less x rp) rp l ≡ₚ l ++ rp.
Proof.
  revert rp. induction l as [|x l IH]; intros rp; simpl; [reflexivity|].
  rewrite IH, insertBack_Permutation. by rewrite Permutation_middle.
Qed.

Lemma sortSlice_Permutation (l : list A) : sortSlice less l ≡ₚ l.
Proof.
  unfold sortSlice. rewrite reverse_Permutation, foldl_insertBack_Permutation.
  by rewrite app_nil_r.
Qed.

Hypothesis less_asym : forall x y, less x y = true -> less y x = false.

Lemma insertBack_HdRel (x y : A) (rp : list A) :
  notLess y x -> HdRel notLess y rp -> HdRel notLess y (insertBack less x rp).
Proof.
  intros Hyx Hhd. destruct rp as [|z rp]; simpl; [by constructor|].
  destruct (less x z); constructor; [by inversion Hhd | done].
Qed.

Lemma insertBack_Sorted (x : A) (rp : list A) :
  Sorted notLess rp -> Sorted notLess (insertBack less x rp).
Proof.
  induction 1 as [|y rp Hs IH Hhd]; simpl; [by repeat constructor|].
  destruct (less x y) eqn:E.
  - constructor; [exact IH|]. apply insertBack_HdRel; [|exact Hhd].
    by apply less_asym.
  - constructor; [by constructor | by constructor].
Qed.

Lemma foldl_insertBack_Sorted (l rp : list A) :
  Sorted notLess rp ->
  Sorted notLess (foldl (fun rp x => insertBack less x rp) rp l).
Proof.
  revert rp. induction l as [|x l IH]; intros rp Hs; simpl; [exact Hs|].
  apply IH, insertBack_Sorted, Hs.
Qed.

(** The result is sorted by [less]: no element is [less] than the one before it. *)
Lemma sortSlice_Sorted (l : list A) :
  Sorted (fun a b => less b a = false) (sortSlice less l).
Proof.
  unfold sortSlice.
  apply (Sorted_reverse notLess), foldl_insertBack_Sorted. constructor.
Qed.

End SortSlice.

Lemma Sorted_weaken {A : Type} (R R' : A -> A -> Prop) (l : list A) :
  (forall a b, R a b -> R' a b) -> Sorted R l -> Sorted R' l.
Proof.
  intros Himp. induction 1 as [|x l Hs IH Hhd]; constructor; [exact IH|].
  destruct Hhd; constructor. by apply Himp.
Qed.

(** ** Strings *)

#[local] Arguments String.append !_ _ : simpl nomatch.

Lemma string_app_assoc (a b c : string) : (a +:+ b) +:+ c = a +:+ b +:+ c.
Proof. induction a as [|x a IH]; simpl; congruence. Qed.

Lemma string_app_nil_r (a : string) : a +:+ "" = a.
Proof. induction a as [|x a IH]; simpl; congruence. Qed.

Lemma string_app_length (a b : string) :
  String.length (a +:+ b) = (String.length a + String.length b)%nat.
Proof. induction a as [|x a IH]; simpl; congruence. Qed.

Lemma string_app_inv_head (a b c : string) : a +:+ b = a +:+ c -> b = c.
Proof. induction a as [|x a IH]; simpl; [done | intros [= H]; auto]. Qed.

Lemma HasPrefix_app (p rest : string) : GoStrings.HasPrefix (p +:+ rest) p = true.
Proof.
  induction p as [|x p IH]; simpl; [reflexivity|].
  by rewrite Ascii.eqb_refl, IH.
Qed.

Lemma HasPrefix_inv (p s : string) :
  GoStrings.HasPrefix s p = true -> exists rest, s = p +:+ rest.
Proof.
  revert s. induction p as [|x p IH]; intros s H.
  - by exists s.
  - destruct s as [|c s]; simpl in H; [discriminate|].
    apply andb_true_iff in H as [Hc Hs]. apply Ascii.eqb_eq in Hc as ->.
    destruct (IH _ Hs) as [rest ->]. by exists rest.
Qed.

Lemma sliceFrom_app (p rest : string) :
  GoStrings.sliceFrom (String.length p) (p +:+ rest) = rest.
Proof. induction p as [|x p IH]; simpl; [by destruct rest | exact IH]. Qed.

Lemma sliceFrom_split (n : nat) (s : string) :
  exists pre, s = pre +:+ GoStrings.sliceFrom n s.
Proof.
  revert s. induction n as [|n IH]; intros s.
  - by exists "".
  - destruct s as [|c s]; simpl; [by exists ""|].
    destruct (IH s) as [pre Hpre]. exists (String c pre). simpl. by rewrite <- Hpre.
Qed.

Lemma TrimPrefix_app (p rest : string) : GoStrings.TrimPrefix (p +:+ rest) p = rest.
Proof.
  unfold GoStrings.TrimPrefix. rewrite HasPrefix_app. apply sliceFrom_app.
Qed.

Lemma HasSuffix_app (pre suf : string) : GoStrings.HasSuffix (pre +:+ suf) suf = true.
Proof.
  unfold GoStrings.HasSuffix. rewrite string_app_length.
  apply andb_true_iff. split; [apply Nat.leb_le; lia|].
  replace (String.length pre + String.length suf - String.length suf)%nat
    with (String.length pre) by lia.
  rewrite sliceFrom_app. apply String.eqb_refl.
Qed.

Lemma HasSuffix_inv (s suf : string) :
  GoStrings.HasSuffix s suf = true -> exists pre, s = pre +:+ suf.
Proof.
  unfold GoStrings.HasSuffix. intros H.
  apply andb_true_iff in H as [_ H]. apply String.eqb_eq in H.
  destruct (sliceFrom_split (String.length s - String.length suf) s) as [pre Hpre].
  exists pre. by rewrite H in Hpre.
Qed.

Lemma HasSuffix_false (s suf : string) :
  (forall pre, s <> pre +:+ suf) -> GoStrings.HasSuffix s suf = false.
Proof.
  intros Hno. destruct (GoStrings.HasSuffix s suf) eqn:E; [|reflexivity].
  destruct (HasSuffix_inv _ _ E) as [pre ->]. by destruct (Hno pre).
Qed.

Lemma HasPrefix_false (s p : string) :
  (forall rest, s <> p +:+ rest) -> GoStrings.HasPrefix s p = false.
Proof.
  intros Hno. destruct (GoStrings.HasPrefix s p) eqn:E; [|reflexivity].
  destruct (HasPrefix_inv _ _ E) as [rest ->]. by destruct (Hno rest).
Qed.

Lemma HasSuffix_false_inv (s suf : string) :
  GoStrings.HasSuffix s suf = false -> forall pre, s <> pre +:+ suf.
Proof. intros H pre ->. by rewrite HasSuffix_app in H. Qed.

Lemma HasPrefix_false_inv (s p : string) :
  GoStrings.HasPrefix s p = false -> forall rest, s <> p +:+ rest.
Proof. intros H rest ->. by rewrite HasPrefix_app in H. Qed.

(** A non-empty string is a string followed by its last byte. *)
Lemma string_snoc (s : string) :
  s <> "" -> exists front c, s = front +:+ String c "".
Proof.
  induction s as [|x s IH]; intros Hne; [done|].
  destruct s as [|y s].
  - by exists "", x.
  - destruct IH as (front & c & Hs); [done|].
    exists (String x front), c. simpl. by rewrite <- Hs.
Qed.

Lemma get_last (front : string) (c : ascii) :
  String.get (String.length (front +:+ String c "") - 1) (front +:+ String c "")
  = Some c.
Proof.
  induction front as [|x front IH]; simpl; [reflexivity|].
  rewrite Nat.sub_0_r.
  rewrite string_app_length in *. simpl in *.
  replace (String.length front + 1)%nat with (S (String.length front)) in * by lia.
  simpl in IH. by rewrite Nat.sub_0_r in IH.
Qed.

Lemma lacksFinalNewline_snoc (front : string) (c : ascii) :
  lacksFinalNewline (front +:+ String c "") = negb (Ascii.eqb c GoStrings.LF).
Proof.
  unfold lacksFinalNewline. rewrite get_last.
  rewrite string_app_length. simpl.
  replace (0 <? String.length front + 1)%nat with true; [reflexivity|].
  symmetry. apply Nat.ltb_lt. lia.
Qed.

Lemma lacksFinalNewline_true (content : string) :
  content <> "" -> (forall pre, content <> pre +:+ GoStrings.nl) ->
  lacksFinalNewline content = true.
Proof.
  intros Hne Hno. destruct (string_snoc content Hne) as (front & c & ->).
  rewrite lacksFinalNewline_snoc.
  destruct (Ascii.eqb_spec c GoStrings.LF) as [->|Hc]; [|reflexivity].
  by destruct (Hno front).
Qed.

(** ** The assembled document: text blocks and display paths *)

Lemma app_nl_not_empty (body : string) : String.eqb (body +:+ GoStrings.nl) "" = false.
Proof. by destruct body. Qed.

Lemma app_slash_not_empty (pre : string) : String.eqb (pre +:+ "/") "" = false.
Proof. by destruct pre. Qed.

Lemma not_empty_eqb (text : string) : text <> "" -> String.eqb text "" = false.
Proof. intros H. by apply String.eqb_neq. Qed.

Lemma writeRequest_newline (body : string) :
  writeRequest (body +:+ GoStrings.nl)
  = "<request>" +:+ GoStrings.nl +:+ body +:+ GoStrings.nl
    +:+ "</request>" +:+ GoStrings.nl +:+ GoStrings.nl.
Proof.
  unfold writeRequest. rewrite app_nl_not_empty, HasSuffix_app. simpl.
  by rewrite string_app_assoc.
Qed.

Lemma writeRequest_bare (body : string) :
  body <> "" -> (forall pre, body <> pre +:+ GoStrings.nl) ->
  writeRequest body = writeRequest (body +:+ GoStrings.nl).
Proof.
  intros Hne Hno. rewrite writeRequest_newline. unfold writeRequest.
  by rewrite not_empty_eqb, HasSuffix_false.
Qed.

Lemma writeProjectContext_newline (body : string) :
  writeProjectContext (body +:+ GoStrings.nl)
  = "<project_context>" +:+ GoStrings.nl +:+ body +:+ GoStrings.nl
    +:+ "</project_context>" +:+ GoStrings.nl +:+ GoStrings.nl.
Proof.
  unfold writeProjectContext. rewrite app_nl_not_empty, HasSuffix_app. simpl.
  by rewrite string_app_assoc.
Qed.

Lemma writeProjectContext_bare (body : string) :
  body <> "" -> (forall pre, body <> pre +:+ GoStrings.nl) ->
  writeProjectContext body = writeProjectContext (body +:+ GoStrings.nl).
Proof.
  intros Hne Hno. rewrite writeProjectContext_newline. unfold writeProjectContext.
  by rewrite not_empty_eqb, HasSuffix_false.
Qed.

Lemma writeFileBlock_newline (shown body : string) :
  writeFileBlock shown (body +:+ GoStrings.nl)
  = "<file path=" +:+ dquote +:+ shown +:+ dquote +:+ ">" +:+ GoStrings.nl
    +:+ body +:+ GoStrings.nl +:+ "</file>" +:+ GoStrings.nl +:+ GoStrings.nl.
Proof.
  unfold writeFileBlock.
  rewrite (lacksFinalNewline_snoc body GoStrings.LF
           : lacksFinalNewline (body +:+ GoStrings.nl) = _).
  rewrite Ascii.eqb_refl. simpl.
  by rewrite string_app_assoc.
Qed.

Lemma writeFileBlock_bare (shown body : string) :
  body <> "" -> (forall pre, body <> pre +:+ GoStrings.nl) ->
  writeFileBlock shown body = writeFileBlock shown (body +:+ GoStrings.nl).
Proof.
  intros Hne Hno. rewrite writeFileBlock_newline. unfold writeFileBlock.
  by rewrite lacksFinalNewline_true.
Qed.

(** C6, as the code has it: a text that ends in a newline is written between
    its tags as it is, a non-empty text that does not is written as if the
    newline were there, for [<request>], [<project_context>] and [<file>]
    alike; file content of length zero gets no newline, so the closing tag
    follows the opening line directly. *)
Theorem trailing_newline_normalized (body shown : string) :
  writeRequest (body +:+ GoStrings.nl)
  = "<request>" +:+ GoStrings.nl +:+ body +:+ GoStrings.nl
    +:+ "</request>" +:+ GoStrings.nl +:+ GoStrings.nl
  /\ writeProjectContext (body +:+ GoStrings.nl)
     = "<project_context>" +:+ GoStrings.nl +:+ body +:+ GoStrings.nl
       +:+ "</project_context>" +:+ GoStrings.nl +:+ GoStrings.nl
  /\ writeFileBlock shown (body +:+ GoStrings.nl)
     = "<file path=" +:+ dquote +:+ shown +:+ dquote +:+ ">" +:+ GoStrings.nl
       +:+ body +:+ GoStrings.nl +:+ "</file>" +:+ GoStrings.nl +:+ GoStrings.nl
  /\ (body <> "" -> (forall pre, body <> pre +:+ GoStrings.nl) ->
      writeRequest body = writeRequest (body +:+ GoStrings.nl)
      /\ writeProjectContext body = writeProjectContext (body +:+ GoStrings.nl)
      /\ writeFileBlock shown body = writeFileBlock shown (body +:+ GoStrings.nl))
  /\ writeFileBlock shown ""
     = "<file path=" +:+ dquote +:+ shown +:+ dquote +:+ ">" +:+ GoStrings.nl
       +:+ "</file>" +:+ GoStrings.nl +:+ GoStrings.nl.
Proof.
  split_and!.
  - apply writeRequest_newline.
  - apply writeProjectContext_newline.
  - apply writeFileBlock_newline.
  - intros Hne Hno. split_and!.
    + by apply writeRequest_bare.
    + by apply writeProjectContext_bare.
    + by apply writeFileBlock_bare.
  - reflexivity.
Qed.

Lemma trailing_newline_normalized_witness :
  writeRequest "task" = writeRequest ("task" +:+ GoStrings.nl)
  /\ writeRequest "task"
     = "<request>" +:+ GoStrings.nl +:+ "task" +:+ GoStrings.nl
       +:+ "</request>" +:+ GoStrings.nl +:+ GoStrings.nl
  /\ writeFileBlock "src/x.go" "package main"
     = writeFileBlock "src/x.go" ("package main" +:+ GoStrings.nl).
Proof.
  destruct (trailing_newline_normalized "task" "src/x.go") as (_ & _ & _ & H & _).
  destruct H as (Hr & _ & _).
  { discriminate. }
  { by apply HasSuffix_false_inv. }
  destruct (trailing_newline_normalized "package main" "src/x.go")
    as (_ & _ & _ & H & _).
  destruct H as (_ & _ & Hf).
  { discriminate. }
  { by apply HasSuffix_false_inv. }
  split; [exact Hr|]. split; [reflexivity | exact Hf].
Defined.

(** C6, the counterexample: a file of length zero does not end in a newline,
    and no newline is written after it. *)
Lemma empty_file_gets_no_newline :
  ~ (forall shown content : string,
       writeFileBlock shown content
       = "<file path=" +:+ dquote +:+ shown +:+ dquote +:+ ">" +:+ GoStrings.nl
         +:+ content
         +:+ (if GoStrings.HasSuffix content GoStrings.nl then "" else GoStrings.nl)
         +:+ "</file>" +:+ GoStrings.nl +:+ GoStrings.nl).
Proof.
  intros H. specialize (H "empty.txt" ""). vm_compute in H. discriminate.
Qed.

(** C7, as the code has it: with no project root the path is shown as it is;
    a root that does not end in a slash is extended by one, a root that does
    is taken as it is, and that prefix is cut off the paths that start with
    it, all other paths being shown unchanged. *)
Theorem displayPath_strips_root (projectRoot path rest : string) :
  displayPath "" path = path
  /\ (projectRoot <> "" -> (forall pre, projectRoot <> pre +:+ "/") ->
      displayPath projectRoot (projectRoot +:+ "/" +:+ rest) = rest
      /\ ((forall tail, path <> projectRoot +:+ "/" +:+ tail) ->
          displayPath projectRoot path = path))
  /\ ((exists pre, projectRoot = pre +:+ "/") ->
      displayPath projectRoot (projectRoot +:+ rest) = rest
      /\ ((forall tail, path <> projectRoot +:+ tail) ->
          displayPath projectRoot path = path)).
Proof.
  split_and!.
  - reflexivity.
  - intros Hne Hno. rewrite <- (string_app_assoc projectRoot "/" rest).
    unfold displayPath.
    rewrite (not_empty_eqb _ Hne), (HasSuffix_false _ _ Hno). cbn [negb]. split.
    + by rewrite HasPrefix_app, TrimPrefix_app.
    + intros Hpath. rewrite HasPrefix_false; [reflexivity|].
      intros tail. rewrite string_app_assoc. apply Hpath.
  - intros [pre ->]. unfold displayPath.
    rewrite app_slash_not_empty, HasSuffix_app. cbn [negb]. split.
    + by rewrite HasPrefix_app, TrimPrefix_app.
    + intros Hpath. by rewrite HasPrefix_false.
Qed.

Lemma displayPath_strips_root_witness :
  displayPath "/home/u/proj" "/home/u/proj/src/x.go" = "src/x.go"
  /\ displayPath "/home/u/proj" "/home/u/other/y.go" = "/home/u/other/y.go"
  /\ displayPath "/a/b" "/a/b/c" = "c"
  /\ displayPath "/a/b" "/a/bc" = "/a/bc"
  /\ displayPath "/a/b/" "/a/b/c" = "c".
Proof.
  destruct (displayPath_strips_root "/home/u/proj" "/home/u/other/y.go" "src/x.go")
    as (_ & H & _).
  destruct H as [H1 H2]; [discriminate | by apply HasSuffix_false_inv |].
  split; [exact H1|]. split.
  { apply H2. by apply (HasPrefix_false_inv _ "/home/u/proj/"). }
  destruct (displayPath_strips_root "/a/b" "/a/bc" "c") as (_ & H & _).
  destruct H as [H3 H4]; [discriminate | by apply HasSuffix_false_inv |].
  split; [exact H3|]. split.
  { apply H4. by apply (HasPrefix_false_inv _ "/a/b/"). }
  destruct (displayPath_strips_root "/a/b/" "" "c") as (_ & _ & H).
  destruct H as [H5 _]; [by exists "/a/b" | exact H5].
Defined.

(** C7, the counterexample: the root [/a/b/] already ends in a slash; the
    path [/a/b/c] does not start with [/a/b//], and is shown as [c]. *)
Lemma displayPath_root_ending_in_slash :
  ~ (forall projectRoot path : string,
       ~ (projectRoot <> "" /\ exists rest, path = projectRoot +:+ "/" +:+ rest) ->
       displayPath projectRoot path = path).
Proof.
  intros H. specialize (H "/a/b/" "/a/b/c").
  assert (Hd : displayPath "/a/b/" "/a/b/c" = "c") by reflexivity.
  rewrite H in Hd; [discriminate|].
  intros [_ [rest Hrest]].
  by apply (HasPrefix_false_inv "/a/b/c" "/a/b//") in Hrest.
Qed.

(** ** [yank] *)

Lemma filter_length_Permutation {A : Type} (p : A -> bool) (l l' : list A) :
  l ≡ₚ l' -> length (List.filter p l) = length (List.filter p l').
Proof.
  induction 1 as [|x l l' _ IH|x y l|l l' l'' _ IH1 _ IH2]; simpl.
  - reflexivity.
  - destruct (p x); simpl; by rewrite IH.
  - by destruct (p x), (p y).
  - by rewrite IH1.
Qed.

Lemma filter_nil_forall {A : Type} (p : A -> bool) (l : list A) :
  List.filter p l = [] <-> forall x, x ∈ l -> p x = false.
Proof.
  induction l as [|x l IH]; simpl.
  - split; [intros _ y Hy; inversion Hy | done].
  - destruct (p x) eqn:E.
    + split; [discriminate|]. intros H. specialize (H x). rewrite E in H.
      discriminate H. left.
    + rewrite IH. split.
      * intros H y Hy. apply elem_of_cons in Hy as [->|Hy]; auto.
      * intros H y Hy. apply H. by right.
Qed.

Section YankFacts.

Variable os_Stat : string -> option Z.
Variable os_ReadFile : string -> option string.
Variable CopyToClipboard : string -> bool.
Variable now : Time.

#[local] Abbreviation yankNow := (yank os_ReadFile CopyToClipboard now).
#[local] Abbreviation refresh := (refreshFiles os_Stat).
#[local] Abbreviation fileInfo := (buildFileInfo os_Stat).

(** The text [yank] has assembled when it reaches the clipboard call. *)
Lemma writeFiles_concat (projectRoot : string) (fs : list FileInfo) (sb : string) :
  writeFiles os_ReadFile projectRoot fs sb
  = sb +:+ concatBlocks os_ReadFile projectRoot fs.
Proof.
  revert sb. induction fs as [|f fs IH]; intros sb; simpl.
  - by rewrite string_app_nil_r.
  - unfold writeFiles in *. simpl. rewrite IH. apply string_app_assoc.
Qed.

Lemma missingPaths_length (fs : list FileInfo) :
  length (missingPaths fs) = length (List.filter (fun f => negb (Exists f)) fs).
Proof. unfold missingPaths. apply length_map. Qed.

Lemma buildFileInfo_Path (path : string) : Path (fileInfo path) = path.
Proof. unfold buildFileInfo. by destruct (os_Stat path). Qed.

Lemma buildFileInfo_Exists (path : string) :
  negb (Exists (fileInfo path)) = bool_decide (os_Stat path = None).
Proof. unfold buildFileInfo. by destruct (os_Stat path). Qed.

Lemma refreshFiles_Permutation (m : Model) :
  files (refresh m) ≡ₚ map fileInfo (Files (context m)).
Proof. apply sortSlice_Permutation. Qed.

Lemma refreshFiles_missing (m : Model) :
  length (missingPaths (files (refresh m)))
  = length (List.filter (fun p => bool_decide (os_Stat p = None))
              (Files (context m))).
Proof.
  rewrite missingPaths_length.
  rewrite (filter_length_Permutation _ _ _ (refreshFiles_Permutation m)).
  generalize (Files (context m)). intros ps.
  induction ps as [|p ps IH]; simpl; [reflexivity|].
  rewrite buildFileInfo_Exists. destruct (bool_decide _); simpl; by rewrite IH.
Qed.

(** With a file flagged missing, [yank] stops at the warning. *)
Lemma yank_stops_when_missing (m : Model) :
  missingPaths (files m) <> [] ->
  yankNow m = mkYankResult (StatusMissing (length (missingPaths (files m)))) None [].
Proof.
  intros Hmiss. unfold yank.
  destruct (missingPaths (files m)) eqn:E; [done | reflexivity].
Qed.

(** With no file flagged missing, [yank] reaches the clipboard call. *)
Lemma yank_proceeds_when_present (m : Model) :
  missingPaths (files m) = [] ->
  let ctx := context m in
  let doc := preamble +:+ writeProjectContext (ProjectContext ctx)
             +:+ writeRequest (Request ctx)
             +:+ concatBlocks os_ReadFile (ProjectRoot ctx) (files m) in
  yankNow m
  = if CopyToClipboard doc
    then mkYankResult (StatusYanked (length (files m))) (Some doc)
           [History.mkHistoryEntry now (Name ctx) (ProjectContext ctx)
              (Request ctx) (map Path (files m))]
    else mkYankResult StatusClipboardError (Some doc) [].
Proof.
  intros Hnone ctx doc. unfold yank. rewrite Hnone.
  change (0 <? length (@nil string))%nat with false. cbv iota.
  rewrite writeFiles_concat. fold ctx.
  rewrite !string_app_assoc. fold doc.
  by destruct (CopyToClipboard doc).
Qed.

Lemma missingPaths_nil (fs : list FileInfo) :
  missingPaths fs = [] <-> forall f, f ∈ fs -> Exists f = true.
Proof.
  unfold missingPaths. split.
  - intros H f Hf. apply map_eq_nil in H.
    pose proof (proj1 (filter_nil_forall _ _) H f Hf) as Hx. simpl in Hx.
    by destruct (Exists f).
  - intros H.
    rewrite (proj2 (filter_nil_forall (fun f => negb (Exists f)) fs));
      [reflexivity|].
    intros f Hf. by rewrite (H f Hf).
Qed.

(** C1, as the code has it: when the file list holds paths that [os.Stat]
    did not find, [yank] reports the warning with their number and stops
    there: nothing is handed to the clipboard and no history entry is saved. *)
Theorem yank_warns_and_stops (m : Model) :
  let missing :=
    List.filter (fun p => bool_decide (os_Stat p = None)) (Files (context m)) in
  missing <> [] ->
  let r := yank os_ReadFile CopyToClipboard now (refreshFiles os_Stat m) in
  status r = StatusMissing (length missing)
  /\ clipboard r = None
  /\ saved r = [].
Proof.
  intros missing Hmiss r.
  assert (Hlen : length (missingPaths (files (refresh m))) = length missing)
    by apply refreshFiles_missing.
  assert (Hne : missingPaths (files (refresh m)) <> []).
  { intros E. rewrite E in Hlen. destruct missing; [done | discriminate]. }
  subst r. rewrite (yank_stops_when_missing _ Hne), Hlen. by split_and!.
Qed.

(** C2, as the code has it: [refreshFiles] turns the context's file list into
    the model's list sorted by size, largest first, and [yank] writes the
    blocks in the order of that list. *)
Theorem yank_blocks_by_size (m : Model) :
  let ctx := context m in
  let shown := files (refreshFiles os_Stat m) in
  shown ≡ₚ map (buildFileInfo os_Stat) (Files ctx)
  /\ Sorted (fun a b => (Size b <= Size a)%Z) shown
  /\ ((forall p, p ∈ Files ctx -> os_Stat p <> None) ->
      clipboard (yank os_ReadFile CopyToClipboard now (refreshFiles os_Stat m))
      = Some (preamble +:+ writeProjectContext (ProjectContext ctx)
              +:+ writeRequest (Request ctx)
              +:+ concatBlocks os_ReadFile (ProjectRoot ctx) shown)).
Proof.
  intros ctx shown. split_and!.
  - apply refreshFiles_Permutation.
  - eapply Sorted_weaken; [|apply sortSlice_Sorted].
    + intros a b H. simpl in H. lia.
    + intros a b H. lia.
  - intros Hall.
    assert (Hnone : missingPaths (files (refresh m)) = []).
    { apply length_zero_iff_nil. rewrite refreshFiles_missing.
      apply length_zero_iff_nil, filter_nil_forall. intros p Hp.
      apply bool_decide_eq_false_2, Hall, Hp. }
    rewrite (yank_proceeds_when_present _ Hnone).
    by destruct (CopyToClipboard _).
Qed.

(** C3, as the code has it: [yank] saves one history entry, holding the
    context's texts and every path of the file list, when no file is flagged
    missing and the clipboard copy succeeds, and saves none when the copy
    fails or a file is flagged missing. *)
Theorem yank_history_snapshot (m : Model) :
  let ctx := context m in
  let r := yank os_ReadFile CopyToClipboard now m in
  let entry :=
    History.mkHistoryEntry now (Name ctx) (ProjectContext ctx) (Request ctx)
      (map Path (files m)) in
  ((forall f, f ∈ files m -> Exists f = true) ->
   exists doc, clipboard r = Some doc
     /\ (CopyToClipboard doc = true -> saved r = [entry])
     /\ (CopyToClipboard doc = false ->
         saved r = [] /\ status r = StatusClipboardError))
  /\ ((exists f, f ∈ files m /\ Exists f = false) -> saved r = []).
Proof.
  intros ctx r entry. split.
  - intros Hall. apply missingPaths_nil in Hall.
    subst r. rewrite (yank_proceeds_when_present _ Hall).
    eexists. split_and!.
    + destruct (CopyToClipboard _); reflexivity.
    + intros ->. reflexivity.
    + intros ->. by split.
  - intros (f & Hf & Hex).
    assert (Hne : missingPaths (files m) <> []).
    { intros E. pose proof (proj1 (missingPaths_nil _) E f Hf) as Hx.
      congruence. }
    subst r. by rewrite (yank_stops_when_missing _ Hne).
Qed.

End YankFacts.

Lemma yank_warns_and_stops_witness :
  let r := yank (diskRead exampleDisk) clipboardWorks exampleNow
             (refreshFiles (diskStat exampleDisk) exampleModelGone) in
  status r = StatusMissing 1 /\ clipboard r = None /\ saved r = [].
Proof.
  apply (yank_warns_and_stops (diskStat exampleDisk) (diskRead exampleDisk)
           clipboardWorks exampleNow exampleModelGone).
  vm_compute. discriminate.
Defined.

(** C1, the counterexample: one of two paths is gone from the disk, and
    nothing at all is handed to the clipboard. *)
Lemma yank_with_missing_file_copies_nothing :
  ~ (forall (os_Stat : string -> option Z) (os_ReadFile : string -> option string)
            (CopyToClipboard : string -> bool) (now : Time) (m : Model),
       (exists p, p ∈ Files (context m) /\ os_Stat p = None) ->
       exists doc,
         clipboard (yank os_ReadFile CopyToClipboard now (refreshFiles os_Stat m))
         = Some doc).
Proof.
  intros H.
  destruct (H (diskStat exampleDisk) (diskRead exampleDisk) clipboardWorks
              exampleNow exampleModelGone) as [doc Hdoc].
  - exists "/p/gone.go". split; [|reflexivity]. right. left.
  - vm_compute in Hdoc. discriminate.
Qed.

Lemma exampleModel_all_found (p : string) :
  p ∈ Files (context exampleModel) -> diskStat exampleDisk p <> None.
Proof.
  intros Hp. simpl in Hp.
  apply elem_of_cons in Hp as [->|Hp]; [done|].
  apply elem_of_cons in Hp as [->|Hp]; [done|].
  inversion Hp.
Qed.

Lemma yank_blocks_by_size_witness :
  map Path (files (refreshFiles (diskStat exampleDisk) exampleModel))
  = ["/p/big.go"; "/p/small.go"]
  /\ clipboard (yank (diskRead exampleDisk) clipboardWorks exampleNow
                  (refreshFiles (diskStat exampleDisk) exampleModel))
     = Some (preamble +:+ writeRequest "task"
             +:+ writeFileBlock "big.go" "package big"
             +:+ writeFileBlock "small.go" ("a" +:+ GoStrings.nl)).
Proof.
  destruct (yank_blocks_by_size (diskStat exampleDisk) (diskRead exampleDisk)
              clipboardWorks exampleNow exampleModel) as (_ & _ & H).
  split; [reflexivity|].
  rewrite (H exampleModel_all_found). vm_compute. reflexivity.
Defined.

(** C2, the counterexample: the smaller file was added first, and its block
    comes second. *)
Lemma yank_blocks_not_in_insertion_order :
  ~ (forall (os_Stat : string -> option Z) (os_ReadFile : string -> option string)
            (CopyToClipboard : string -> bool) (now : Time) (m : Model),
       (forall p, p ∈ Files (context m) -> os_Stat p <> None) ->
       clipboard (yank os_ReadFile CopyToClipboard now (refreshFiles os_Stat m))
       = Some (preamble +:+ writeProjectContext (ProjectContext (context m))
               +:+ writeRequest (Request (context m))
               +:+ concatBlocks os_ReadFile (ProjectRoot (context m))
                     (map (buildFileInfo os_Stat) (Files (context m))))).
Proof.
  intros H.
  specialize (H (diskStat exampleDisk) (diskRead exampleDisk) clipboardWorks
                exampleNow exampleModel exampleModel_all_found).
  vm_compute in H. discriminate.
Qed.

Lemma yank_history_snapshot_witness :
  let m := refreshFiles (diskStat exampleDisk) exampleModel in
  saved (yank (diskRead exampleDisk) clipboardWorks exampleNow m)
  = [History.mkHistoryEntry exampleNow "default" "" "task"
       ["/p/big.go"; "/p/small.go"]]
  /\ saved (yank (diskRead exampleDisk) clipboardFails exampleNow m) = []
  /\ saved (yank (diskRead exampleDisk) clipboardWorks exampleNow
              (refreshFiles (diskStat exampleDisk) exampleModelGone)) = [].
Proof.
  intros m.
  assert (Hall : forall f, f ∈ files m -> Exists f = true).
  { intros f Hf. vm_compute in Hf.
    apply elem_of_cons in Hf as [->|Hf]; [done|].
    apply elem_of_cons in Hf as [->|Hf]; [done|].
    inversion Hf. }
  destruct (yank_history_snapshot (diskRead exampleDisk) clipboardWorks
              exampleNow m) as [H1 _].
  destruct (H1 Hall) as (doc & _ & Hsaved & _).
  destruct (yank_history_snapshot (diskRead exampleDisk) clipboardFails
              exampleNow m) as [H2 _].
  destruct (H2 Hall) as (doc' & _ & _ & Hfail).
  destruct (yank_history_snapshot (diskRead exampleDisk) clipboardWorks
              exampleNow (refreshFiles (diskStat exampleDisk) exampleModelGone))
    as [_ H3].
  split; [exact (Hsaved eq_refl)|]. split; [exact (proj1 (Hfail eq_refl))|].
  apply H3. exists (mkFileInfo "/p/gone.go" 0 false false).
  split; [|reflexivity]. vm_compute. right. left.
Defined.

(** C3, the counterexample: the clipboard copy fails and no entry is saved. *)
Lemma yank_clipboard_error_saves_nothing :
  ~ (forall (os_ReadFile : string -> option string)
            (CopyToClipboard : string -> bool) (now : Time) (m : Model),
       saved (yank os_ReadFile CopyToClipboard now m)
       = [History.mkHistoryEntry now (Name (context m))
            (ProjectContext (context m)) (Request (context m))
            (map Path (files m))]).
Proof.
  intros H.
  specialize (H (diskRead exampleDisk) clipboardFails exampleNow
                (refreshFiles (diskStat exampleDisk) exampleModel)).
  vm_compute in H. discriminate.
Qed.

(** ** The order on storage keys *)

(** Go compares strings byte by byte, as [String.compare] does. *)
Lemma ltb_lt (a b : string) :
  String.ltb a b = true <-> OrderedTypeEx.String_as_OT.lt a b.
Proof.
  unfold String.ltb. rewrite <- OrderedTypeEx.String_as_OT.cmp_lt.
  unfold OrderedTypeEx.String_as_OT.cmp.
  destruct (String.compare a b); split; congruence.
Qed.

Lemma ltb_trans (a b c : string) :
  String.ltb a b = true -> String.ltb b c = true -> String.ltb a c = true.
Proof.
  rewrite !ltb_lt. apply OrderedTypeEx.String_as_OT.lt_trans.
Qed.

Lemma ltb_irrefl (a : string) : String.ltb a a = false.
Proof.
  destruct (String.ltb a a) eqn:E; [|reflexivity].
  apply ltb_lt in E. by apply OrderedTypeEx.String_as_OT.lt_not_eq in E.
Qed.

Lemma ltb_asym (a b : string) : String.ltb a b = true -> String.ltb b a = false.
Proof.
  intros Hab. destruct (String.ltb b a) eqn:Hba; [|reflexivity].
  pose proof (ltb_trans _ _ _ Hab Hba) as H. by rewrite ltb_irrefl in H.
Qed.

Lemma ltb_total (a b : string) :
  String.ltb a b = true \/ a = b \/ String.ltb b a = true.
Proof.
  unfold String.ltb. rewrite (String.compare_antisym a b).
  destruct (String.compare b a) eqn:E; simpl; auto.
  apply String.compare_eq_iff in E. auto.
Qed.

(** "Not after": [a] is not greater than [b]. *)
Lemma not_after_trans (a b c : string) :
  String.ltb b a = false -> String.ltb c b = false -> String.ltb c a = false.
Proof.
  intros Hab Hbc. destruct (String.ltb c a) eqn:Hca; [|reflexivity].
  destruct (ltb_total a b) as [H|[->|H]]; [|congruence|congruence].
  pose proof (ltb_trans _ _ _ Hca H). congruence.
Qed.

(** ** History retention *)

Lemma filter_map_NoDup {A B : Type} (f : A -> B) (p : A -> bool) (l : list A) :
  NoDup (map f l) -> NoDup (map f (List.filter p l)).
Proof.
  induction l as [|x l IH]; simpl; [done|].
  intros Hnd. apply NoDup_cons in Hnd as [Hx Hnd].
  destruct (p x); simpl; [|by apply IH].
  apply NoDup_cons. split; [|by apply IH].
  intros Hin. apply Hx.
  apply list_elem_of_In, in_map_iff in Hin as (y & Hy & Hin).
  apply list_elem_of_In, in_map_iff. exists y. split; [done|].
  by apply filter_In in Hin as [Hin _].
Qed.

Lemma elem_of_map_Name (e : History.DirEntry) (l : list History.DirEntry) :
  e ∈ l -> History.Name e ∈ map History.Name l.
Proof. intros H. apply list_elem_of_In, in_map, list_elem_of_In, H. Qed.

Lemma elem_of_map_Name_inv (name : string) (l : list History.DirEntry) :
  name ∈ map History.Name l -> exists e, e ∈ l /\ History.Name e = name.
Proof.
  intros H. apply list_elem_of_In, in_map_iff in H as (e & He & Hin).
  exists e. split; [by apply list_elem_of_In | done].
Qed.

(** Removing the victims one by one leaves the entries with other names. *)
Lemma osRemove_all (victims dir : list History.DirEntry) :
  foldl (fun d e => History.osRemove (History.Name e) d) dir victims
  = List.filter
      (fun e => bool_decide (History.Name e ∉ map History.Name victims)) dir.
Proof.
  revert dir. induction victims as [|v victims IH]; intros dir; simpl.
  - symmetry. apply filter_keep_all. intros e _. reflexivity.
  - rewrite IH. unfold History.osRemove. rewrite filter_twice.
    apply filter_agree. intros e _.
    destruct (String.eqb_spec (History.Name e) (History.Name v)) as [->|Hne]; simpl.
    + symmetry. apply bool_decide_eq_false_2. intros H. apply H. left.
    + apply bool_decide_ext. rewrite not_elem_of_cons.
      split; [by intros H | by intros [_ H]].
Qed.

Lemma filter_swap {A : Type} (p q : A -> bool) (l : list A) :
  List.filter p (List.filter q l) = List.filter q (List.filter p l).
Proof.
  rewrite !filter_twice. apply filter_agree. intros x _. apply andb_comm.
Qed.

(** Of a duplicate-free run [victims ++ rest], dropping the names of
    [victims] leaves [rest]. *)
Lemma filter_victims_app (victims rest : list History.DirEntry) :
  NoDup (map History.Name (victims ++ rest)) ->
  List.filter
    (fun e => bool_decide (History.Name e ∉ map History.Name victims))
    (victims ++ rest) = rest.
Proof.
  intros Hnd. rewrite map_app in Hnd.
  apply NoDup_app in Hnd as (_ & Hdisj & _).
  rewrite List.filter_app.
  rewrite (proj2 (filter_nil_forall _ victims)).
  - simpl. apply filter_keep_all. intros e He.
    apply bool_decide_eq_true_2. intros Hin.
    apply (Hdisj _ Hin). by apply elem_of_map_Name.
  - intros e He. apply bool_decide_eq_false_2. intros Hnot. apply Hnot.
    by apply elem_of_map_Name.
Qed.

Lemma nameLess_asym (a b : History.DirEntry) :
  History.nameLess a b = true -> History.nameLess b a = false.
Proof. apply ltb_asym. Qed.

(** [a] may stand before [b] in the sorted slice. *)
Lemma sorted_by_name_Transitive :
  Transitive (fun a b : History.DirEntry => History.nameLess b a = false).
Proof. intros a b c Hab Hbc. exact (not_after_trans _ _ _ Hab Hbc). Qed.

Lemma sortSlice_nameLess_StronglySorted (l : list History.DirEntry) :
  StronglySorted (fun a b => History.nameLess b a = false)
    (sortSlice History.nameLess l).
Proof.
  apply (@Sorted_StronglySorted _ _ sorted_by_name_Transitive).
  apply sortSlice_Sorted, nameLess_asym.
Qed.

Lemma PruneHistory_under (dir : list History.DirEntry) :
  length (History.yamlFiles dir) <= History.maxHistoryEntries ->
  History.PruneHistory dir = dir.
Proof.
  intros Hle. unfold History.PruneHistory.
  by rewrite (proj2 (Nat.leb_le _ _) Hle).
Qed.

Lemma PruneHistory_over (dir : list History.DirEntry) :
  History.maxHistoryEntries < length (History.yamlFiles dir) ->
  History.PruneHistory dir
  = List.filter
      (fun e => bool_decide
         (History.Name e ∉
            map History.Name
              (take (length (History.yamlFiles dir) - History.maxHistoryEntries)
                 (sortSlice History.nameLess (History.yamlFiles dir)))))
      dir.
Proof.
  intros Hlt. unfold History.PruneHistory.
  rewrite (proj2 (Nat.leb_gt _ _) Hlt). apply osRemove_all.
Qed.

Section Pruned.

Variable dir : list History.DirEntry.
Hypothesis names_unique : NoDup (map History.Name dir).
Hypothesis over : History.maxHistoryEntries < length (History.yamlFiles dir).

Let sorted := sortSlice History.nameLess (History.yamlFiles dir).
Let toDelete := (length (History.yamlFiles dir) - History.maxHistoryEntries)%nat.
Let victims := take toDelete sorted.
Let rest := drop toDelete sorted.

Lemma sorted_split : sorted = victims ++ rest.
Proof. symmetry. apply take_drop. Qed.

Lemma sorted_names_unique : NoDup (map History.Name (victims ++ rest)).
Proof.
  rewrite <- sorted_split. subst sorted.
  rewrite (Permutation_map History.Name (sortSlice_Permutation _ _)).
  by apply filter_map_NoDup.
Qed.

Lemma pruned_yamlFiles :
  History.yamlFiles (History.PruneHistory dir)
  = List.filter
      (fun e => bool_decide (History.Name e ∉ map History.Name victims))
      (History.yamlFiles dir).
Proof.
  rewrite (PruneHistory_over dir over). unfold History.yamlFiles.
  apply filter_swap.
Qed.

Lemma pruned_in_rest (e : History.DirEntry) :
  e ∈ History.yamlFiles (History.PruneHistory dir) -> e ∈ rest.
Proof.
  rewrite pruned_yamlFiles, elem_of_List_filter. intros [He Hname].
  apply bool_decide_eq_true in Hname.
  assert (Hs : e ∈ sorted).
  { subst sorted. by rewrite sortSlice_Permutation. }
  rewrite sorted_split in Hs. apply elem_of_app in Hs as [Hv|Hr]; [|done].
  destruct Hname. by apply elem_of_map_Name.
Qed.

Lemma pruned_length :
  length (History.yamlFiles (History.PruneHistory dir)) = History.maxHistoryEntries.
Proof.
  rewrite pruned_yamlFiles.
  rewrite (filter_length_Permutation _ _ sorted);
    [|subst sorted; by rewrite sortSlice_Permutation].
  rewrite sorted_split, (filter_victims_app _ _ sorted_names_unique).
  subst rest. rewrite length_drop. subst sorted toDelete.
  rewrite (Permutation_length (sortSlice_Permutation _ _)). lia.
Qed.

(** Every entry deleted has a smaller key than every entry kept. *)
Lemma pruned_oldest (v e : History.DirEntry) :
  v ∈ History.yamlFiles dir ->
  v ∉ History.yamlFiles (History.PruneHistory dir) ->
  e ∈ History.yamlFiles (History.PruneHistory dir) ->
  String.ltb (History.Name v) (History.Name e) = true.
Proof.
  intros Hv Hgone He. apply pruned_in_rest in He.
  assert (Hname : History.Name v ∈ map History.Name victims).
  { destruct (decide (History.Name v ∈ map History.Name victims)) as [H|H]; [done|].
    destruct Hgone. rewrite pruned_yamlFiles. apply elem_of_List_filter.
    split; [done | by apply bool_decide_eq_true_2]. }
  apply elem_of_map_Name_inv in Hname as (v' & Hv' & Heq). rewrite <- Heq.
  pose proof (sortSlice_nameLess_StronglySorted (History.yamlFiles dir)) as Hss.
  fold sorted in Hss. rewrite sorted_split in Hss.
  pose proof (StronglySorted_app_1_elem_of _ _ _ _ _ Hss Hv' He) as Hle.
  pose proof sorted_names_unique as Hnd. rewrite map_app in Hnd.
  apply NoDup_app in Hnd as (_ & Hdisj & _).
  destruct (ltb_total (History.Name v') (History.Name e)) as [H|[H|H]].
  - exact H.
  - destruct (Hdisj (History.Name v')); [by apply elem_of_map_Name|].
    rewrite H. by apply elem_of_map_Name.
  - unfold History.nameLess in Hle. congruence.
Qed.

End Pruned.

Lemma HistoryEntryFilename_yaml (entry : History.HistoryEntry) :
  History.isYamlFile (History.mkDirEntry (History.HistoryEntryFilename entry) false)
  = true.
Proof.
  unfold History.isYamlFile, History.HistoryEntryFilename.
  cbn [History.Name History.IsDir negb andb].
  rewrite <- !string_app_assoc. apply HasSuffix_app.
Qed.

Lemma osWriteFile_existing (key : string) (dir : list History.DirEntry) :
  (forall e, e ∈ dir -> History.Name e = key -> History.IsDir e = false) ->
  key ∈ map History.Name dir ->
  History.osWriteFile key dir = Some dir.
Proof.
  intros Hfile Hin. unfold History.osWriteFile.
  destruct (List.find _ dir) as [e|] eqn:E.
  - apply find_some in E as [He Hname]. apply String.eqb_eq in Hname.
    by rewrite (Hfile e (proj2 (list_elem_of_In _ _) He) Hname).
  - apply elem_of_map_Name_inv in Hin as (e & He & Hname).
    pose proof (find_none _ _ E e (proj1 (list_elem_of_In _ _) He)) as Hf.
    simpl in Hf. apply String.eqb_neq in Hf. contradiction.
Qed.

Lemma osWriteFile_new (key : string) (dir : list History.DirEntry) :
  key ∉ map History.Name dir ->
  History.osWriteFile key dir = Some (dir ++ [History.mkDirEntry key false]).
Proof.
  intros Hnot. unfold History.osWriteFile.
  destruct (List.find _ dir) as [e|] eqn:E; [|reflexivity].
  apply find_some in E as [He Hname]. apply String.eqb_eq in Hname.
  destruct Hnot. rewrite <- Hname. by apply elem_of_map_Name, list_elem_of_In.
Qed.

(** What pruning does to any listing without repeated names. *)
Lemma PruneHistory_retains (dir : list History.DirEntry) :
  NoDup (map History.Name dir) ->
  length (History.yamlFiles (History.PruneHistory dir))
  = min (length (History.yamlFiles dir)) History.maxHistoryEntries
  /\ (forall e, e ∈ History.PruneHistory dir -> e ∈ dir)
  /\ (forall v e,
        v ∈ History.yamlFiles dir ->
        v ∉ History.yamlFiles (History.PruneHistory dir) ->
        e ∈ History.yamlFiles (History.PruneHistory dir) ->
        String.ltb (History.Name v) (History.Name e) = true).
Proof.
  intros Hnd.
  destruct (le_lt_dec (length (History.yamlFiles dir)) History.maxHistoryEntries)
    as [Hle|Hlt].
  - rewrite (PruneHistory_under dir Hle). split_and!; [lia | done |].
    intros v e Hv Hgone _. contradiction.
  - split_and!.
    + rewrite (pruned_length dir Hnd Hlt). lia.
    + intros e. rewrite (PruneHistory_over dir Hlt), elem_of_List_filter.
      by intros [He _].
    + apply (pruned_oldest dir Hnd Hlt).
Qed.

(** With one entry too many, the one deleted is the head of the sorted slice,
    which no key precedes. *)
Lemma PruneHistory_one_over (dir : list History.DirEntry) :
  NoDup (map History.Name dir) ->
  length (History.yamlFiles dir) = S History.maxHistoryEntries ->
  exists v,
    v ∈ History.yamlFiles dir
    /\ (forall e, e ∈ History.yamlFiles dir ->
          String.ltb (History.Name e) (History.Name v) = false)
    /\ History.PruneHistory dir = History.osRemove (History.Name v) dir.
Proof.
  intros Hnd Hlen.
  pose proof (sortSlice_nameLess_StronglySorted (History.yamlFiles dir)) as Hss.
  pose proof (sortSlice_Permutation History.nameLess (History.yamlFiles dir)) as Hperm.
  unfold History.PruneHistory. rewrite Hlen.
  replace (S History.maxHistoryEntries <=? History.maxHistoryEntries)%nat
    with false by (symmetry; apply Nat.leb_gt; lia).
  replace (S History.maxHistoryEntries - History.maxHistoryEntries)%nat
    with 1%nat by lia.
  destruct (sortSlice History.nameLess (History.yamlFiles dir)) as [|v rest] eqn:E.
  { apply Permutation_length in Hperm. rewrite Hlen in Hperm. discriminate. }
  exists v. split_and!.
  - rewrite <- Hperm. left.
  - intros e He. rewrite <- Hperm in He.
    apply elem_of_cons in He as [->|He]; [apply ltb_irrefl|].
    apply StronglySorted_inv in Hss as [_ Hall].
    rewrite Forall_forall in Hall. exact (Hall e He).
  - reflexivity.
Qed.

(** C5, as the code has it: a save whose write succeeds leaves at most 100
    [.yaml] entries, every entry it deletes having a smaller storage key than
    every entry it keeps; saving a 101st entry leaves exactly 100 and deletes
    the one entry whose key is smallest among the 101 present after the
    write, the new entry included. *)
Theorem SaveHistoryEntry_retains_100
    (entry : History.HistoryEntry) (dir : list History.DirEntry) :
  let key := History.HistoryEntryFilename entry in
  let written :=
    if bool_decide (key ∈ map History.Name dir) then dir
    else dir ++ [History.mkDirEntry key false] in
  let after := fst (History.SaveHistoryEntry entry dir) in
  NoDup (map History.Name dir) ->
  (forall e, e ∈ dir -> History.Name e = key -> History.IsDir e = false) ->
  snd (History.SaveHistoryEntry entry dir) = false
  /\ length (History.yamlFiles after) <= 100
  /\ length (History.yamlFiles after)
     = min (length (History.yamlFiles written)) 100
  /\ (forall e, e ∈ after -> e ∈ written)
  /\ (forall v e,
        v ∈ History.yamlFiles written ->
        v ∉ History.yamlFiles after ->
        e ∈ History.yamlFiles after ->
        String.ltb (History.Name v) (History.Name e) = true)
  /\ (length (History.yamlFiles dir) = 100 -> key ∉ map History.Name dir ->
      length (History.yamlFiles after) = 100
      /\ exists v,
           v ∈ History.yamlFiles (dir ++ [History.mkDirEntry key false])
           /\ (forall e,
                 e ∈ History.yamlFiles (dir ++ [History.mkDirEntry key false]) ->
                 String.ltb (History.Name e) (History.Name v) = false)
           /\ after
              = History.osRemove (History.Name v)
                  (dir ++ [History.mkDirEntry key false])).
Proof.
  intros key written after Hnd Hfile.
  assert (Hw : History.osWriteFile key dir = Some written).
  { subst written. case_bool_decide as Hin.
    - by apply osWriteFile_existing.
    - by apply osWriteFile_new. }
  assert (Hndw : NoDup (map History.Name written)).
  { subst written. case_bool_decide as Hin; [done|].
    rewrite map_app. apply NoDup_app. split_and!; [done | | apply NoDup_singleton].
    intros x Hx Hx'. apply list_elem_of_singleton in Hx'. by subst. }
  assert (Hafter : History.SaveHistoryEntry entry dir
                   = (History.PruneHistory written, false)).
  { unfold History.SaveHistoryEntry. fold key. by rewrite Hw. }
  subst after. rewrite Hafter. simpl.
  destruct (PruneHistory_retains written Hndw) as (Hlen & Hsub & Hold).
  change History.maxHistoryEntries with 100%nat in Hlen.
  split_and!; [done | lia | done | done | done |].
  intros H100 Hnew. subst written.
  rewrite bool_decide_eq_false_2 in * by done.
  assert (H101 : length (History.yamlFiles (dir ++ [History.mkDirEntry key false]))
                 = S History.maxHistoryEntries).
  { unfold History.yamlFiles in *. rewrite List.filter_app, length_app. simpl.
    subst key. rewrite HistoryEntryFilename_yaml. simpl.
    change History.maxHistoryEntries with 100%nat. lia. }
  split.
  - rewrite Hlen, H101. reflexivity.
  - apply (PruneHistory_one_over _ Hndw H101).
Qed.

Lemma exampleHistoryDir_files (e : History.DirEntry) (key : string) :
  e ∈ exampleHistoryDir -> History.Name e = key -> History.IsDir e = false.
Proof.
  intros He _. apply list_elem_of_In, in_map_iff in He as (i & <- & _).
  reflexivity.
Qed.

Lemma SaveHistoryEntry_retains_100_witness :
  let after := fst (History.SaveHistoryEntry exampleLateEntry exampleHistoryDir) in
  snd (History.SaveHistoryEntry exampleLateEntry exampleHistoryDir) = false
  /\ length (History.yamlFiles after) = 100
  /\ after
     = tail exampleHistoryDir
       ++ [History.mkDirEntry "2025-06-01_10-01-40_default.yaml" false].
Proof.
  intros after.
  assert (Hnd : NoDup (map History.Name exampleHistoryDir)) by compute_done.
  destruct (SaveHistoryEntry_retains_100 exampleLateEntry exampleHistoryDir Hnd
              (fun e => exampleHistoryDir_files e _))
    as (Herr & _ & _ & _ & _ & H101).
  destruct H101 as [Hlen _]; [reflexivity | compute_done |].
  split; [exact Herr|]. split; [exact Hlen|]. vm_compute. reflexivity.
Defined.

(** C5, the counterexample: the new entry carries the smallest key of all, so
    it is the new entry that is deleted, and the entry whose key was smallest
    before the save is still there. *)
Lemma SaveHistoryEntry_may_delete_the_new_entry :
  ~ (forall (entry : History.HistoryEntry) (dir : list History.DirEntry),
       NoDup (map History.Name dir) ->
       length (History.yamlFiles dir) = 100 ->
       History.HistoryEntryFilename entry ∉ map History.Name dir ->
       forall v,
         v ∈ History.yamlFiles dir ->
         (forall e, e ∈ History.yamlFiles dir ->
            String.ltb (History.Name e) (History.Name v) = false) ->
         v ∉ fst (History.SaveHistoryEntry entry dir)).
Proof.
  intros H.
  apply (H exampleEarlyEntry exampleHistoryDir) with
    (v := History.mkDirEntry "2025-06-01_10-00-00_default.yaml" false).
  - compute_done.
  - reflexivity.
  - compute_done.
  - vm_compute. left.
  - apply Forall_forall. compute_done.
  - vm_compute. left.
Qed.

(** ** Directory expansion *)

(** Induction on file trees, with the hypothesis for every entry of a directory. *)
Lemma FsNode_ind (P : FsNode -> Prop) :
  (forall name, P (RegFile name)) ->
  (forall name, P (Directory name None)) ->
  (forall name dirs, Forall P dirs -> P (Directory name (Some dirs))) ->
  forall d, P d.
Proof.
  intros Hfile Hnone Hsome.
  refine (fix go (d : FsNode) : P d :=
            match d with
            | RegFile name => Hfile name
            | Directory name None => Hnone name
            | Directory name (Some dirs) =>
                Hsome name dirs
                  ((fix all (l : list FsNode) : Forall P l :=
                      match l with
                      | [] => @List.Forall_nil _ P
                      | x :: l' => @List.Forall_cons _ P x l' (go x) (all l')
                      end) dirs)
            end).
Qed.

Lemma walkDir_Directory {St : Type}
    (fn : St -> string -> bool -> bool -> St * WalkResult)
    (path name : string) (dirs : list FsNode) (st : St) :
  walkDir fn path (Directory name (Some dirs)) st
  = let '(st1, r) := fn st path true false in
    match r with
    | WalkSkipDir => (st1, WalkNil)
    | WalkErr => (st1, WalkErr)
    | WalkNil => walkEntries fn path dirs st1
    end.
Proof.
  cbn [walkDir]. destruct (fn st path true false) as [st1 []]; try reflexivity.
  revert st1. induction dirs as [|d1 rest IH]; intros st1; [reflexivity|].
  cbn [walkEntries].
  destruct (walkDir fn (filepath_Join path (nodeName d1)) d1 st1) as [st' []];
    try reflexivity.
  apply IH.
Qed.

Section Pruning.

Variable doublestar_Match : string -> string -> bool.
Variable exclude : option ExcludeRule.

#[local] Abbreviation isExcluded := (excluded doublestar_Match exclude).
#[local] Abbreviation visit := (expandVisit doublestar_Match exclude).
#[local] Abbreviation probe := (tracedVisit doublestar_Match exclude).
#[local] Abbreviation reached := (Reached doublestar_Match exclude).
#[local] Abbreviation visited := (Visited doublestar_Match exclude).

(** An excluded directory is left at once: the callback has seen the
    directory itself and nothing below it, and no file was added. *)
Lemma walkDir_excluded_directory
    (path name : string) (entries : option (list FsNode))
    (log files : list string) :
  isExcluded path = true ->
  walkDir probe path (Directory name entries) (log, files)
  = ((log ++ [path], files), WalkNil).
Proof.
  intros Hex. destruct entries as [dirs|].
  - rewrite walkDir_Directory. unfold tracedVisit, expandVisit.
    cbn [fst snd]. by rewrite Hex.
  - cbn [walkDir]. unfold tracedVisit, expandVisit. cbn [fst snd]. by rewrite Hex.
Qed.

Lemma ExpandDirectory_excluded_root
    (dir name : string) (entries : option (list FsNode)) :
  isExcluded dir = true ->
  ExpandDirectory doublestar_Match dir (Some (Directory name entries)) exclude
  = ([], false).
Proof.
  intros Hex. unfold ExpandDirectory, WalkDir. destruct entries as [dirs|].
  - rewrite walkDir_Directory. unfold expandVisit. by rewrite Hex.
  - cbn [walkDir]. unfold expandVisit. by rewrite Hex.
Qed.

Lemma ExpandDirectory_excluded_file (dir name : string) :
  isExcluded dir = true ->
  ExpandDirectory doublestar_Match dir (Some (RegFile name)) exclude = ([], false).
Proof.
  intros Hex. unfold ExpandDirectory, WalkDir. cbn [walkDir].
  unfold expandVisit. by rewrite Hex.
Qed.

(** The files a walk adds are all reached. *)
Lemma walkEntries_adds (path : string) (dirs : list FsNode) :
  Forall (fun d => forall path files, exists added,
            fst (walkDir visit path d files) = files ++ added
            /\ forall f, f ∈ added -> reached path d f) dirs ->
  forall files, exists added,
    fst (walkEntries visit path dirs files) = files ++ added
    /\ forall f, f ∈ added ->
         exists d, d ∈ dirs /\ reached (filepath_Join path (nodeName d)) d f.
Proof.
  induction 1 as [|d1 rest Hd1 _ IH]; intros files; cbn [walkEntries].
  - exists []. split; [by rewrite app_nil_r | intros f Hf; inversion Hf].
  - destruct (Hd1 (filepath_Join path (nodeName d1)) files) as (a1 & Heq1 & Hin1).
    destruct (walkDir visit (filepath_Join path (nodeName d1)) d1 files)
      as [files1 r1]. cbn [fst] in Heq1. subst files1.
    assert (Hhere : forall f, f ∈ a1 ->
              exists d, d ∈ d1 :: rest
                        /\ reached (filepath_Join path (nodeName d)) d f).
    { intros f Hf. exists d1. split; [left | by apply Hin1]. }
    destruct r1; [|by exists a1 | by exists a1].
    destruct (IH (files ++ a1)) as (a2 & Heq2 & Hin2).
    exists (a1 ++ a2). split; [by rewrite Heq2, app_assoc|].
    intros f Hf. apply elem_of_app in Hf as [Hf|Hf]; [by apply Hhere|].
    destruct (Hin2 f Hf) as (d & Hd & Hr). exists d. split; [by right | done].
Qed.

Lemma walkDir_adds (node : FsNode) (path : string) (files : list string) :
  exists added,
    fst (walkDir visit path node files) = files ++ added
    /\ forall f, f ∈ added -> reached path node f.
Proof.
  revert path files. induction node as [name|name|name dirs IH] using FsNode_ind;
    intros path files.
  - cbn [walkDir]. unfold expandVisit. destruct (isExcluded path) eqn:Hex.
    + exists []. split; [by rewrite app_nil_r | intros f Hf; inversion Hf].
    + exists [path]. split; [done|]. intros f Hf.
      apply list_elem_of_singleton in Hf as ->. by constructor.
  - exists []. split; [|intros f Hf; inversion Hf].
    cbn [walkDir]. unfold expandVisit. rewrite app_nil_r.
    by destruct (isExcluded path).
  - rewrite walkDir_Directory. unfold expandVisit at 1.
    destruct (isExcluded path) eqn:Hex.
    + exists []. split; [by rewrite app_nil_r | intros f Hf; inversion Hf].
    + destruct (walkEntries_adds path dirs IH files) as (added & Heq & Hin).
      exists added. split; [done|]. intros f Hf.
      destruct (Hin f Hf) as (d & Hd & Hr). by eapply reached_entry.
Qed.

(** The paths the callback is invoked on are all visited. *)
Lemma walkEntries_sees (path : string) (dirs : list FsNode) :
  Forall (fun d => forall path log files, exists seen,
            fst (fst (walkDir probe path d (log, files))) = log ++ seen
            /\ forall p, p ∈ seen -> visited path d p) dirs ->
  forall log files, exists seen,
    fst (fst (walkEntries probe path dirs (log, files))) = log ++ seen
    /\ forall p, p ∈ seen ->
         exists d, d ∈ dirs /\ visited (filepath_Join path (nodeName d)) d p.
Proof.
  induction 1 as [|d1 rest Hd1 _ IH]; intros log files; cbn [walkEntries].
  - exists []. split; [by rewrite app_nil_r | intros p Hp; inversion Hp].
  - destruct (Hd1 (filepath_Join path (nodeName d1)) log files)
      as (s1 & Heq1 & Hin1).
    destruct (walkDir probe (filepath_Join path (nodeName d1)) d1 (log, files))
      as [[log1 files1] r1]. cbn [fst] in Heq1. subst log1.
    assert (Hhere : forall p, p ∈ s1 ->
              exists d, d ∈ d1 :: rest
                        /\ visited (filepath_Join path (nodeName d)) d p).
    { intros p Hp. exists d1. split; [left | by apply Hin1]. }
    destruct r1; [|by exists s1 | by exists s1].
    destruct (IH (log ++ s1) files1) as (s2 & Heq2 & Hin2).
    exists (s1 ++ s2). split; [by rewrite Heq2, app_assoc|].
    intros p Hp. apply elem_of_app in Hp as [Hp|Hp]; [by apply Hhere|].
    destruct (Hin2 p Hp) as (d & Hd & Hv). exists d. split; [by right | done].
Qed.

Lemma walkDir_sees (node : FsNode) (path : string) (log files : list string) :
  exists seen,
    fst (fst (walkDir probe path node (log, files))) = log ++ seen
    /\ forall p, p ∈ seen -> visited path node p.
Proof.
  revert path log files.
  induction node as [name|name|name dirs IH] using FsNode_ind;
    intros path log files.
  - exists [path]. split.
    + cbn [walkDir]. unfold tracedVisit.
      by destruct (expandVisit _ _ _ _ _ _) as [files' r].
    + intros p Hp. apply list_elem_of_singleton in Hp as ->. constructor.
  - cbn [walkDir]. unfold tracedVisit, expandVisit. cbn [fst snd].
    destruct (isExcluded path) eqn:Hex; cbn [fst snd].
    + exists [path]. split; [done|]. intros p Hp.
      apply list_elem_of_singleton in Hp as ->. constructor.
    + exists [path; path]. split; [by rewrite <- app_assoc|]. intros p Hp.
      apply elem_of_cons in Hp as [->|Hp]; [constructor|].
      apply list_elem_of_singleton in Hp as ->. constructor.
  - rewrite walkDir_Directory. unfold tracedVisit at 1, expandVisit at 1.
    cbn [fst snd]. destruct (isExcluded path) eqn:Hex.
    + exists [path]. split; [done|]. intros p Hp.
      apply list_elem_of_singleton in Hp as ->. constructor.
    + destruct (walkEntries_sees path dirs IH (log ++ [path]) files)
        as (seen & Heq & Hin).
      exists (path :: seen). split.
      * rewrite Heq. by rewrite <- app_assoc.
      * intros p Hp. apply elem_of_cons in Hp as [->|Hp]; [constructor|].
        destruct (Hin p Hp) as (d & Hd & Hv). by eapply visited_entry.
Qed.

(** The walk of [ExpandDirectory] never hands [SkipDir] upwards. *)
Lemma walkEntries_no_skip (path : string) (dirs : list FsNode) (files : list string) :
  snd (walkEntries visit path dirs files) <> WalkSkipDir.
Proof.
  revert files. induction dirs as [|d1 rest IH]; intros files; cbn [walkEntries].
  - done.
  - destruct (walkDir visit (filepath_Join path (nodeName d1)) d1 files)
      as [files1 []]; [apply IH | done | done].
Qed.

Lemma walkDir_no_skip (node : FsNode) (path : string) (files : list string) :
  snd (walkDir visit path node files) <> WalkSkipDir.
Proof.
  destruct node as [name|name [dirs|]].
  - cbn [walkDir]. unfold expandVisit. by destruct (isExcluded path).
  - rewrite walkDir_Directory. unfold expandVisit at 1.
    destruct (isExcluded path); [done | apply walkEntries_no_skip].
  - cbn [walkDir]. unfold expandVisit. by destruct (isExcluded path).
Qed.

(** A walk that ends without error has added every reached file. *)
Lemma walkEntries_complete (path : string) (dirs : list FsNode) :
  Forall (fun d => forall path files,
            snd (walkDir visit path d files) = WalkNil ->
            forall f, reached path d f -> f ∈ fst (walkDir visit path d files))
    dirs ->
  forall files,
    snd (walkEntries visit path dirs files) = WalkNil ->
    forall d f, d ∈ dirs -> reached (filepath_Join path (nodeName d)) d f ->
    f ∈ fst (walkEntries visit path dirs files).
Proof.
  induction 1 as [|d1 rest Hd1 Hrest IH]; intros files Hok d f Hd Hr.
  - inversion Hd.
  - cbn [walkEntries] in *.
    pose proof (walkDir_no_skip d1 (filepath_Join path (nodeName d1)) files) as Hns.
    specialize (Hd1 (filepath_Join path (nodeName d1)) files).
    destruct (walkDir visit (filepath_Join path (nodeName d1)) d1 files)
      as [files1 r1]. cbn [fst snd] in *.
    destruct r1; [|done|done].
    apply elem_of_cons in Hd as [->|Hd].
    + destruct (walkEntries_adds path rest
                  (Forall_impl _ _ _ Hrest (fun d _ p fs => walkDir_adds d p fs))
                  files1) as (added & -> & _).
      apply elem_of_app. left. by apply Hd1.
    + by apply (IH files1 Hok d f).
Qed.

Lemma walkDir_complete (node : FsNode) (path : string) (files : list string) :
  snd (walkDir visit path node files) = WalkNil ->
  forall f, reached path node f -> f ∈ fst (walkDir visit path node files).
Proof.
  revert path files. induction node as [name|name|name dirs IH] using FsNode_ind;
    intros path files Hok f Hr;
    inversion Hr as [p n Hex | p n ds d f' Hex Hd Hr']; subst.
  - cbn [walkDir]. unfold expandVisit. rewrite Hex. cbn [fst].
    apply elem_of_app. right. left.
  - rewrite walkDir_Directory in *. unfold expandVisit at 1.
    unfold expandVisit at 1 in Hok. rewrite Hex in *.
    by eapply walkEntries_complete.
Qed.

End Pruning.

(** C8: a directory the exclude rule matches, the root included, is left as
    soon as the callback has seen it: nothing below it is visited and no file
    is added; a matching regular file is not added.  Hence every path the
    callback is invoked on lies below directories that are not excluded, and
    the files of the result are files that are not excluded below such
    directories (all of them, when the walk ends without error).  The tree [/root] with [node_modules/pkg/index.js] and
    [src/main.go] expands under [**/node_modules/**] to [/root/src/main.go]
    alone, and [/root/node_modules/pkg] is never visited. *)
Theorem ExpandDirectory_prunes
    (doublestar_Match : string -> string -> bool) (exclude : option ExcludeRule)
    (dir name : string) (entries : option (list FsNode)) (node : FsNode)
    (log files : list string) :
  (excluded doublestar_Match exclude dir = true ->
   walkDir (tracedVisit doublestar_Match exclude) dir (Directory name entries)
     (log, files)
   = ((log ++ [dir], files), WalkNil)
   /\ ExpandDirectory doublestar_Match dir (Some (Directory name entries)) exclude
      = ([], false)
   /\ ExpandDirectory doublestar_Match dir (Some (RegFile name)) exclude
      = ([], false))
  /\ (forall p,
        p ∈ fst (fst (WalkDir (tracedVisit doublestar_Match exclude) dir
                        (Some node) ([], []))) ->
        Visited doublestar_Match exclude dir node p)
  /\ (forall f,
        f ∈ fst (ExpandDirectory doublestar_Match dir (Some node) exclude) ->
        Reached doublestar_Match exclude dir node f)
  /\ (snd (ExpandDirectory doublestar_Match dir (Some node) exclude) = false ->
      forall f,
        Reached doublestar_Match exclude dir node f ->
        f ∈ fst (ExpandDirectory doublestar_Match dir (Some node) exclude))
  /\ ExpandDirectory Glob.Match "/root" (Some exampleTree) (Some exampleRule)
     = (["/root/src/main.go"], false)
  /\ fst (fst (WalkDir (tracedVisit Glob.Match (Some exampleRule)) "/root"
                 (Some exampleTree) ([], [])))
     = ["/root"; "/root/node_modules"; "/root/src"; "/root/src/main.go"].
Proof.
  split_and!.
  - intros Hex. split_and!.
    + by apply walkDir_excluded_directory.
    + by apply ExpandDirectory_excluded_root.
    + by apply ExpandDirectory_excluded_file.
  - intros p. unfold WalkDir.
    destruct (walkDir_sees doublestar_Match exclude node dir [] [])
      as (seen & Heq & Hin).
    destruct (walkDir _ dir node _) as [[log' files'] r]. cbn [fst] in *.
    subst log'. apply Hin.
  - intros f. unfold ExpandDirectory, WalkDir.
    destruct (walkDir_adds doublestar_Match exclude node dir [])
      as (added & Heq & Hin).
    destruct (walkDir _ dir node _) as [files' r]. cbn [fst] in *.
    subst files'. apply Hin.
  - unfold ExpandDirectory, WalkDir. intros Hok f Hr.
    pose proof (walkDir_complete doublestar_Match exclude node dir []) as Hall.
    pose proof (walkDir_no_skip doublestar_Match exclude node dir []) as Hns.
    destruct (walkDir _ dir node _) as [files' r]. cbn [fst snd] in *.
    destruct r; [by apply Hall | done | done].
  - reflexivity.
  - reflexivity.
Qed.

Lemma ExpandDirectory_prunes_witness :
  excluded Glob.Match (Some exampleRule) "/root/node_modules" = true
  /\ walkDir (tracedVisit Glob.Match (Some exampleRule)) "/root/node_modules"
       (Directory "node_modules"
          (Some [Directory "pkg" (Some [RegFile "index.js"])]))
       (["/root"], [])
     = ((["/root"; "/root/node_modules"], []), WalkNil)
  /\ Reached Glob.Match (Some exampleRule) "/root" exampleTree "/root/src/main.go".
Proof.
  destruct (ExpandDirectory_prunes Glob.Match (Some exampleRule)
              "/root/node_modules" "node_modules"
              (Some [Directory "pkg" (Some [RegFile "index.js"])])
              exampleTree ["/root"] [])
    as (Hpruned & _).
  destruct (Hpruned eq_refl) as (Hwalk & _).
  destruct (ExpandDirectory_prunes Glob.Match (Some exampleRule)
              "/root" "root" None exampleTree [] [])
    as (_ & _ & Hreached & _ & _).
  split; [reflexivity|]. split; [exact Hwalk|].
  apply Hreached. vm_compute. left.
Defined.

(** * Further properties *)

(** ** File names of history entries *)

Lemma ReplaceAll1_underscore (s : string) (old : ascii) :
  GoStrings.ReplaceAll1 s old "_"
  = mapBytes (fun c => if Ascii.eqb c old then "_"%char else c) s.
Proof.
  induction s as [|c s IH]; simpl; [reflexivity|].
  rewrite IH. by destruct (Ascii.eqb c old).
Qed.

Lemma foldl_ReplaceAll1_cons (olds : list ascii) (c : ascii) (s : string) :
  foldl (fun r old => GoStrings.ReplaceAll1 r old "_") (String c s) olds
  = String (foldl (fun x old => if Ascii.eqb x old then "_"%char else x) c olds)
      (foldl (fun r old => GoStrings.ReplaceAll1 r old "_") s olds).
Proof.
  revert c s. induction olds as [|old olds IH]; intros c s; simpl; [reflexivity|].
  destruct (Ascii.eqb c old); simpl; apply IH.
Qed.

Lemma foldl_ReplaceAll1_empty (olds : list ascii) :
  foldl (fun r old => GoStrings.ReplaceAll1 r old "_") "" olds = "".
Proof. induction olds as [|old olds IH]; simpl; [reflexivity | exact IH]. Qed.

Lemma sanitize_one_byte (c : ascii) :
  foldl (fun x old => if Ascii.eqb x old then "_"%char else x) c History.unsafe
  = sanitizeByte c.
Proof. destruct c as [[] [] [] [] [] [] [] []]; reflexivity. Qed.

Lemma sanitizeFilename_bytes (name : string) :
  History.sanitizeFilename name = mapBytes sanitizeByte name.
Proof.
  unfold History.sanitizeFilename.
  induction name as [|c name IH]; [apply foldl_ReplaceAll1_empty|].
  rewrite foldl_ReplaceAll1_cons, sanitize_one_byte, IH. reflexivity.
Qed.

Lemma sanitizeByte_safe (c : ascii) : isUnsafe (sanitizeByte c) = false.
Proof. destruct c as [[] [] [] [] [] [] [] []]; reflexivity. Qed.

Lemma mapBytes_length (f : ascii -> ascii) (s : string) :
  String.length (mapBytes f s) = String.length s.
Proof. induction s as [|c s IH]; simpl; [reflexivity | by rewrite IH]. Qed.

Lemma mapBytes_bytes (f : ascii -> ascii) (s : string) :
  list_ascii_of_string (mapBytes f s) = map f (list_ascii_of_string s).
Proof. induction s as [|c s IH]; simpl; [reflexivity | by rewrite IH]. Qed.

Lemma mapBytes_id (f : ascii -> ascii) (s : string) :
  Forall (fun c => f c = c) (list_ascii_of_string s) -> mapBytes f s = s.
Proof.
  induction s as [|c s IH]; simpl; [reflexivity|].
  intros H. apply Forall_cons in H as [Hc Hs]. by rewrite Hc, IH.
Qed.

(** X1: the sanitized name has as many bytes as the name, none of them one of
    the ten unsafe bytes; the bytes that were safe stay where they were, and
    every other one is an underscore. *)
Theorem sanitizeFilename_safe (name : string) :
  String.length (History.sanitizeFilename name) = String.length name
  /\ Forall (fun c => isUnsafe c = false)
       (list_ascii_of_string (History.sanitizeFilename name))
  /\ list_ascii_of_string (History.sanitizeFilename name)
     = map (fun c => if isUnsafe c then "_"%char else c)
         (list_ascii_of_string name).
Proof.
  rewrite sanitizeFilename_bytes. split_and!.
  - apply mapBytes_length.
  - rewrite mapBytes_bytes. apply Forall_forall. intros c Hc.
    apply list_elem_of_In, in_map_iff in Hc as (c0 & <- & _).
    apply sanitizeByte_safe.
  - apply mapBytes_bytes.
Qed.

(** X2: sanitizing is idempotent, and a name without unsafe bytes is its own
    sanitized name. *)
Theorem sanitizeFilename_idempotent (name : string) :
  History.sanitizeFilename (History.sanitizeFilename name)
  = History.sanitizeFilename name
  /\ (Forall (fun c => isUnsafe c = false) (list_ascii_of_string name) ->
      History.sanitizeFilename name = name).
Proof.
  assert (Hid : forall s,
             Forall (fun c => isUnsafe c = false) (list_ascii_of_string s) ->
             History.sanitizeFilename s = s).
  { intros s Hs. rewrite sanitizeFilename_bytes. apply mapBytes_id.
    eapply Forall_impl; [exact Hs|]. intros c Hc. unfold sanitizeByte.
    by rewrite Hc. }
  split; [|apply Hid].
  apply Hid. rewrite sanitizeFilename_bytes, mapBytes_bytes.
  apply Forall_forall. intros c Hc.
  apply list_elem_of_In, in_map_iff in Hc as (c0 & <- & _).
  apply sanitizeByte_safe.
Qed.

Lemma sanitizeFilename_idempotent_witness :
  History.sanitizeFilename "my-project_v2.1" = "my-project_v2.1"
  /\ History.sanitizeFilename "a/b c:d" = "a_b_c_d".
Proof.
  destruct (sanitizeFilename_idempotent "my-project_v2.1") as [_ H].
  split; [|reflexivity]. apply H. compute_done.
Defined.

Lemma bytes_app (a b : string) :
  list_ascii_of_string (a +:+ b) = list_ascii_of_string a ++ list_ascii_of_string b.
Proof. induction a as [|c a IH]; simpl; [reflexivity | by rewrite IH]. Qed.

Lemma safeString_app (a b : string) :
  safeString a -> safeString b -> safeString (a +:+ b).
Proof. unfold safeString. rewrite bytes_app. apply Forall_app_2. Qed.

Lemma safeString_uint (d : Decimal.uint) : safeString (NilEmpty.string_of_uint d).
Proof. induction d; simpl; by constructor. Qed.

Lemma safeString_zeros (k : nat) : safeString (zeros k).
Proof. induction k as [|k IH]; simpl; by constructor. Qed.

Lemma safeString_padded (width n : nat) : safeString (padded width n).
Proof.
  unfold padded. apply safeString_app; [apply safeString_zeros|].
  apply safeString_uint.
Qed.

Lemma safeString_formatTimestamp (t : Time) : safeString (formatTimestamp t).
Proof.
  unfold formatTimestamp.
  repeat (apply safeString_app;
          [first [apply safeString_padded | by repeat constructor]|]).
  apply safeString_padded.
Qed.

Lemma safeString_sanitizeFilename (name : string) :
  safeString (History.sanitizeFilename name).
Proof.
  unfold safeString. rewrite sanitizeFilename_bytes, mapBytes_bytes.
  apply Forall_forall. intros c Hc.
  apply list_elem_of_In, in_map_iff in Hc as (c0 & <- & _).
  apply sanitizeByte_safe.
Qed.

(** X3: whatever the context is called, the file name of a history entry
    holds no slash, nor any other of the bytes [sanitizeFilename] replaces,
    and it ends in [.yaml], so that [PruneHistory] counts it. *)
Theorem HistoryEntryFilename_safe (entry : History.HistoryEntry) :
  safeString (History.HistoryEntryFilename entry)
  /\ ("/"%char ∉ list_ascii_of_string (History.HistoryEntryFilename entry))
  /\ GoStrings.HasSuffix (History.HistoryEntryFilename entry) ".yaml" = true
  /\ History.isYamlFile
       (History.mkDirEntry (History.HistoryEntryFilename entry) false) = true.
Proof.
  assert (Hsafe : safeString (History.HistoryEntryFilename entry)).
  { unfold History.HistoryEntryFilename.
    apply safeString_app; [apply safeString_formatTimestamp|].
    apply safeString_app; [by repeat constructor|].
    apply safeString_app; [apply safeString_sanitizeFilename|].
    by repeat constructor. }
  split_and!.
  - exact Hsafe.
  - intros Hin. unfold safeString in Hsafe. rewrite Forall_forall in Hsafe.
    by specialize (Hsafe _ Hin).
  - unfold History.HistoryEntryFilename.
    rewrite <- !string_app_assoc. apply HasSuffix_app.
  - apply HistoryEntryFilename_yaml.
Qed.

(** ** Storage keys sort as timestamps do *)

Lemma compare_refl (s : string) : String.compare s s = Eq.
Proof.
  induction s as [|c s IH]; simpl; [reflexivity|].
  unfold Ascii.compare. rewrite N.compare_refl. exact IH.
Qed.

(** Two strings with heads of one length compare by the heads first. *)
Lemma compare_app (a1 b1 a2 b2 : string) :
  String.length a1 = String.length b1 ->
  String.compare (a1 +:+ a2) (b1 +:+ b2)
  = match String.compare a1 b1 with
    | Eq => String.compare a2 b2
    | c => c
    end.
Proof.
  revert b1. induction a1 as [|x a1 IH]; intros [|y b1] Hlen; simpl in *;
    try discriminate; [reflexivity|].
  destruct (Ascii.compare x y); [|reflexivity|reflexivity].
  apply IH. congruence.
Qed.

Lemma compare_app_same (sep a b : string) :
  String.compare (sep +:+ a) (sep +:+ b) = String.compare a b.
Proof. rewrite compare_app by reflexivity. by rewrite compare_refl. Qed.

Lemma Forall_below {P : nat -> Prop} (bound : nat) :
  Forall P (seq 0 bound) -> forall n, n < bound -> P n.
Proof.
  intros Hall n Hn. rewrite Forall_forall in Hall. apply Hall.
  apply elem_of_seq. lia.
Qed.

Lemma padded2_length (n : nat) : n < 100 -> String.length (padded 2 n) = 2.
Proof.
  revert n.
  apply (Forall_below (P := fun n => String.length (padded 2 n) = 2) 100).
  compute_done.
Qed.

Lemma padded2_compare (a b : nat) :
  a < 100 -> b < 100 ->
  String.compare (padded 2 a) (padded 2 b) = Nat.compare a b.
Proof.
  intros Ha Hb. revert b Hb. revert a Ha.
  apply (Forall_below (P := fun a => forall b, b < 100 ->
           String.compare (padded 2 a) (padded 2 b) = Nat.compare a b) 100).
  apply Forall_forall. intros a Ha.
  apply (Forall_below (P := fun b =>
           String.compare (padded 2 a) (padded 2 b) = Nat.compare a b) 100).
  revert a Ha. apply Forall_forall. compute_done.
Qed.

Lemma padded4_split (y : nat) :
  y < 100 * 100 ->
  padded 4 y = padded 2 (y / 100) +:+ padded 2 (y mod 100).
Proof.
  revert y.
  apply (Forall_below
           (P := fun y => padded 4 y = padded 2 (y / 100) +:+ padded 2 (y mod 100))
           (100 * 100)).
  compute_done.
Qed.

Lemma compare_by_hundreds (a b : nat) :
  Nat.compare a b
  = match Nat.compare (a / 100) (b / 100) with
    | Eq => Nat.compare (a mod 100) (b mod 100)
    | c => c
    end.
Proof.
  pose proof (Nat.div_mod_eq a 100) as Ha.
  pose proof (Nat.div_mod_eq b 100) as Hb.
  pose proof (Nat.mod_upper_bound a 100 ltac:(lia)) as Ha'.
  pose proof (Nat.mod_upper_bound b 100 ltac:(lia)) as Hb'.
  destruct (Nat.compare_spec (a / 100) (b / 100)) as [Hq|Hq|Hq].
  - destruct (Nat.compare_spec (a mod 100) (b mod 100)) as [Hr|Hr|Hr].
    + apply Nat.compare_eq_iff. lia.
    + apply Nat.compare_lt_iff. lia.
    + apply Nat.compare_gt_iff. lia.
  - apply Nat.compare_lt_iff. nia.
  - apply Nat.compare_gt_iff. nia.
Qed.

Lemma padded4_compare (a b : nat) :
  a < 100 * 100 -> b < 100 * 100 ->
  String.compare (padded 4 a) (padded 4 b) = Nat.compare a b.
Proof.
  intros Ha Hb. rewrite (padded4_split a Ha), (padded4_split b Hb).
  assert (a / 100 < 100) by (apply Nat.Div0.div_lt_upper_bound; lia).
  assert (b / 100 < 100) by (apply Nat.Div0.div_lt_upper_bound; lia).
  assert (a mod 100 < 100) by (apply Nat.mod_upper_bound; lia).
  assert (b mod 100 < 100) by (apply Nat.mod_upper_bound; lia).
  rewrite compare_app by (by rewrite !padded2_length).
  rewrite !padded2_compare by done. symmetry. apply compare_by_hundreds.
Qed.

Lemma padded4_length (y : nat) : y < 100 * 100 -> String.length (padded 4 y) = 4.
Proof.
  intros Hy. rewrite (padded4_split y Hy), string_app_length.
  rewrite !padded2_length; [reflexivity | |].
  - apply Nat.mod_upper_bound. lia.
  - apply Nat.Div0.div_lt_upper_bound. lia.
Qed.

Lemma civilTime_bounds (t : Time) :
  civilTime t ->
  year t < 100 * 100 /\ month t < 100 /\ day t < 100
  /\ hour t < 100 /\ minute t < 100 /\ second t < 100.
Proof. unfold civilTime. lia. Qed.

Lemma formatTimestamp_length (t : Time) :
  civilTime t -> String.length (formatTimestamp t) = 19.
Proof.
  intros Ht. apply civilTime_bounds in Ht as (Hy & Hmo & Hd & Hh & Hmi & Hs).
  unfold formatTimestamp. rewrite !string_app_length.
  rewrite (padded4_length _ Hy), !padded2_length by done. reflexivity.
Qed.

Lemma formatTimestamp_compare (a b : Time) :
  civilTime a -> civilTime b ->
  String.compare (formatTimestamp a) (formatTimestamp b) = timeCompare a b.
Proof.
  intros Ha Hb.
  apply civilTime_bounds in Ha as (Hy & Hmo & Hd & Hh & Hmi & Hs).
  apply civilTime_bounds in Hb as (Hy' & Hmo' & Hd' & Hh' & Hmi' & Hs').
  unfold formatTimestamp, timeCompare.
  rewrite compare_app by (by rewrite !padded4_length).
  rewrite padded4_compare by done.
  destruct (Nat.compare (year a) (year b)); [|reflexivity|reflexivity].
  rewrite compare_app_same, compare_app by (by rewrite !padded2_length).
  rewrite padded2_compare by done.
  destruct (Nat.compare (month a) (month b)); [|reflexivity|reflexivity].
  rewrite compare_app_same, compare_app by (by rewrite !padded2_length).
  rewrite padded2_compare by done.
  destruct (Nat.compare (day a) (day b)); [|reflexivity|reflexivity].
  rewrite compare_app_same, compare_app by (by rewrite !padded2_length).
  rewrite padded2_compare by done.
  destruct (Nat.compare (hour a) (hour b)); [|reflexivity|reflexivity].
  rewrite compare_app_same, compare_app by (by rewrite !padded2_length).
  rewrite padded2_compare by done.
  destruct (Nat.compare (minute a) (minute b)); [|reflexivity|reflexivity].
  rewrite compare_app_same. by apply padded2_compare.
Qed.

(** X4: for civil times with a four-digit year, the file names of two history
    entries compare as their timestamps do, field by field from the year to
    the second, and only entries of the same second compare by their
    sanitized context names; so an entry saved in an earlier second sorts
    before a later one, as [PruneHistory] takes for granted. *)
Theorem HistoryEntryFilename_order (ea eb : History.HistoryEntry) :
  civilTime (History.Timestamp ea) -> civilTime (History.Timestamp eb) ->
  String.compare (History.HistoryEntryFilename ea) (History.HistoryEntryFilename eb)
  = match timeCompare (History.Timestamp ea) (History.Timestamp eb) with
    | Eq =>
        String.compare
          (History.sanitizeFilename (History.ContextName ea) +:+ ".yaml")
          (History.sanitizeFilename (History.ContextName eb) +:+ ".yaml")
    | c => c
    end
  /\ (timeCompare (History.Timestamp ea) (History.Timestamp eb) = Lt ->
      History.nameLess
        (History.mkDirEntry (History.HistoryEntryFilename ea) false)
        (History.mkDirEntry (History.HistoryEntryFilename eb) false) = true).
Proof.
  intros Ha Hb.
  assert (Hcmp :
    String.compare (History.HistoryEntryFilename ea) (History.HistoryEntryFilename eb)
    = match timeCompare (History.Timestamp ea) (History.Timestamp eb) with
      | Eq =>
          String.compare
            (History.sanitizeFilename (History.ContextName ea) +:+ ".yaml")
            (History.sanitizeFilename (History.ContextName eb) +:+ ".yaml")
      | c => c
      end).
  { unfold History.HistoryEntryFilename.
    rewrite compare_app by (by rewrite !formatTimestamp_length).
    rewrite formatTimestamp_compare by done.
    destruct (timeCompare _ _); [|reflexivity|reflexivity].
    apply compare_app_same. }
  split; [exact Hcmp|].
  intros Hlt. unfold History.nameLess, String.ltb.
  cbn [History.Name]. by rewrite Hcmp, Hlt.
Qed.

Lemma HistoryEntryFilename_order_witness :
  History.nameLess
    (History.mkDirEntry (History.HistoryEntryFilename exampleEarlyEntry) false)
    (History.mkDirEntry (History.HistoryEntryFilename exampleLateEntry) false)
  = true.
Proof.
  assert (Ha : civilTime (History.Timestamp exampleEarlyEntry))
    by (unfold civilTime; simpl; lia).
  assert (Hb : civilTime (History.Timestamp exampleLateEntry))
    by (unfold civilTime; simpl; lia).
  destruct (HistoryEntryFilename_order exampleEarlyEntry exampleLateEntry Ha Hb)
    as [_ H].
  apply H. reflexivity.
Defined.

(** ** Pruning and listing the history *)

Lemma yamlFiles_elem_of (e : History.DirEntry) (dir : list History.DirEntry) :
  e ∈ History.yamlFiles dir <-> e ∈ dir /\ History.isYamlFile e = true.
Proof. apply elem_of_List_filter. Qed.

Lemma same_name_same_entry (dir : list History.DirEntry) (a b : History.DirEntry) :
  NoDup (map History.Name dir) -> a ∈ dir -> b ∈ dir ->
  History.Name a = History.Name b -> a = b.
Proof.
  induction dir as [|x dir IH]; intros Hnd Ha Hb Heq; [inversion Ha|].
  simpl in Hnd. apply NoDup_cons in Hnd as [Hx Hnd].
  apply elem_of_cons in Ha as [->|Ha]; apply elem_of_cons in Hb as [->|Hb].
  - reflexivity.
  - destruct Hx. rewrite Heq. by apply elem_of_map_Name.
  - destruct Hx. rewrite <- Heq. by apply elem_of_map_Name.
  - by apply IH.
Qed.

Lemma PruneHistory_sublist (dir : list History.DirEntry) :
  sublist (History.PruneHistory dir) dir.
Proof.
  destruct (le_lt_dec (length (History.yamlFiles dir)) History.maxHistoryEntries)
    as [Hle|Hlt].
  - by rewrite (PruneHistory_under dir Hle).
  - rewrite (PruneHistory_over dir Hlt). apply List_filter_sublist.
Qed.

(** X5: pruning deletes nothing but regular [.yaml] files: every directory
    and every entry of another name is still listed, in the order of the
    listing; and pruning what was just pruned deletes nothing more. *)
Theorem PruneHistory_spares_the_rest (dir : list History.DirEntry) :
  NoDup (map History.Name dir) ->
  sublist (History.PruneHistory dir) dir
  /\ (forall e, e ∈ dir -> History.isYamlFile e = false ->
        e ∈ History.PruneHistory dir)
  /\ History.PruneHistory (History.PruneHistory dir) = History.PruneHistory dir.
Proof.
  intros Hnd. split_and!.
  - apply PruneHistory_sublist.
  - intros e He Hno.
    destruct (le_lt_dec (length (History.yamlFiles dir)) History.maxHistoryEntries)
      as [Hle|Hlt]; [by rewrite (PruneHistory_under dir Hle)|].
    rewrite (PruneHistory_over dir Hlt). apply elem_of_List_filter.
    split; [done|]. apply bool_decide_eq_true_2. intros Hin.
    apply elem_of_map_Name_inv in Hin as (v & Hv & Hname).
    assert (Hvy : v ∈ History.yamlFiles dir).
    { apply elem_of_take in Hv as (i & Hi & _).
      apply list_elem_of_lookup_2 in Hi.
      by rewrite sortSlice_Permutation in Hi. }
    apply yamlFiles_elem_of in Hvy as [Hvd Hyaml].
    rewrite (same_name_same_entry dir v e Hnd Hvd He Hname) in Hyaml. congruence.
  - apply PruneHistory_under.
    destruct (le_lt_dec (length (History.yamlFiles dir)) History.maxHistoryEntries)
      as [Hle|Hlt]; [by rewrite (PruneHistory_under dir Hle)|].
    rewrite (pruned_length dir Hnd Hlt). lia.
Qed.

Lemma PruneHistory_spares_the_rest_witness :
  let dir := History.mkDirEntry "notes.txt" false
             :: History.mkDirEntry "old" true :: exampleHistoryDir
             ++ [History.mkDirEntry "2025-06-01_10-01-40_default.yaml" false] in
  History.mkDirEntry "notes.txt" false ∈ History.PruneHistory dir
  /\ History.mkDirEntry "old" true ∈ History.PruneHistory dir
  /\ length (History.PruneHistory dir) = 102
  /\ History.PruneHistory (History.PruneHistory dir) = History.PruneHistory dir.
Proof.
  intros dir.
  assert (Hnd : NoDup (map History.Name dir)) by compute_done.
  destruct (PruneHistory_spares_the_rest dir Hnd) as (_ & Hrest & Hidem).
  split; [apply Hrest; [left | reflexivity]|].
  split; [apply Hrest; [right; left | reflexivity]|].
  split; [vm_compute; reflexivity | exact Hidem].
Defined.

Section Listing.

Variable LoadHistoryEntry : string -> option History.HistoryEntry.
Variable time_After : Time -> Time -> bool.

Lemma loadEntries_elem_of (entries : list History.DirEntry) (x : History.HistoryEntry) :
  x ∈ loadEntries LoadHistoryEntry entries
  <-> exists e, e ∈ entries /\ History.isYamlFile e = true
                /\ LoadHistoryEntry (History.Name e) = Some x.
Proof.
  induction entries as [|e rest IH]; cbn [loadEntries].
  - split; [intros H; inversion H | intros (e & He & _); inversion He].
  - unfold History.isYamlFile in *.
    destruct (History.IsDir e) eqn:Hd; cbn [orb negb andb].
    + rewrite IH. split.
      * intros (e' & He' & H). exists e'. split; [by right | done].
      * intros (e' & He' & Hy & Hl). apply elem_of_cons in He' as [->|He'].
        -- rewrite Hd in Hy. discriminate.
        -- by exists e'.
    + destruct (GoStrings.HasSuffix (History.Name e) ".yaml") eqn:Hs; cbn [negb].
      * destruct (LoadHistoryEntry (History.Name e)) as [entry|] eqn:Hl.
        -- rewrite elem_of_cons, IH. split.
           ++ intros [->|(e' & He' & H)].
              ** exists e. rewrite Hd, Hs. split; [left | done].
              ** exists e'. split; [by right | done].
           ++ intros (e' & He' & Hy & Hl').
              apply elem_of_cons in He' as [->|He'].
              ** left. congruence.
              ** right. by exists e'.
        -- rewrite IH. split.
           ++ intros (e' & He' & H). exists e'. split; [by right | done].
           ++ intros (e' & He' & Hy & Hl').
              apply elem_of_cons in He' as [->|He']; [congruence|].
              by exists e'.
      * rewrite IH. split.
        -- intros (e' & He' & H). exists e'. split; [by right | done].
        -- intros (e' & He' & Hy & Hl). apply elem_of_cons in He' as [->|He'].
           ++ rewrite Hd, Hs in Hy. discriminate.
           ++ by exists e'.
Qed.

Lemma loadEntries_length (entries : list History.DirEntry) :
  length (loadEntries LoadHistoryEntry entries) <= length entries.
Proof.
  induction entries as [|e rest IH]; cbn [loadEntries]; [done|].
  destruct (_ || _); [simpl; lia|].
  destruct (LoadHistoryEntry _); simpl; lia.
Qed.

(** X6: listing the history never fails on a directory that can be read: it
    returns the entries of the regular [.yaml] files that load, skipping the
    others, with no entry before one that is after it in time; a missing
    directory lists as empty, and only an unreadable one is an error. *)
Theorem ListHistoryEntries_newest_first (entries : list History.DirEntry) :
  (forall t u, time_After t u = true -> time_After u t = false) ->
  ListHistoryEntries LoadHistoryEntry time_After DirMissing = Some []
  /\ ListHistoryEntries LoadHistoryEntry time_After DirUnreadable = None
  /\ exists listed,
       ListHistoryEntries LoadHistoryEntry time_After (DirListing entries)
       = Some listed
       /\ (forall x, x ∈ listed <->
             exists e, e ∈ entries /\ History.isYamlFile e = true
                       /\ LoadHistoryEntry (History.Name e) = Some x)
       /\ length listed <= length entries
       /\ Sorted (fun a b =>
                    time_After (History.Timestamp b) (History.Timestamp a) = false)
            listed.
Proof.
  intros Hasym. split; [reflexivity|]. split; [reflexivity|].
  eexists. split; [reflexivity|]. split_and!.
  - intros x. rewrite sortSlice_Permutation. apply loadEntries_elem_of.
  - rewrite (Permutation_length (sortSlice_Permutation _ _)).
    apply loadEntries_length.
  - apply (sortSlice_Sorted
             (fun a b => time_After (History.Timestamp a) (History.Timestamp b))).
    intros a b. apply Hasym.
Qed.

End Listing.

Lemma timeCompare_antisym (t u : Time) :
  timeCompare u t = CompOpp (timeCompare t u).
Proof.
  unfold timeCompare.
  rewrite (Nat.compare_antisym (year t) (year u)).
  destruct (Nat.compare (year t) (year u)); simpl; try reflexivity.
  rewrite (Nat.compare_antisym (month t) (month u)).
  destruct (Nat.compare (month t) (month u)); simpl; try reflexivity.
  rewrite (Nat.compare_antisym (day t) (day u)).
  destruct (Nat.compare (day t) (day u)); simpl; try reflexivity.
  rewrite (Nat.compare_antisym (hour t) (hour u)).
  destruct (Nat.compare (hour t) (hour u)); simpl; try reflexivity.
  rewrite (Nat.compare_antisym (minute t) (minute u)).
  destruct (Nat.compare (minute t) (minute u)); simpl; try reflexivity.
  apply Nat.compare_antisym.
Qed.

Lemma timeAfter_asym (t u : Time) : timeAfter t u = true -> timeAfter u t = false.
Proof.
  unfold timeAfter. rewrite (timeCompare_antisym t u).
  by destruct (timeCompare t u).
Qed.

Lemma ListHistoryEntries_newest_first_witness :
  ListHistoryEntries exampleLoad timeAfter (DirListing exampleListing)
  = Some [exampleLateEntry; exampleEarlyEntry].
Proof.
  destruct (ListHistoryEntries_newest_first exampleLoad timeAfter exampleListing
              timeAfter_asym) as (_ & _ & listed & Heq & _).
  rewrite Heq. vm_compute in Heq. by injection Heq as <-.
Defined.

(** ** Listing contexts and exclude rules *)

Lemma sliceTo_app (pre suf : string) :
  sliceTo (String.length pre) (pre +:+ suf) = pre.
Proof. induction pre as [|c pre IH]; simpl; [reflexivity | by rewrite IH]. Qed.

Lemma TrimSuffix_app (pre suf : string) : strings_TrimSuffix (pre +:+ suf) suf = pre.
Proof.
  unfold strings_TrimSuffix. rewrite HasSuffix_app, string_app_length.
  replace (String.length pre + String.length suf - String.length suf)%nat
    with (String.length pre) by lia.
  apply sliceTo_app.
Qed.

Lemma listYamlNames_elem_of (entries : list History.DirEntry) (name : string) :
  name ∈ listYamlNames entries
  <-> exists e, e ∈ entries /\ History.IsDir e = false
                /\ History.Name e = name +:+ ".yaml".
Proof.
  induction entries as [|e rest IH]; cbn [listYamlNames].
  - split; [intros H; inversion H | intros (e & He & _); inversion He].
  - destruct (History.IsDir e) eqn:Hd; cbn [negb andb].
    + rewrite IH. split.
      * intros (e' & He' & H). exists e'. split; [by right | done].
      * intros (e' & He' & Hd' & Hn). apply elem_of_cons in He' as [->|He'];
          [congruence | by exists e'].
    + destruct (GoStrings.HasSuffix (History.Name e) ".yaml") eqn:Hs.
      * destruct (HasSuffix_inv _ _ Hs) as [pre Hpre].
        rewrite Hpre, TrimSuffix_app, elem_of_cons, IH. split.
        -- intros [->|(e' & He' & H)].
           ++ exists e. split; [left | done].
           ++ exists e'. split; [by right | done].
        -- intros (e' & He' & Hd' & Hn). apply elem_of_cons in He' as [->|He'].
           ++ left. rewrite Hpre in Hn.
              apply (f_equal (fun s => strings_TrimSuffix s ".yaml")) in Hn.
              by rewrite !TrimSuffix_app in Hn.
           ++ right. by exists e'.
      * rewrite IH. split.
        -- intros (e' & He' & H). exists e'. split; [by right | done].
        -- intros (e' & He' & Hd' & Hn). apply elem_of_cons in He' as [->|He'].
           ++ rewrite Hn, HasSuffix_app in Hs. discriminate.
           ++ by exists e'.
Qed.

Lemma listYamlNames_NoDup (entries : list History.DirEntry) :
  NoDup (map History.Name entries) -> NoDup (listYamlNames entries).
Proof.
  induction entries as [|e rest IH]; cbn [listYamlNames map]; [constructor|].
  intros Hnd. apply NoDup_cons in Hnd as [He Hnd].
  destruct (negb (History.IsDir e) && _) eqn:Hy; [|by apply IH].
  apply NoDup_cons. split; [|by apply IH].
  intros Hin. apply listYamlNames_elem_of in Hin as (e' & He' & _ & Hn).
  apply andb_true_iff in Hy as [_ Hs].
  destruct (HasSuffix_inv _ _ Hs) as [pre Hpre].
  rewrite Hpre, TrimSuffix_app in Hn. apply He.
  rewrite Hpre, <- Hn. by apply elem_of_map_Name.
Qed.

(** X7: [ListContexts] lists the name [n] exactly when the directory holds a
    regular file called [n.yaml]; subdirectories and other files are passed
    over, and no name is listed twice.  [ListExcludeRules] is the same loop
    over the other directory. *)
Theorem ListContexts_names (entries : list History.DirEntry) (name : string) :
  (name ∈ ListContexts entries
   <-> exists e, e ∈ entries /\ History.IsDir e = false
                 /\ History.Name e = name +:+ ".yaml")
  /\ (NoDup (map History.Name entries) -> NoDup (ListContexts entries))
  /\ ListExcludeRules entries = ListContexts entries.
Proof.
  split_and!.
  - apply listYamlNames_elem_of.
  - apply listYamlNames_NoDup.
  - reflexivity.
Qed.

Lemma ListContexts_names_witness :
  let entries := [History.mkDirEntry "default.yaml" false;
                  History.mkDirEntry "archive.yaml" true;
                  History.mkDirEntry "work.yaml" false;
                  History.mkDirEntry "README" false] in
  ListContexts entries = ["default"; "work"] /\ NoDup (ListContexts entries).
Proof.
  intros entries.
  destruct (ListContexts_names entries "default") as (_ & Hnd & _).
  split; [reflexivity|]. apply Hnd. compute_done.
Defined.

(** ** More on exclude rules and directory expansion *)

Lemma existsb_elem_of {A : Type} (p : A -> bool) (l : list A) :
  existsb p l = true <-> exists x, x ∈ l /\ p x = true.
Proof.
  rewrite existsb_exists. split; intros (x & Hx & Hp); exists x;
    (split; [by apply list_elem_of_In | done]).
Qed.

Lemma existsb_incl {A : Type} (p : A -> bool) (l l' : list A) :
  (forall x, x ∈ l -> x ∈ l') -> existsb p l = true -> existsb p l' = true.
Proof.
  intros Hsub H. apply existsb_elem_of in H as (x & Hx & Hp).
  apply existsb_elem_of. exists x. auto.
Qed.

Lemma existsb_same_elements {A : Type} (p : A -> bool) (l l' : list A) :
  (forall x, x ∈ l <-> x ∈ l') -> existsb p l = existsb p l'.
Proof.
  intros Hsame. destruct (existsb p l) eqn:E.
  - symmetry. eapply existsb_incl; [|exact E]. intros x. apply Hsame.
  - destruct (existsb p l') eqn:E'; [|reflexivity].
    rewrite (existsb_incl p l' l) in E; [discriminate | | exact E'].
    intros x. apply Hsame.
Qed.

(** X8: an exclude rule is the union of its patterns: a path is excluded by
    two lists of patterns put together exactly when one of the lists
    excludes it, so the order and the repetition of patterns, and the name of
    the rule, play no part; a rule without patterns excludes nothing. *)
Theorem ShouldExclude_union
    (doublestar_Match : string -> string -> bool)
    (name name' : string) (ps qs : list string) (path : string) :
  ShouldExclude doublestar_Match (mkExcludeRule name (ps ++ qs)) path
  = ShouldExclude doublestar_Match (mkExcludeRule name ps) path
    || ShouldExclude doublestar_Match (mkExcludeRule name' qs) path
  /\ ((forall p, p ∈ ps <-> p ∈ qs) ->
      ShouldExclude doublestar_Match (mkExcludeRule name ps) path
      = ShouldExclude doublestar_Match (mkExcludeRule name' qs) path)
  /\ ShouldExclude doublestar_Match (mkExcludeRule name []) path = false.
Proof.
  unfold ShouldExclude. cbn [Patterns]. split_and!.
  - apply existsb_app.
  - apply existsb_same_elements.
  - reflexivity.
Qed.

Lemma ShouldExclude_union_witness :
  ShouldExclude Glob.Match
    (mkExcludeRule "a" ["**/.git/**"; "**/node_modules/**"; "**/.git/**"])
    "/root/node_modules"
  = ShouldExclude Glob.Match
      (mkExcludeRule "b" ["**/node_modules/**"; "**/.git/**"])
      "/root/node_modules".
Proof.
  destruct (ShouldExclude_union Glob.Match "a" "b"
              ["**/.git/**"; "**/node_modules/**"; "**/.git/**"]
              ["**/node_modules/**"; "**/.git/**"] "/root/node_modules")
    as (_ & H & _).
  apply H. intros p. rewrite !elem_of_cons, !elem_of_nil. tauto.
Defined.

Section Expansion.

Variable doublestar_Match : string -> string -> bool.



End Expansion.


Section ExpansionErrors.

Variable doublestar_Match : string -> string -> bool.
Variable exclude : option ExcludeRule.

#[local] Abbreviation visitFn := (expandVisit doublestar_Match exclude).
#[local] Abbreviation unreadable := (Unreadable doublestar_Match exclude).

Lemma walkEntries_fails (path : string) (dirs : list FsNode) :
  Forall (fun d => forall path files,
            snd (walkDir visitFn path d files) = WalkErr <-> unreadable path d)
    dirs ->
  forall files,
    snd (walkEntries visitFn path dirs files) = WalkErr
    <-> exists d, d ∈ dirs /\ unreadable (filepath_Join path (nodeName d)) d.
Proof.
  induction 1 as [|d1 rest Hd1 _ IH]; intros files; cbn [walkEntries].
  - split; [discriminate | intros (d & Hd & _); inversion Hd].
  - pose proof (walkDir_no_skip doublestar_Match exclude d1
                  (filepath_Join path (nodeName d1)) files) as Hns.
    specialize (Hd1 (filepath_Join path (nodeName d1)) files).
    destruct (walkDir visitFn (filepath_Join path (nodeName d1)) d1 files)
      as [files1 r1]. cbn [snd] in *.
    destruct r1; [|done|].
    + rewrite IH. split.
      * intros (d & Hd & Hu). exists d. split; [by right | done].
      * intros (d & Hd & Hu). apply elem_of_cons in Hd as [->|Hd].
        -- apply Hd1 in Hu. discriminate.
        -- by exists d.
    + split; [|done]. intros _. exists d1. split; [left | by apply Hd1].
Qed.

Lemma walkDir_fails (node : FsNode) (path : string) (files : list string) :
  snd (walkDir visitFn path node files) = WalkErr <-> unreadable path node.
Proof.
  revert path files. induction node as [name|name|name dirs IH] using FsNode_ind;
    intros path files.
  - cbn [walkDir]. unfold expandVisit.
    split; [by destruct (excluded _ _ _) | intros H; inversion H].
  - cbn [walkDir]. unfold expandVisit.
    destruct (excluded doublestar_Match exclude path) eqn:Hex; cbn [snd].
    + split; [discriminate | intros H; inversion H; congruence].
    + split; [by constructor | done].
  - rewrite walkDir_Directory. unfold expandVisit at 1.
    destruct (excluded doublestar_Match exclude path) eqn:Hex.
    + split; [discriminate | intros H; inversion H; congruence].
    + rewrite (walkEntries_fails path dirs IH). split.
      * intros (d & Hd & Hu). by eapply unreadable_below.
      * intros H. inversion H as [|p n ds d Hex' Hd Hu]; subst. by exists d.
Qed.

(** X10: expanding a directory fails exactly when the walk enters a directory
    it cannot read, that is, one that neither is excluded nor lies below an
    excluded directory; what cannot be read inside an excluded directory is
    never noticed.  When the root cannot be found the result is an error and
    no file. *)
Theorem ExpandDirectory_fails_when_unreadable (dir : string) (node : FsNode) :
  (snd (ExpandDirectory doublestar_Match dir (Some node) exclude) = true
   <-> Unreadable doublestar_Match exclude dir node)
  /\ ExpandDirectory doublestar_Match dir None exclude = ([], true).
Proof.
  split; [|reflexivity].
  unfold ExpandDirectory, WalkDir.
  pose proof (walkDir_fails node dir []) as Hiff.
  destruct (walkDir _ dir node _) as [files' r]. cbn [snd] in *.
  rewrite <- Hiff. by destruct r.
Qed.

End ExpansionErrors.

Lemma ExpandDirectory_fails_when_unreadable_witness :
  let locked :=
    Directory "root"
      (Some [Directory "node_modules" (Some [Directory "cache" None]);
             Directory "src" (Some [RegFile "main.go"; Directory "secret" None])])
  in
  ExpandDirectory Glob.Match "/root" (Some locked) (Some exampleRule)
  = (["/root/src/main.go"], true)
  /\ Unreadable Glob.Match (Some exampleRule) "/root" locked.
Proof.
  intros locked.
  destruct (ExpandDirectory_fails_when_unreadable Glob.Match (Some exampleRule)
              "/root" locked) as [[H _] _].
  split; [reflexivity | by apply H].
Defined.

(** ** Adding files *)

Lemma withFiles_Files (ctx : Context) (fs : list string) :
  Files (withFiles ctx fs) = fs.
Proof. reflexivity. Qed.

Lemma withFiles_twice (ctx : Context) (fs gs : list string) :
  withFiles (withFiles ctx fs) gs = withFiles ctx gs.
Proof. reflexivity. Qed.

(** The loop over paths that adds each one with [AddFile] and counts the
    additions: it appends the paths not yet listed, each once, and has
    counted them. *)
Lemma add_loop_appends (paths : list string) (ctx : Context) (n : nat) :
  exists added,
    foldl (fun (acc : Context * nat) f =>
             let '(ctx', ok) := AddFile (fst acc) f in
             (ctx', if ok then S (snd acc) else snd acc))
          (ctx, n) paths
    = (withFiles ctx (Files ctx ++ added), n + length added)
    /\ NoDup added
    /\ forall p, p ∈ added <-> p ∈ paths /\ p ∉ Files ctx.
Proof.
  revert ctx n. induction paths as [|p paths IH]; intros ctx n; cbn [foldl].
  - exists []. rewrite app_nil_r, withFiles_same, Nat.add_0_r.
    split; [done|]. split; [constructor|].
    intros q. split; [intros H; inversion H | intros [H _]; inversion H].
  - cbn [fst snd]. destruct (decide (p ∈ Files ctx)) as [Hin|Hnot].
    + rewrite (AddFile_present ctx p Hin).
      destruct (IH ctx n) as (added & Heq & Hnd & Hmem).
      exists added. split; [exact Heq|]. split; [exact Hnd|].
      intros q. rewrite Hmem, elem_of_cons. split.
      * intros [Hq Hn]. split; [by right | done].
      * intros [[->|Hq] Hn]; [contradiction | done].
    + rewrite (AddFile_fresh ctx p Hnot).
      destruct (IH (withFiles ctx (Files ctx ++ [p])) (S n))
        as (added & Heq & Hnd & Hmem).
      exists (p :: added). rewrite Heq, withFiles_twice, withFiles_Files.
      split; [|split].
      * f_equal; [by rewrite <- app_assoc | simpl; lia].
      * apply NoDup_cons. split; [|exact Hnd].
        intros Hp. apply Hmem in Hp as [_ Hp]. apply Hp.
        rewrite withFiles_Files. apply elem_of_app. right. left.
      * intros q. rewrite elem_of_cons, Hmem, withFiles_Files, elem_of_cons.
        rewrite elem_of_app, list_elem_of_singleton.
        destruct (decide (q = p)) as [->|Hne]; [tauto|]. tauto.
Qed.

Lemma add_loop_AddFile_seq (paths : list string) (acc : Context * nat) :
  fst (foldl (fun (acc : Context * nat) f =>
                let '(ctx', ok) := AddFile (fst acc) f in
                (ctx', if ok then S (snd acc) else snd acc))
             acc paths)
  = AddFile_seq (fst acc) paths.
Proof.
  revert acc. induction paths as [|p paths IH]; intros acc; cbn [foldl];
    [reflexivity|].
  rewrite IH. unfold AddFile_seq. cbn [foldl]. f_equal.
  by destruct (AddFile (fst acc) p).
Qed.

(** X11: a sequence of [AddFile] calls only appends: the list it leaves is
    the list it found followed by the paths that were not in it, each once,
    and the other fields of the context are untouched. *)
Theorem AddFile_seq_appends (ctx : Context) (paths : list string) :
  exists added,
    AddFile_seq ctx paths = withFiles ctx (Files ctx ++ added)
    /\ NoDup added
    /\ forall p, p ∈ added <-> p ∈ paths /\ p ∉ Files ctx.
Proof.
  destruct (add_loop_appends paths ctx 0) as (added & Heq & Hnd & Hmem).
  exists added. split; [|done].
  pose proof (add_loop_AddFile_seq paths (ctx, 0)) as Hseq.
  rewrite Heq in Hseq. symmetry. exact Hseq.
Qed.

(** X12: [RemoveFile] undoes [AddFile]: adding a path that was not listed and
    removing it again leaves the context as it was; after [RemoveFile] the
    path is not listed, whatever came before, and adding it then puts it
    last. *)
Theorem RemoveFile_undoes_AddFile (ctx : Context) (path : string) :
  (path ∉ Files ctx -> RemoveFile (fst (AddFile ctx path)) path = ctx)
  /\ (path ∉ Files (RemoveFile ctx path))
  /\ AddFile (RemoveFile ctx path) path
     = (withFiles ctx (Files (RemoveFile ctx path) ++ [path]), true).
Proof.
  assert (Hgone : path ∉ Files (RemoveFile ctx path)).
  { unfold RemoveFile. rewrite withFiles_Files, elem_of_List_filter.
    intros [_ H]. by rewrite String.eqb_refl in H. }
  split_and!.
  - intros Hnot. rewrite (AddFile_fresh ctx path Hnot). cbn [fst].
    unfold RemoveFile. rewrite withFiles_twice, withFiles_Files.
    rewrite List.filter_app. cbn [List.filter]. rewrite String.eqb_refl.
    cbn [negb]. rewrite app_nil_r, filter_keep_all; [apply withFiles_same|].
    intros f Hf. destruct (String.eqb_spec f path) as [->|]; [contradiction|done].
  - exact Hgone.
  - by rewrite (AddFile_fresh _ path Hgone).
Qed.

Lemma RemoveFile_undoes_AddFile_witness :
  let ctx := mkContext "default" "/p" "" "task" ["/p/a.go"; "/p/b.go"] in
  RemoveFile (fst (AddFile ctx "/p/c.go")) "/p/c.go" = ctx.
Proof.
  intros ctx. destruct (RemoveFile_undoes_AddFile ctx "/p/c.go") as [H _].
  apply H. compute_done.
Defined.

Lemma Reached_not_excluded
    (doublestar_Match : string -> string -> bool) (exclude : option ExcludeRule)
    (path : string) (node : FsNode) (f : string) :
  Reached doublestar_Match exclude path node f ->
  excluded doublestar_Match exclude f = false.
Proof. induction 1; done. Qed.

Section Paste.

Variable strings_TrimSpace : string -> string.
Variable os_StatInfo : string -> option (Z * bool).
Variable os_Lstat : string -> option FsNode.
Variable doublestar_Match : string -> string -> bool.
Variable SaveContext : Context -> bool.

#[local] Abbreviation paste :=
  (processPaste strings_TrimSpace os_StatInfo os_Lstat doublestar_Match SaveContext).

(** What [processPaste] does, by the case it takes. *)
Lemma processPaste_context (exclude : ExcludeRule) (m : Model) (input : string) :
  let path := strings_TrimSpace input in
  (fst (paste exclude m input) = m
   /\ (forall n, snd (paste exclude m input) <> PasteAddedFromDirectory n)
   /\ snd (paste exclude m input) <> PasteFileAdded)
  \/ (exists size, os_StatInfo path = Some (size, false)
        /\ (path ∉ Files (context m))
        /\ context (fst (paste exclude m input))
           = withFiles (context m) (Files (context m) ++ [path])
        /\ (snd (paste exclude m input) = PasteFileAdded
            \/ snd (paste exclude m input) = PasteErrorSaving))
  \/ (exists size expanded added,
        os_StatInfo path = Some (size, true)
        /\ ExpandDirectory doublestar_Match path (os_Lstat path) (Some exclude)
           = (expanded, false)
        /\ context (fst (paste exclude m input))
           = withFiles (context m) (Files (context m) ++ added)
        /\ NoDup added
        /\ (forall p, p ∈ added <-> p ∈ expanded /\ p ∉ Files (context m))
        /\ (snd (paste exclude m input) = PasteAddedFromDirectory (length added)
            \/ snd (paste exclude m input) = PasteErrorSaving)).
Proof.
  intros path. unfold processPaste. fold path.
  destruct (String.eqb path ""); [by left|].
  destruct (GoStrings.HasPrefix path "/"); cbn [negb]; [|by left].
  destruct (os_StatInfo path) as [[size [|]]|] eqn:Hstat; [| |by left].
  - destruct (ExpandDirectory doublestar_Match path (os_Lstat path) (Some exclude))
      as [expanded failed] eqn:Hexp.
    destruct failed; [by left|].
    unfold addExpanded.
    destruct (add_loop_appends expanded (context m) 0) as (added & Heq & Hnd & Hmem).
    rewrite Heq. right. right. exists size, expanded, added. cbn [Nat.add].
    destruct (SaveContext _); cbn [negb fst snd context]; split_and!; auto.
  - destruct (decide (path ∈ Files (context m))) as [Hin|Hnot].
    + rewrite (AddFile_present _ _ Hin). by left.
    + rewrite (AddFile_fresh _ _ Hnot). right. left. exists size.
      destruct (SaveContext _); cbn [negb fst snd context]; split_and!; auto.
Qed.

(** X13: whatever is pasted, [processPaste] only appends to the file list of
    the context: paths that were not listed, each once; a list without
    duplicates stays so, and the number in "Added n files from directory" is
    the number of paths appended. *)
Theorem processPaste_only_appends
    (exclude : ExcludeRule) (m : Model) (input : string) :
  exists added,
    context (fst (paste exclude m input))
    = withFiles (context m) (Files (context m) ++ added)
    /\ NoDup added
    /\ (forall p, p ∈ added -> p ∉ Files (context m))
    /\ (NoDup (Files (context m)) ->
        NoDup (Files (context (fst (paste exclude m input)))))
    /\ (forall n, snd (paste exclude m input) = PasteAddedFromDirectory n ->
                  n = length added)
    /\ (snd (paste exclude m input) = PasteFileAdded ->
        added = [strings_TrimSpace input]).
Proof.
  assert (Hkeep : forall added,
            NoDup added -> (forall p, p ∈ added -> p ∉ Files (context m)) ->
            NoDup (Files (context m)) -> NoDup (Files (context m) ++ added)).
  { intros added Hnd Hnew Hold. apply NoDup_app. split_and!; [done | | done].
    intros p Hp Hp'. by apply (Hnew p Hp'). }
  destruct (processPaste_context exclude m input)
    as [(Hsame & Hnodir & Hnofile)
       | [(size & Hstat & Hnot & Hctx & Hst)
         | (size & expanded & added & Hstat & Hexp & Hctx & Hnd & Hmem & Hst)]].
  - exists []. rewrite Hsame, app_nil_r, withFiles_same.
    split_and!; [done | constructor | intros p Hp; inversion Hp | done | |].
    + intros n Hn. by destruct (Hnodir n).
    + intros Hn. contradiction.
  - exists [strings_TrimSpace input]. rewrite Hctx, withFiles_Files.
    assert (Hnew : forall p, p ∈ [strings_TrimSpace input] -> p ∉ Files (context m)).
    { intros p Hp. by apply list_elem_of_singleton in Hp as ->. }
    split_and!; [done | apply NoDup_singleton | done | | | done].
    + apply Hkeep; [apply NoDup_singleton | done].
    + intros n Hn. destruct Hst as [Hst|Hst]; rewrite Hst in Hn; discriminate.
  - exists added. rewrite Hctx, withFiles_Files.
    assert (Hnew : forall p, p ∈ added -> p ∉ Files (context m)).
    { intros p Hp. by apply Hmem in Hp as [_ Hp]. }
    split_and!; [done | done | done | by apply Hkeep | |].
    + intros n Hn. destruct Hst as [Hst|Hst]; rewrite Hst in Hn;
        [by injection Hn as <- | discriminate].
    + intros Hn. destruct Hst as [Hst|Hst]; rewrite Hst in Hn; discriminate.
Qed.

(** X14: [processPaste] never adds a file the active exclude rule matches
    when it is given a directory: every path the context gains is a regular
    file of the tree, not excluded itself and below directories that are not
    excluded. *)
Theorem processPaste_never_adds_excluded
    (exclude : ExcludeRule) (m : Model) (input : string) (size : Z) (p : string) :
  os_StatInfo (strings_TrimSpace input) = Some (size, true) ->
  p ∈ Files (context (fst (paste exclude m input))) ->
  p ∉ Files (context m) ->
  ShouldExclude doublestar_Match exclude p = false
  /\ exists node,
       os_Lstat (strings_TrimSpace input) = Some node
       /\ Reached doublestar_Match (Some exclude) (strings_TrimSpace input) node p.
Proof.
  intros Hdir Hin Hnot.
  destruct (processPaste_context exclude m input)
    as [(Hsame & _) | [(size' & Hstat & _)
                      | (size' & expanded & added & Hstat & Hexp
                         & Hctx & Hnd & Hmem & Hst)]].
  - rewrite Hsame in Hin. contradiction.
  - congruence.
  - rewrite Hctx, withFiles_Files in Hin.
    apply elem_of_app in Hin as [Hin|Hin]; [contradiction|].
    apply Hmem in Hin as [Hin _].
    destruct (os_Lstat (strings_TrimSpace input)) as [node|] eqn:Hl.
    + assert (Hr : Reached doublestar_Match (Some exclude)
                     (strings_TrimSpace input) node p).
      { revert Hexp Hin. unfold ExpandDirectory, WalkDir.
        destruct (walkDir_adds doublestar_Match (Some exclude) node
                    (strings_TrimSpace input) []) as (a & Heq & Hall).
        destruct (walkDir _ _ node _) as [files' r]. cbn [fst] in *.
        subst files'. intros [= <- _]. apply Hall. }
      split; [exact (Reached_not_excluded _ _ _ _ _ Hr) | by exists node].
    + revert Hexp. unfold ExpandDirectory, WalkDir, expandVisit. discriminate.
Qed.

(** X15: what [processPaste] rejects leaves the model as it was: a path that
    is empty or not absolute once trimmed, a path [os.Stat] does not find,
    and a directory whose expansion fails, in which case the files found
    before the failure are dropped. *)
Theorem processPaste_rejects
    (exclude : ExcludeRule) (m : Model) (input : string) :
  (GoStrings.HasPrefix (strings_TrimSpace input) "/" = false ->
   fst (paste exclude m input) = m)
  /\ (os_StatInfo (strings_TrimSpace input) = None ->
      fst (paste exclude m input) = m)
  /\ (forall size,
        os_StatInfo (strings_TrimSpace input) = Some (size, true) ->
        snd (ExpandDirectory doublestar_Match (strings_TrimSpace input)
               (os_Lstat (strings_TrimSpace input)) (Some exclude)) = true ->
        fst (paste exclude m input) = m).
Proof.
  unfold processPaste. split_and!.
  - intros ->. by destruct (String.eqb _ "").
  - intros ->. destruct (String.eqb _ ""); [done|].
    by destruct (GoStrings.HasPrefix _ "/").
  - intros size -> Hfail. destruct (String.eqb _ ""); [done|].
    destruct (GoStrings.HasPrefix _ "/"); [|done]. cbn [negb].
    destruct (ExpandDirectory _ _ _ _) as [expanded failed].
    cbn [snd] in Hfail. by subst failed.
Qed.

End Paste.

(** ** Selecting and deleting files *)

Lemma refreshFiles_paths (os_Stat : string -> option Z) (m : Model) :
  map Path (files (refreshFiles os_Stat m)) ≡ₚ Files (context m).
Proof.
  rewrite (Permutation_map Path (refreshFiles_Permutation os_Stat m)).
  rewrite map_map. erewrite map_ext; [by rewrite map_id|].
  intros p. apply buildFileInfo_Path.
Qed.

Lemma refreshFiles_unselected (os_Stat : string -> option Z) (m : Model)
    (f : FileInfo) :
  f ∈ files (refreshFiles os_Stat m) -> Selected f = false.
Proof.
  intros Hf. rewrite (refreshFiles_Permutation os_Stat m) in Hf.
  apply list_elem_of_In, in_map_iff in Hf as (p & <- & _).
  unfold buildFileInfo. by destruct (os_Stat p).
Qed.

Lemma refreshFiles_context (os_Stat : string -> option Z) (m : Model) :
  context (refreshFiles os_Stat m) = context m.
Proof. reflexivity. Qed.

Lemma filter_map_comm {A B : Type} (g : A -> B) (p : B -> bool) (l : list A) :
  List.filter p (map g l) = map g (List.filter (fun x => p (g x)) l).
Proof.
  induction l as [|x l IH]; simpl; [reflexivity|].
  destruct (p (g x)); simpl; by rewrite IH.
Qed.

Lemma filter_complement_length {A : Type} (p : A -> bool) (l : list A) :
  length (List.filter p l) + length (List.filter (fun x => negb (p x)) l)
  = length l.
Proof.
  induction l as [|x l IH]; simpl; [reflexivity|].
  destruct (p x); simpl; lia.
Qed.

Lemma same_path_same_file (fs : list FileInfo) (f g : FileInfo) :
  NoDup (map Path fs) -> f ∈ fs -> g ∈ fs -> Path f = Path g -> f = g.
Proof.
  induction fs as [|x fs IH]; intros Hnd Hf Hg Heq; [inversion Hf|].
  simpl in Hnd. apply NoDup_cons in Hnd as [Hx Hnd].
  assert (Hp : forall h, h ∈ fs -> Path h ∈ map Path fs).
  { intros h Hh. by apply list_elem_of_In, in_map, list_elem_of_In. }
  apply elem_of_cons in Hf as [->|Hf]; apply elem_of_cons in Hg as [->|Hg].
  - reflexivity.
  - destruct Hx. rewrite Heq. by apply Hp.
  - destruct Hx. rewrite <- Heq. by apply Hp.
  - by apply IH.
Qed.

(** Among files with distinct paths, the paths left after the selected ones
    are removed are those of the files not selected. *)
Lemma unselected_paths (fs : list FileInfo) :
  NoDup (map Path fs) ->
  List.filter (fun p => bool_decide (p ∉ selectedPaths fs)) (map Path fs)
  = map Path (List.filter (fun f => negb (Selected f)) fs).
Proof.
  intros Hnd. rewrite filter_map_comm. f_equal. apply filter_agree.
  intros f Hf. unfold selectedPaths. destruct (Selected f) eqn:Hs; cbn [negb].
  - apply bool_decide_eq_false_2. intros Hnot. apply Hnot.
    apply list_elem_of_In, in_map, filter_In.
    split; [by apply list_elem_of_In | done].
  - apply bool_decide_eq_true_2. intros Hin.
    apply list_elem_of_In, in_map_iff in Hin as (g & Heq & Hg).
    apply filter_In in Hg as [Hg Hgs]. apply list_elem_of_In in Hg.
    rewrite (same_path_same_file fs g f Hnd Hg Hf Heq) in Hgs. congruence.
Qed.

Section Deleting.

Variable os_StatInfo : string -> option (Z * bool).
Variable SaveContext : Context -> bool.

#[local] Abbreviation delete := (deleteSelected os_StatInfo SaveContext).

(** With files selected, [deleteSelected] takes the bulk branch. *)
Lemma deleteSelected_bulk (m : Model) (cursor : Z) :
  0 < selectedCount (files m) ->
  let ctx' := RemoveFiles (context m) (selectedPaths (files m)) in
  let m' := refreshFiles (statSize os_StatInfo) (mkModel ctx' (files m)) in
  let count := Z.of_nat (length (files m')) in
  delete m cursor
  = if SaveContext ctx'
    then Some (m',
               if (count <=? cursor)%Z && (0 <? cursor)%Z then (count - 1)%Z
               else cursor,
               DeletedFiles (selectedCount (files m)))
    else Some (mkModel ctx' (files m), cursor, DeleteErrorSaving).
Proof.
  intros Hsel ctx' m' count. unfold deleteSelected.
  rewrite (proj2 (Nat.ltb_lt _ _) Hsel). fold ctx'.
  by destruct (SaveContext ctx').
Qed.

(** X16: with files selected, [deleteSelected] never panics, wherever the
    cursor is: it removes from the context the paths of the selected files
    and keeps the others in their order; once saved, the display list is
    rebuilt from what is left, with nothing selected, and the status counts
    the files that were selected. *)
Theorem deleteSelected_removes_selection (m : Model) (cursor : Z) :
  0 < selectedCount (files m) ->
  exists m' cursor' st,
    delete m cursor = Some (m', cursor', st)
    /\ Files (context m')
       = List.filter (fun p => bool_decide (p ∉ selectedPaths (files m)))
           (Files (context m))
    /\ (forall f, f ∈ files m -> Selected f = true ->
          Path f ∉ Files (context m'))
    /\ (st <> DeleteErrorSaving ->
        st = DeletedFiles (selectedCount (files m))
        /\ map Path (files m') ≡ₚ Files (context m')
        /\ forall f, f ∈ files m' -> Selected f = false).
Proof.
  intros Hsel. rewrite (deleteSelected_bulk m cursor Hsel).
  assert (Hgone : forall f, f ∈ files m -> Selected f = true ->
            Path f ∉ List.filter
                       (fun p => bool_decide (p ∉ selectedPaths (files m)))
                       (Files (context m))).
  { intros f Hf Hs Hin. apply elem_of_List_filter in Hin as [_ Hin].
    apply bool_decide_eq_true in Hin. apply Hin. unfold selectedPaths.
    apply list_elem_of_In, in_map, filter_In.
    split; [by apply list_elem_of_In | done]. }
  destruct (SaveContext _); eexists _, _, _; (split; [reflexivity|]).
  - split_and!.
    + rewrite refreshFiles_context. cbn [context]. apply RemoveFiles_Files.
    + intros f Hf Hs. rewrite refreshFiles_context. cbn [context].
      rewrite RemoveFiles_Files. by apply Hgone.
    + intros _. split_and!; [done | | apply refreshFiles_unselected].
      rewrite refreshFiles_context. apply refreshFiles_paths.
  - cbn [context]. split_and!; [apply RemoveFiles_Files | | done].
    intros f Hf Hs. rewrite RemoveFiles_Files. by apply Hgone.
Qed.

(** X17: when the display list shows the files of the context, each once,
    the number in "Deleted n files" is the number of paths the context
    loses. *)
Theorem deleteSelected_count (m : Model) (cursor : Z) (m' : Model)
    (cursor' : Z) (n : nat) :
  NoDup (Files (context m)) ->
  map Path (files m) ≡ₚ Files (context m) ->
  delete m cursor = Some (m', cursor', DeletedFiles n) ->
  length (Files (context m')) + n = length (Files (context m)).
Proof.
  intros Hnd Hperm Hdel.
  assert (Hsel : 0 < selectedCount (files m)).
  { revert Hdel. unfold deleteSelected.
    destruct (0 <? selectedCount (files m))%nat eqn:E;
      [intros _; by apply Nat.ltb_lt|].
    destruct (cursor <? _)%Z; [destruct (cursor <? 0)%Z; [discriminate|];
                               destruct (files m !! _); [|discriminate]|];
      cbn; destruct (SaveContext _); discriminate. }
  rewrite (deleteSelected_bulk m cursor Hsel) in Hdel.
  destruct (SaveContext _); [|discriminate].
  injection Hdel as <- _ <-. rewrite refreshFiles_context. cbn [context].
  rewrite RemoveFiles_Files.
  rewrite <- (Permutation_length Hperm).
  rewrite (filter_length_Permutation _ _ _ (Permutation_sym Hperm)).
  rewrite unselected_paths by (by rewrite Hperm).
  rewrite length_map, length_map. unfold selectedCount.
  rewrite Nat.add_comm. apply filter_complement_length.
Qed.

(** X18: after a deletion that was saved, a cursor that was not negative
    points at a file whenever a file is left; it is [-1] exactly when no file
    is left and the cursor was not on the first row. *)
Theorem deleteSelected_cursor (m : Model) (cursor : Z) (m' : Model)
    (cursor' : Z) (st : DeleteStatus) :
  (0 <= cursor)%Z ->
  delete m cursor = Some (m', cursor', st) ->
  st <> DeleteErrorSaving ->
  (files m' <> [] -> (0 <= cursor' < Z.of_nat (length (files m')))%Z)
  /\ (cursor' = (-1)%Z <-> files m' = [] /\ (0 < cursor)%Z)
  /\ (files m' = [] -> cursor = 0%Z -> cursor' = 0%Z).
Proof.
  intros Hpos Hdel Hst. revert Hdel. unfold deleteSelected.
  set (removed := if (0 <? selectedCount (files m))%nat then _ else _).
  destruct removed as [ctx'|]; [|discriminate].
  destruct (SaveContext ctx'); cbn [negb]; [|intros [= <- <- <-]; done].
  cbv zeta.
  generalize (refreshFiles (statSize os_StatInfo) (mkModel ctx' (files m))).
  intros m1 [= <- <- <-].
  assert (Hlen : files m1 = [] <-> Z.of_nat (length (files m1)) = 0%Z).
  { split; [intros ->; reflexivity|]. intros H. apply length_zero_iff_nil. lia. }
  destruct (Z.leb_spec (Z.of_nat (length (files m1))) cursor);
    destruct (Z.ltb_spec 0 cursor); cbn [andb]; rewrite !Hlen; lia.
Qed.

End Deleting.

Lemma processPaste_never_adds_excluded_witness :
  let m' := fst (processPaste trimAsciiSpace exampleStatInfo exampleLstat
                   Glob.Match saveWorks exampleRule exampleModel " /root ") in
  Files (context m') = ["/p/small.go"; "/p/big.go"; "/root/src/main.go"]
  /\ ShouldExclude Glob.Match exampleRule "/root/src/main.go" = false.
Proof.
  intros m'.
  destruct (processPaste_never_adds_excluded trimAsciiSpace exampleStatInfo
              exampleLstat Glob.Match saveWorks exampleRule exampleModel
              " /root " 4096%Z "/root/src/main.go") as [H _].
  - reflexivity.
  - vm_compute. right. right. left.
  - compute_done.
  - split; [reflexivity | exact H].
Defined.

Lemma processPaste_rejects_witness :
  fst (processPaste trimAsciiSpace exampleStatInfo exampleLstat Glob.Match
         saveWorks exampleRule exampleModel "src/main.go") = exampleModel
  /\ fst (processPaste trimAsciiSpace exampleStatInfo exampleLstat Glob.Match
            saveWorks exampleRule exampleModel "/nowhere") = exampleModel.
Proof.
  destruct (processPaste_rejects trimAsciiSpace exampleStatInfo exampleLstat
              Glob.Match saveWorks exampleRule exampleModel "src/main.go")
    as (Hrel & _).
  destruct (processPaste_rejects trimAsciiSpace exampleStatInfo exampleLstat
              Glob.Match saveWorks exampleRule exampleModel "/nowhere")
    as (_ & Hmiss & _).
  split; [by apply Hrel | by apply Hmiss].
Defined.

Lemma deleteSelected_removes_selection_witness :
  deleteSelected exampleStatInfo saveWorks exampleSelection 1
  = Some (mkModel (mkContext "default" "/p" "" "task" ["/p/small.go"])
            [mkFileInfo "/p/small.go" 2 true false],
          0%Z, DeletedFiles 1).
Proof.
  destruct (deleteSelected_removes_selection exampleStatInfo saveWorks
              exampleSelection 1) as (m' & c' & st & Heq & _).
  - vm_compute. lia.
  - rewrite Heq. vm_compute in Heq. by injection Heq as <- <- <-.
Defined.

Lemma deleteSelected_count_witness :
  length (Files (mkContext "default" "/p" "" "task" ["/p/small.go"])) + 1
  = length (Files (context exampleSelection)).
Proof.
  apply (deleteSelected_count exampleStatInfo saveWorks exampleSelection 1
           (mkModel (mkContext "default" "/p" "" "task" ["/p/small.go"])
              [mkFileInfo "/p/small.go" 2 true false]) 0%Z 1).
  - compute_done.
  - apply Permutation_swap.
  - reflexivity.
Defined.

Lemma deleteSelected_cursor_witness :
  let m' := mkModel (mkContext "default" "/p" "" "task" ["/p/small.go"])
              [mkFileInfo "/p/small.go" 2 true false] in
  (0 <= 0 < Z.of_nat (length (files m')))%Z.
Proof.
  intros m'.
  destruct (deleteSelected_cursor exampleStatInfo saveWorks exampleSelection 1
              m' 0%Z (DeletedFiles 1)) as (H & _).
  - lia.
  - reflexivity.
  - discriminate.
  - apply H. discriminate.
Defined.

(** X19: deleting every file while the cursor is not on the first row leaves
    the cursor at [-1]; [deleteSelected] called in that state, where nothing
    is selected any more, indexes [m.files[-1]] and the program panics. *)
Theorem deleteSelected_panics_after_emptying
    (os_StatInfo : string -> option (Z * bool)) (SaveContext : Context -> bool)
    (m : Model) (cursor : Z) :
  (0 < cursor)%Z ->
  files m <> [] ->
  (forall f, f ∈ files m -> Selected f = true) ->
  (forall p, p ∈ Files (context m) -> p ∈ map Path (files m)) ->
  (forall ctx, SaveContext ctx = true) ->
  exists m',
    deleteSelected os_StatInfo SaveContext m cursor
    = Some (m', (-1)%Z, DeletedFiles (length (files m)))
    /\ Files (context m') = []
    /\ files m' = []
    /\ deleteSelected os_StatInfo SaveContext m' (-1) = None.
Proof.
  intros Hcur Hne Hall Hcover Hsave.
  assert (Hfilter : List.filter Selected (files m) = files m).
  { apply filter_keep_all. exact Hall. }
  assert (Hcount : selectedCount (files m) = length (files m)).
  { unfold selectedCount. by rewrite Hfilter. }
  assert (Hsel : 0 < selectedCount (files m)).
  { rewrite Hcount. destruct (files m); [done | simpl; lia]. }
  assert (Hempty : Files (RemoveFiles (context m) (selectedPaths (files m))) = []).
  { rewrite RemoveFiles_Files. apply filter_nil_forall. intros p Hp.
    apply bool_decide_eq_false_2. intros Hnot. apply Hnot.
    unfold selectedPaths. rewrite Hfilter. by apply Hcover. }
  rewrite (deleteSelected_bulk os_StatInfo SaveContext m cursor Hsel), Hsave.
  assert (Hfiles : files (refreshFiles (statSize os_StatInfo)
                     (mkModel (RemoveFiles (context m) (selectedPaths (files m)))
                        (files m))) = []).
  { unfold refreshFiles. cbn [context files]. by rewrite Hempty. }
  rewrite Hfiles. cbn [length]. change (Z.of_nat 0) with 0%Z.
  rewrite (proj2 (Z.leb_le 0 cursor)) by lia.
  rewrite (proj2 (Z.ltb_lt 0 cursor)) by lia. cbn [andb].
  eexists. split; [by rewrite Hcount|]. split_and!.
  - by rewrite refreshFiles_context.
  - exact Hfiles.
  - unfold deleteSelected. by rewrite Hfiles.
Qed.

Lemma deleteSelected_panics_after_emptying_witness :
  exists m',
    deleteSelected exampleStatInfo saveWorks exampleAllSelected 1
    = Some (m', (-1)%Z, DeletedFiles 2)
    /\ deleteSelected exampleStatInfo saveWorks m' (-1) = None.
Proof.
  destruct (deleteSelected_panics_after_emptying exampleStatInfo saveWorks
              exampleAllSelected 1) as (m' & Hdel & _ & _ & Hpanic).
  - lia.
  - discriminate.
  - intros f Hf. simpl in Hf.
    apply elem_of_cons in Hf as [->|Hf]; [done|].
    apply list_elem_of_singleton in Hf as ->. done.
  - intros p Hp. simpl in Hp. simpl.
    apply elem_of_cons in Hp as [->|Hp]; [right; left|].
    apply list_elem_of_singleton in Hp as ->. left.
  - done.
  - exists m'. split; [exact Hdel | exact Hpanic].
Defined.

Lemma forallb_Selected_toggleAll (fs : list FileInfo) (b : bool) :
  forallb Selected
    (map (fun f => mkFileInfo (Path f) (Size f) (Exists f) b) fs)
  = match fs with [] => true | _ => b end.
Proof.
  induction fs as [|f fs IH]; [reflexivity|]. simpl. rewrite IH.
  destruct b, fs; reflexivity.
Qed.

Lemma selectedCount_set_all (fs : list FileInfo) (b : bool) :
  selectedCount (map (fun f => mkFileInfo (Path f) (Size f) (Exists f) b) fs)
  = if b then length fs else 0.
Proof.
  unfold selectedCount. induction fs as [|f fs IH]; simpl; [by destruct b|].
  destruct b; simpl; [by rewrite IH | exact IH].
Qed.

(** X20: the select-all key leaves every file selected, or none: none when
    all were selected already, all otherwise; paths, sizes and order are
    untouched; pressed twice, it restores a full selection and clears a
    partial one. *)
Theorem toggleAll_all_or_none (fs : list FileInfo) :
  map Path (toggleAll fs) = map Path fs
  /\ map Size (toggleAll fs) = map Size fs
  /\ selectedCount (toggleAll fs) = (if forallb Selected fs then 0 else length fs)
  /\ selectedCount (toggleAll (toggleAll fs))
     = (if forallb Selected fs then length fs else 0).
Proof.
  unfold toggleAll at 1 2 3 4. split_and!.
  - rewrite map_map. reflexivity.
  - rewrite map_map. reflexivity.
  - rewrite selectedCount_set_all. by destruct (forallb Selected fs).
  - unfold toggleAll. rewrite forallb_Selected_toggleAll.
    rewrite selectedCount_set_all, length_map.
    destruct (forallb Selected fs) eqn:E; cbn [negb];
      destruct fs; reflexivity.
Qed.

(** ** Replaying a history entry *)

Section Replay.

Variable os_ReadFile : string -> option string.
Variable CopyToClipboard : string -> bool.
Variable now : Time.

Lemma replay_loop (fs : list FileInfo) (sb : string) :
  (forall f, f ∈ fs -> Exists f = true) ->
  foldl (fun sb filePath => sb +:+ writeReplayFile os_ReadFile filePath)
        sb (map Path fs)
  = sb +:+ concatBlocks os_ReadFile "" fs.
Proof.
  revert sb. induction fs as [|f fs IH]; intros sb Hall; cbn [map foldl].
  - cbn [concatBlocks foldr]. by rewrite string_app_nil_r.
  - rewrite IH by (intros g Hg; apply Hall; by right).
    cbn [concatBlocks foldr]. rewrite string_app_assoc. f_equal. f_equal.
    unfold writeReplayFile, writeFile. rewrite (Hall f) by left.
    cbn [negb]. by destruct (os_ReadFile (Path f)).
Qed.

(** X21: the entry a yank saves replays to the document of that yank with
    absolute paths: [yankHistoryEntry] on the saved entry hands the clipboard
    what [yank] would hand it for the same context without project root, as
    long as the files read the same; when the context has no project root,
    that is the yanked document itself. *)
Theorem yank_then_replay (m : Model) (entry : History.HistoryEntry) :
  saved (yank os_ReadFile CopyToClipboard now m) = [entry] ->
  exists r,
    yankHistoryEntry os_ReadFile CopyToClipboard [entry] 0 = Some r
    /\ replayClipboard r
       = clipboard (yank os_ReadFile CopyToClipboard now (withoutRoot m))
    /\ (ProjectRoot (context m) = "" ->
        replayClipboard r = clipboard (yank os_ReadFile CopyToClipboard now m)
        /\ replayStatus r = ReplayYanked (length (files m))).
Proof.
  intros Hsaved.
  destruct (missingPaths (files m)) as [|p ps] eqn:Hmiss.
  2:{ rewrite (yank_stops_when_missing os_ReadFile CopyToClipboard now m)
        in Hsaved by (by rewrite Hmiss). discriminate. }
  pose proof (proj1 (missingPaths_nil _) Hmiss) as Hall.
  pose proof (yank_proceeds_when_present os_ReadFile CopyToClipboard now m Hmiss)
    as Hyank. cbv zeta in Hyank.
  pose proof (yank_proceeds_when_present os_ReadFile CopyToClipboard now
                (withoutRoot m) Hmiss) as Hyank0. cbv zeta in Hyank0.
  cbn [withoutRoot context files ProjectRoot ProjectContext Request Name]
    in Hyank0.
  rewrite Hyank in Hsaved.
  destruct (CopyToClipboard _) eqn:Hcopy in Hsaved; [|discriminate].
  injection Hsaved as <-.
  unfold yankHistoryEntry.
  cbn [length Nat.eqb orb Z.ltb Z.compare].
  change (Z.of_nat 1 <=? 0)%Z with false. change (Z.to_nat 0) with 0%nat.
  cbn [lookup list_lookup History.ProjectContext History.Request
       History.Files].
  rewrite (replay_loop _ _ Hall), !string_app_assoc.
  rewrite Hyank0, Hyank, Hcopy. cbn [clipboard].
  set (doc0 := preamble +:+ writeProjectContext (ProjectContext (context m))
               +:+ writeRequest (Request (context m))
               +:+ concatBlocks os_ReadFile "" (files m)) in *.
  destruct (CopyToClipboard doc0) eqn:Hcopy0; cbn [negb clipboard];
    eexists; (split; [reflexivity|]); cbn [replayClipboard replayStatus];
    (split; [reflexivity|]); intros Hroot; rewrite Hroot in *;
    fold doc0 in Hcopy.
  - split; [reflexivity | by rewrite length_map].
  - congruence.
Qed.

End Replay.

Lemma yank_then_replay_witness :
  let m := refreshFiles (diskStat exampleDisk) (withoutRoot exampleModel) in
  exists r,
    yankHistoryEntry (diskRead exampleDisk) clipboardWorks
      (saved (yank (diskRead exampleDisk) clipboardWorks exampleNow m)) 0
    = Some r
    /\ replayClipboard r
       = clipboard (yank (diskRead exampleDisk) clipboardWorks exampleNow m).
Proof.
  intros m.
  destruct (yank_then_replay (diskRead exampleDisk) clipboardWorks exampleNow m
              (History.mkHistoryEntry exampleNow "default" "" "task"
                 ["/p/big.go"; "/p/small.go"]))
    as (r & Hr & _ & Hsame).
  - reflexivity.
  - exists r. split; [exact Hr|]. by apply Hsame.
Defined.

(** ** More on the yanked document and the history list *)

(** X22: the path shown in a [<file>] tag is always the end of the file's
    path: whatever the project root, [displayPath] only ever cuts a prefix
    off and never puts anything in. *)
Theorem displayPath_is_suffix (projectRoot path : string) :
  exists cut, path = cut +:+ displayPath projectRoot path
              /\ (cut = "" \/ exists rest, cut = projectRoot +:+ rest).
Proof.
  unfold displayPath. destruct (String.eqb projectRoot ""); cbn [negb].
  { exists "". split; [reflexivity | by left]. }
  destruct (GoStrings.HasSuffix projectRoot "/"); cbn [negb].
  - destruct (GoStrings.HasPrefix path projectRoot) eqn:Hp.
    + destruct (HasPrefix_inv _ _ Hp) as [rest ->]. rewrite TrimPrefix_app.
      exists projectRoot. split; [reflexivity|]. right. exists "".
      by rewrite string_app_nil_r.
    + exists "". split; [reflexivity | by left].
  - destruct (GoStrings.HasPrefix path (projectRoot +:+ "/")) eqn:Hp.
    + destruct (HasPrefix_inv _ _ Hp) as [rest ->]. rewrite TrimPrefix_app.
      exists (projectRoot +:+ "/"). split; [reflexivity|]. right. by exists "/".
    + exists "". split; [reflexivity | by left].
Qed.

Section Snapshot.

Variable os_Stat : string -> option Z.
Variable os_ReadFile : string -> option string.
Variable CopyToClipboard : string -> bool.
Variable now : Time.

(** X23: when a yank of the refreshed model succeeds, the entry it saves
    lists the files of the context, each as often as the context does, in
    the order of the display list, together with the context's name and
    texts; and the number in "Yanked n files" is the number of files of the
    context, whether or not each could be read. *)
Theorem yank_snapshot_lists_context (m : Model) (entry : History.HistoryEntry) :
  saved (yank os_ReadFile CopyToClipboard now (refreshFiles os_Stat m)) = [entry] ->
  History.Files entry ≡ₚ Files (context m)
  /\ History.Files entry = map Path (files (refreshFiles os_Stat m))
  /\ History.ContextName entry = Name (context m)
  /\ History.ProjectContext entry = ProjectContext (context m)
  /\ History.Request entry = Request (context m)
  /\ History.Timestamp entry = now
  /\ status (yank os_ReadFile CopyToClipboard now (refreshFiles os_Stat m))
     = StatusYanked (length (Files (context m))).
Proof.
  intros Hsaved.
  destruct (missingPaths (files (refreshFiles os_Stat m))) as [|p ps] eqn:Hmiss.
  2:{ rewrite (yank_stops_when_missing os_ReadFile CopyToClipboard now
                 (refreshFiles os_Stat m)) in Hsaved by (by rewrite Hmiss).
      discriminate. }
  pose proof (yank_proceeds_when_present os_ReadFile CopyToClipboard now
                (refreshFiles os_Stat m) Hmiss) as Hyank. cbv zeta in Hyank.
  rewrite Hyank in *. destruct (CopyToClipboard _); [|discriminate].
  cbn [saved status] in *. injection Hsaved as <-.
  cbn [History.Files History.ContextName History.ProjectContext
       History.Request History.Timestamp].
  split_and!; try reflexivity.
  - apply refreshFiles_paths.
  - f_equal. rewrite <- (length_map Path).
    apply Permutation_length, refreshFiles_paths.
Qed.

End Snapshot.

Lemma yank_snapshot_lists_context_witness :
  ["/p/big.go"; "/p/small.go"] ≡ₚ Files (context exampleModel).
Proof.
  destruct (yank_snapshot_lists_context (diskStat exampleDisk)
              (diskRead exampleDisk) clipboardWorks exampleNow exampleModel
              (History.mkHistoryEntry exampleNow "default" "" "task"
                 ["/p/big.go"; "/p/small.go"])) as [H _].
  - reflexivity.
  - exact H.
Defined.

Lemma sliceTo_length (n : nat) (s : string) :
  n <= String.length s -> String.length (sliceTo n s) = n.
Proof.
  revert s. induction n as [|n IH]; intros s Hn; [reflexivity|].
  destruct s as [|c s]; simpl in *; [lia|]. rewrite IH; lia.
Qed.

(** X24: the preview of a request is never empty and never longer than fifty
    bytes, whatever the request and however it is trimmed: a first line that
    is longer once trimmed is cut to forty-seven bytes and three dots. *)
Theorem RequestPreview_bounded (trimSpace : string -> string)
    (e : History.HistoryEntry) :
  0 < String.length (RequestPreview trimSpace e) <= 50
  /\ (History.Request e <> "" ->
      50 < String.length (trimSpace (firstLine (History.Request e))) ->
      RequestPreview trimSpace e
      = sliceTo 47 (trimSpace (firstLine (History.Request e))) +:+ "...").
Proof.
  unfold RequestPreview.
  destruct (String.eqb_spec (History.Request e) "") as [Hreq|Hreq].
  { split; [simpl; lia | done]. }
  set (t := trimSpace (firstLine (History.Request e))).
  destruct (Nat.ltb_spec 50 (String.length t)) as [Hlong|Hshort].
  - assert (Hlen : String.length (sliceTo 47 t +:+ "...") = 50).
    { rewrite string_app_length, sliceTo_length by lia. reflexivity. }
    destruct (String.eqb_spec (sliceTo 47 t +:+ "...") "") as [Hempty|_].
    { rewrite Hempty in Hlen. discriminate. }
    split; [lia | done].
  - split; [|lia].
    destruct (String.eqb_spec t "") as [_|Hne]; [simpl; lia|].
    destruct t; [done | simpl in *; lia].
Qed.

Lemma RequestPreview_bounded_witness :
  RequestPreview trimAsciiSpace
    (History.mkHistoryEntry exampleNow "default" ""
       "  Please refactor the directory expansion so that it reports progress" [])
  = "Please refactor the directory expansion so that...".
Proof.
  destruct (RequestPreview_bounded trimAsciiSpace
              (History.mkHistoryEntry exampleNow "default" ""
                 "  Please refactor the directory expansion so that it reports progress"
                 [])) as [_ H].
  rewrite H; [reflexivity | discriminate | vm_compute; lia].
Defined.

(** ** The folder view *)

Lemma wrap64_small (z : Z) : int64 z -> wrap64 z = z.
Proof. unfold int64, wrap64. intros Hz. rewrite Z.mod_small; lia. Qed.

Lemma wrap64_int64 (z : Z) : int64 (wrap64 z).
Proof.
  unfold int64, wrap64.
  pose proof (Z.mod_pos_bound (z + 9223372036854775808) 18446744073709551616).
  lia.
Qed.

Lemma wrap64_add_l (a b : Z) : wrap64 (wrap64 a + b) = wrap64 (a + b).
Proof.
  unfold wrap64. f_equal.
  replace ((a + 9223372036854775808) mod 18446744073709551616
           - 9223372036854775808 + b + 9223372036854775808)%Z
    with ((a + 9223372036854775808) mod 18446744073709551616 + b)%Z by lia.
  rewrite Zplus_mod_idemp_l. f_equal. lia.
Qed.

Lemma wrap64_add_r (a b : Z) : wrap64 (a + wrap64 b) = wrap64 (a + b).
Proof. rewrite (Z.add_comm a), wrap64_add_l. f_equal. lia. Qed.

Lemma wrap64_idemp (z : Z) : wrap64 (wrap64 z) = wrap64 z.
Proof. apply wrap64_small, wrap64_int64. Qed.

Lemma sumSizes_app (l1 l2 : list FileInfo) :
  sumSizes (l1 ++ l2) = (sumSizes l1 + sumSizes l2)%Z.
Proof. induction l1 as [|f l1 IH]; simpl; [reflexivity|]. rewrite IH. lia. Qed.

Lemma sumSizes_Permutation (l1 l2 : list FileInfo) :
  l1 ≡ₚ l2 -> sumSizes l1 = sumSizes l2.
Proof. induction 1; simpl; lia. Qed.

Lemma sumFileCount_Permutation (l1 l2 : list Folder.FolderInfo) :
  l1 ≡ₚ l2 -> sumFileCount l1 = sumFileCount l2.
Proof. induction 1; simpl; lia. Qed.

Lemma sumTotalSize_Permutation (l1 l2 : list Folder.FolderInfo) :
  l1 ≡ₚ l2 -> sumTotalSize l1 = sumTotalSize l2.
Proof. induction 1; simpl; lia. Qed.

Lemma sumTotalSize_cons (folder : Folder.FolderInfo) (l : list Folder.FolderInfo) :
  sumTotalSize (folder :: l) = (Folder.TotalSize folder + sumTotalSize l)%Z.
Proof. reflexivity. Qed.

Lemma sumFileCount_cons (folder : Folder.FolderInfo) (l : list Folder.FolderInfo) :
  sumFileCount (folder :: l) = Folder.FileCount folder + sumFileCount l.
Proof. reflexivity. Qed.

Lemma totalSize_snoc (fs : list FileInfo) (f : FileInfo) :
  totalSize (fs ++ [f]) = wrap64 (totalSize fs + Size f).
Proof. unfold totalSize. by rewrite foldl_app. Qed.

(** [totalSize] is the sum of the sizes, as an [int64]. *)
Lemma totalSize_sum (fs : list FileInfo) : totalSize fs = wrap64 (sumSizes fs).
Proof.
  induction fs as [|f fs IH] using rev_ind; [reflexivity|].
  rewrite totalSize_snoc, IH, wrap64_add_l, sumSizes_app. simpl.
  f_equal. lia.
Qed.

Lemma existsb_false_filter {A : Type} (p : A -> bool) (l : list A) :
  existsb p l = false -> List.filter p l = [].
Proof.
  induction l as [|x l IH]; simpl; [done|].
  destruct (p x); simpl; [done | exact IH].
Qed.

Lemma NoDup_fmap_same {A B : Type} (f : A -> B) (l : list A) (x y : A) :
  NoDup (f <$> l) -> x ∈ l -> y ∈ l -> f x = f y -> x = y.
Proof.
  induction l as [|z l IH]; intros Hnd Hx Hy Hf; [by apply elem_of_nil in Hx|].
  rewrite fmap_cons in Hnd. apply NoDup_cons in Hnd as [Hz Hnd].
  apply elem_of_cons in Hx as [->|Hx]; apply elem_of_cons in Hy as [->|Hy].
  - reflexivity.
  - destruct Hz. rewrite Hf. by apply list_elem_of_fmap_2.
  - destruct Hz. rewrite <- Hf. by apply list_elem_of_fmap_2.
  - by apply IH.
Qed.

Section Folders.

Variable filepath_Dir : string -> string.

#[local] Abbreviation group := (groupByFolder filepath_Dir).
#[local] Abbreviation refresh := (refreshFolders filepath_Dir).
#[local] Abbreviation summary := (folderOf filepath_Dir).
#[local] Abbreviation inDir := (inFolder filepath_Dir).

Lemma groupByFolder_snoc (fs : list FileInfo) (f : FileInfo) :
  group (fs ++ [f]) = addToFolder filepath_Dir (group fs) f.
Proof. unfold groupByFolder. by rewrite foldl_app. Qed.

(** A folder is stored under its own path. *)
Lemma groupByFolder_Path (fs : list FileInfo) (dir : string)
    (folder : Folder.FolderInfo) :
  group fs !! dir = Some folder -> Folder.Path folder = dir.
Proof.
  revert dir folder. induction fs as [|f fs IH] using rev_ind; intros dir folder.
  { unfold groupByFolder. simpl. by rewrite lookup_empty. }
  rewrite groupByFolder_snoc. unfold addToFolder.
  destruct (group fs !! filepath_Dir (Path f)) as [old|] eqn:Hold.
  - destruct (decide (filepath_Dir (Path f) = dir)) as [<-|Hne].
    + rewrite lookup_insert_eq. intros [= <-]. simpl. by apply IH.
    + rewrite lookup_insert_ne by done. apply IH.
  - destruct (decide (filepath_Dir (Path f) = dir)) as [<-|Hne].
    + rewrite lookup_insert_eq. by intros [= <-].
    + rewrite lookup_insert_ne by done. apply IH.
Qed.

Lemma filter_inFolder_snoc (dir : string) (fs : list FileInfo) (f : FileInfo) :
  List.filter (inDir dir) (fs ++ [f])
  = List.filter (inDir dir) fs ++ (if inDir dir f then [f] else []).
Proof. rewrite List.filter_app. simpl. by destruct (inDir dir f). Qed.

(** What the map holds once the files are grouped. *)
Lemma groupByFolder_lookup (fs : list FileInfo) (dir : string) :
  Forall (fun f => int64 (Size f)) fs ->
  group fs !! dir
  = if existsb (inDir dir) fs then Some (summary dir fs) else None.
Proof.
  revert dir. induction fs as [|f fs IH] using rev_ind; intros dir Hsizes.
  { unfold groupByFolder. simpl. by rewrite lookup_empty. }
  apply Forall_app in Hsizes as [Hsizes Hf].
  rewrite Forall_singleton in Hf.
  rewrite groupByFolder_snoc, existsb_app. unfold addToFolder, folderOf.
  rewrite filter_inFolder_snoc. simpl existsb. rewrite orb_false_r.
  rewrite (IH _ Hsizes).
  destruct (decide (filepath_Dir (Path f) = dir)) as [<-|Hne].
  - assert (Hin : inDir (filepath_Dir (Path f)) f = true)
      by apply String.eqb_refl.
    rewrite Hin, orb_true_r.
    destruct (existsb (inDir (filepath_Dir (Path f))) fs) eqn:Hex.
    + rewrite lookup_insert_eq. unfold folderOf. simpl.
      rewrite length_app, sumSizes_app. simpl.
      rewrite wrap64_add_l. do 2 f_equal; [lia | f_equal; lia].
    + rewrite lookup_insert_eq, (existsb_false_filter _ _ Hex). simpl.
      rewrite Z.add_0_r, (wrap64_small _ Hf). reflexivity.
  - assert (Hin : inDir dir f = false) by by apply String.eqb_neq.
    rewrite Hin, orb_false_r, app_nil_r.
    destruct (existsb (inDir (filepath_Dir (Path f))) fs);
      rewrite lookup_insert_ne by done; by rewrite (IH _ Hsizes).
Qed.

(** The folders [refreshFolders] lists are the values of the map, each once. *)
Lemma refreshFolders_values (fs : list FileInfo) :
  refresh fs ≡ₚ (snd <$> map_to_list (group fs)).
Proof. apply sortSlice_Permutation. Qed.

Lemma groupByFolder_paths (fs : list FileInfo) :
  Folder.Path <$> (snd <$> map_to_list (group fs))
  = fst <$> map_to_list (group fs).
Proof.
  rewrite <- list_fmap_compose. apply Forall_fmap_ext_1, Forall_forall.
  intros [dir folder] Hin. simpl. apply elem_of_map_to_list in Hin.
  by apply groupByFolder_Path in Hin.
Qed.

Lemma groupByFolder_NoDup (fs : list FileInfo) :
  NoDup (Folder.Path <$> (snd <$> map_to_list (group fs))).
Proof. rewrite groupByFolder_paths. apply NoDup_fst_map_to_list. Qed.

Lemma refreshFolders_NoDup (fs : list FileInfo) :
  NoDup (Folder.Path <$> refresh fs).
Proof. rewrite (refreshFolders_values fs). apply groupByFolder_NoDup. Qed.

Lemma folderLess_asym (a b : Folder.FolderInfo) :
  folderLess a b = true -> folderLess b a = false.
Proof. apply ltb_asym. Qed.

Lemma sorted_by_path_Transitive :
  Transitive (fun a b : Folder.FolderInfo => folderLess b a = false).
Proof. intros a b c Hab Hbc. exact (not_after_trans _ _ _ Hab Hbc). Qed.

Lemma folderLess_Transitive :
  Transitive (fun a b : Folder.FolderInfo => folderLess a b = true).
Proof. intros a b c Hab Hbc. exact (ltb_trans _ _ _ Hab Hbc). Qed.

(** A list sorted by path in which no path stands twice ascends strictly. *)
Lemma sorted_by_path_strictly (l : list Folder.FolderInfo) :
  NoDup (Folder.Path <$> l) ->
  Sorted (fun a b => folderLess b a = false) l ->
  StronglySorted (fun a b => folderLess a b = true) l.
Proof.
  intros Hnd Hs.
  apply (@Sorted_StronglySorted _ _ sorted_by_path_Transitive) in Hs.
  induction Hs as [|x l Hs IH Hx]; [constructor|].
  rewrite fmap_cons in Hnd. apply NoDup_cons in Hnd as [Hnew Hnd].
  constructor; [by apply IH|].
  apply Forall_forall. intros y Hy. rewrite Forall_forall in Hx.
  specialize (Hx y Hy). unfold folderLess in *.
  destruct (ltb_total (Folder.Path x) (Folder.Path y)) as [H|[H|H]].
  - exact H.
  - destruct Hnew. rewrite H. by apply list_elem_of_fmap_2.
  - congruence.
Qed.

Lemma refreshFolders_ascending (fs : list FileInfo) :
  StronglySorted (fun a b => folderLess a b = true) (refresh fs).
Proof.
  apply sorted_by_path_strictly; [apply refreshFolders_NoDup|].
  apply sortSlice_Sorted, folderLess_asym.
Qed.

(** Neither the order in which the map is ranged over nor the way
    [sort.Slice] sorts plays a part: the folders sorted by path are one
    list. *)
Lemma refreshFolders_unique (fs : list FileInfo) (l : list Folder.FolderInfo) :
  l ≡ₚ (snd <$> map_to_list (group fs)) ->
  Sorted (fun a b => folderLess b a = false) l ->
  l = refresh fs.
Proof.
  intros Hperm Hsorted.
  apply (@Sorted_unique_strong _ _ sorted_by_path_Transitive);
    [|exact Hsorted | apply sortSlice_Sorted, folderLess_asym
     |by rewrite refreshFolders_values].
  intros x1 x2 H1 H2 H12 H21.
  apply (NoDup_fmap_same Folder.Path l).
  - rewrite Hperm. apply groupByFolder_NoDup.
  - exact H1.
  - by rewrite Hperm, <- refreshFolders_values.
  - unfold folderLess in *.
    destruct (ltb_total (Folder.Path x1) (Folder.Path x2)) as [H|[H|H]];
      [congruence | exact H | congruence].
Qed.

Lemma refreshFolders_elem_of (fs : list FileInfo) (folder : Folder.FolderInfo) :
  Forall (fun f => int64 (Size f)) fs ->
  folder ∈ refresh fs
  <-> exists f, f ∈ fs /\ folder = summary (filepath_Dir (Path f)) fs.
Proof.
  intros Hsizes. rewrite (refreshFolders_values fs), list_elem_of_fmap. split.
  - intros ([dir fo] & -> & Hin). simpl. apply elem_of_map_to_list in Hin.
    rewrite (groupByFolder_lookup _ _ Hsizes) in Hin.
    destruct (existsb (inDir dir) fs) eqn:Hex; [|done]. injection Hin as <-.
    apply existsb_elem_of in Hex as (f & Hf & Hd). exists f.
    split; [exact Hf|]. apply String.eqb_eq in Hd. by rewrite Hd.
  - intros (f & Hf & ->).
    exists (filepath_Dir (Path f), summary (filepath_Dir (Path f)) fs).
    split; [reflexivity|]. apply elem_of_map_to_list.
    rewrite (groupByFolder_lookup _ _ Hsizes).
    replace (existsb (inDir (filepath_Dir (Path f))) fs) with true;
      [reflexivity|].
    symmetry. apply existsb_elem_of. exists f. split; [exact Hf|].
    apply String.eqb_refl.
Qed.

Lemma List_filter_Permutation {A : Type} (p : A -> bool) (l1 l2 : list A) :
  l1 ≡ₚ l2 -> List.filter p l1 ≡ₚ List.filter p l2.
Proof.
  induction 1 as [|x l1 l2 _ IH|x y l|l1 l2 l3 _ IH1 _ IH2]; simpl.
  - reflexivity.
  - destruct (p x); [by constructor | exact IH].
  - destruct (p x), (p y); try reflexivity. apply Permutation_swap.
  - by rewrite IH1.
Qed.

Lemma existsb_Permutation {A : Type} (p : A -> bool) (l1 l2 : list A) :
  l1 ≡ₚ l2 -> existsb p l1 = existsb p l2.
Proof.
  induction 1 as [|x l1 l2 _ IH|x y l|l1 l2 l3 _ IH1 _ IH2]; simpl.
  - reflexivity.
  - by rewrite IH.
  - by destruct (p x), (p y).
  - by rewrite IH1.
Qed.

Lemma folderOf_Permutation (dir : string) (fs fs' : list FileInfo) :
  fs ≡ₚ fs' -> summary dir fs = summary dir fs'.
Proof.
  intros Hperm. unfold folderOf.
  pose proof (List_filter_Permutation (inDir dir) _ _ Hperm) as Hf.
  by rewrite (Permutation_length Hf), (sumSizes_Permutation _ _ Hf).
Qed.

(** The folder list does not depend on the order of the files, which
    [refreshFiles] sorts by size without saying where equal sizes go. *)
Lemma refreshFolders_Permutation (fs fs' : list FileInfo) :
  Forall (fun f => int64 (Size f)) fs ->
  fs ≡ₚ fs' -> refresh fs' = refresh fs.
Proof.
  intros Hsizes Hperm. unfold refreshFolders. do 3 f_equal.
  apply map_eq. intros dir.
  rewrite (groupByFolder_lookup fs dir Hsizes), groupByFolder_lookup
    by by rewrite <- Hperm.
  by rewrite (existsb_Permutation _ _ _ Hperm), (folderOf_Permutation _ _ _ Hperm).
Qed.

Lemma addToFolder_sums (folderMap : gmap string Folder.FolderInfo) (f : FileInfo) :
  sumFileCount (snd <$> map_to_list (addToFolder filepath_Dir folderMap f))
  = S (sumFileCount (snd <$> map_to_list folderMap))
  /\ wrap64 (sumTotalSize
               (snd <$> map_to_list (addToFolder filepath_Dir folderMap f)))
     = wrap64 (sumTotalSize (snd <$> map_to_list folderMap) + Size f).
Proof.
  unfold addToFolder.
  destruct (folderMap !! filepath_Dir (Path f)) as [old|] eqn:Hold.
  - rewrite <- insert_delete_eq.
    pose proof (map_to_list_delete _ _ _ Hold) as Hm.
    split.
    + rewrite <- (sumFileCount_Permutation _ _ (fmap_Permutation snd _ _ Hm)).
      erewrite sumFileCount_Permutation;
        [|apply fmap_Permutation, map_to_list_insert, lookup_delete_eq].
      reflexivity.
    + rewrite <- (sumTotalSize_Permutation _ _ (fmap_Permutation snd _ _ Hm)).
      erewrite sumTotalSize_Permutation;
        [|apply fmap_Permutation, map_to_list_insert, lookup_delete_eq].
      rewrite !fmap_cons, !sumTotalSize_cons.
      cbn [snd Folder.TotalSize].
      rewrite wrap64_add_l. apply (f_equal wrap64). lia.
  - split.
    + erewrite sumFileCount_Permutation;
        [|apply fmap_Permutation, map_to_list_insert, Hold].
      reflexivity.
    + erewrite sumTotalSize_Permutation;
        [|apply fmap_Permutation, map_to_list_insert, Hold].
      rewrite fmap_cons, sumTotalSize_cons. cbn [snd Folder.TotalSize].
      apply (f_equal wrap64). lia.
Qed.

Lemma groupByFolder_sums (fs : list FileInfo) :
  sumFileCount (snd <$> map_to_list (group fs)) = length fs
  /\ wrap64 (sumTotalSize (snd <$> map_to_list (group fs))) = totalSize fs.
Proof.
  induction fs as [|f fs [IHn IHs]] using rev_ind.
  { unfold groupByFolder. simpl. by rewrite map_to_list_empty. }
  rewrite groupByFolder_snoc.
  destruct (addToFolder_sums (group fs) f) as [Hn Hs].
  split.
  - rewrite Hn, IHn, length_app. simpl. lia.
  - by rewrite Hs, totalSize_snoc, <- IHs, wrap64_add_l.
Qed.

(** X25: when the sizes are [int64] values, [refreshFolders] lists one folder
    for each directory that holds a file of the list, with the number of the
    files that lie in it and the sum of their sizes as an [int64], not
    selected; the paths ascend strictly, and the order of the files plays no
    part. *)
Theorem refreshFolders_summary (fs : list FileInfo) :
  Forall (fun f => int64 (Size f)) fs ->
  (forall folder,
      folder ∈ refresh fs
      <-> exists f, f ∈ fs
            /\ folder
               = Folder.mkFolderInfo (filepath_Dir (Path f))
                   (length (List.filter (inDir (filepath_Dir (Path f))) fs))
                   (wrap64 (sumSizes
                              (List.filter (inDir (filepath_Dir (Path f))) fs)))
                   false)
  /\ StronglySorted
       (fun a b => String.ltb (Folder.Path a) (Folder.Path b) = true)
       (refresh fs)
  /\ (forall fs', fs ≡ₚ fs' -> refresh fs' = refresh fs).
Proof.
  intros Hsizes. split_and!.
  - intros folder. apply (refreshFolders_elem_of fs folder Hsizes).
  - apply refreshFolders_ascending.
  - intros fs' Hperm. by apply refreshFolders_Permutation.
Qed.

Lemma refreshFolders_count (fs : list FileInfo) :
  sumFileCount (refresh fs) = length fs.
Proof.
  rewrite (sumFileCount_Permutation _ _ (refreshFolders_values fs)).
  apply groupByFolder_sums.
Qed.

(** X26: the folder view accounts for every file and every byte: the file
    counts of the folders add up to the number of files, and their sizes add
    up, as an [int64], to what [totalSize] returns, the sum of all sizes. *)
Theorem refreshFolders_totals (fs : list FileInfo) :
  sumFileCount (refresh fs) = length fs
  /\ wrap64 (sumTotalSize (refresh fs)) = totalSize fs
  /\ totalSize fs = wrap64 (sumSizes fs).
Proof.
  destruct (groupByFolder_sums fs) as [Hn Hs].
  pose proof (refreshFolders_values fs) as Hperm.
  split_and!.
  - apply refreshFolders_count.
  - by rewrite (sumTotalSize_Permutation _ _ Hperm).
  - apply totalSize_sum.
Qed.

(** X27: the folder list is one list, whatever the order in which Go ranges
    over the map and however [sort.Slice] proceeds: any arrangement of the
    folders of the map in which no folder stands before one of a smaller
    path is the list of [refreshFolders]. *)
Theorem refreshFolders_order_irrelevant
    (fs : list FileInfo) (l : list Folder.FolderInfo) :
  l ≡ₚ (snd <$> map_to_list (group fs)) ->
  Sorted (fun a b => String.ltb (Folder.Path b) (Folder.Path a) = false) l ->
  l = refresh fs.
Proof. apply refreshFolders_unique. Qed.

Lemma StronglySorted_List_filter {A : Type} (R : relation A) (p : A -> bool)
    (l : list A) :
  StronglySorted R l -> StronglySorted R (List.filter p l).
Proof.
  induction 1 as [|x l Hs IH Hx]; simpl; [constructor|].
  destruct (p x); [|exact IH]. constructor; [exact IH|].
  apply Forall_forall. intros y Hy. apply elem_of_List_filter in Hy as [Hy _].
  rewrite Forall_forall in Hx. by apply Hx.
Qed.

Lemma folderOf_kept (toDelete : list string) (fs : list FileInfo) (f : FileInfo) :
  keepFile filepath_Dir toDelete (Path f) = true ->
  summary (filepath_Dir (Path f))
    (List.filter (fun g => keepFile filepath_Dir toDelete (Path g)) fs)
  = summary (filepath_Dir (Path f)) fs.
Proof.
  intros Hkeep. unfold folderOf. rewrite filter_twice.
  rewrite (filter_agree _ (inDir (filepath_Dir (Path f)))); [reflexivity|].
  intros g _. unfold inFolder, keepFile in *.
  destruct (String.eqb_spec (filepath_Dir (Path g)) (filepath_Dir (Path f)))
    as [->|_]; [by rewrite Hkeep | apply andb_false_r].
Qed.

(** Taking the files of some folders away takes these folders off the list
    and leaves the others as they are. *)
Lemma refreshFolders_filter (toDelete : list string) (fs : list FileInfo) :
  Forall (fun f => int64 (Size f)) fs ->
  refresh (List.filter (fun f => keepFile filepath_Dir toDelete (Path f)) fs)
  = List.filter
      (fun folder => negb (existsb (String.eqb (Folder.Path folder)) toDelete))
      (refresh fs).
Proof.
  intros Hsizes.
  assert (Hsizes' : Forall (fun f => int64 (Size f))
            (List.filter (fun f => keepFile filepath_Dir toDelete (Path f)) fs)).
  { rewrite Forall_forall in Hsizes. apply Forall_forall. intros f Hf.
    apply elem_of_List_filter in Hf as [Hf _]. by apply Hsizes. }
  apply (StronglySorted_unique_strong (fun a b => folderLess a b = true)).
  - intros x1 x2 _ _ H12 H21. apply folderLess_asym in H12. congruence.
  - apply refreshFolders_ascending.
  - apply StronglySorted_List_filter, refreshFolders_ascending.
  - apply NoDup_Permutation.
    + apply (NoDup_fmap_1 Folder.Path), refreshFolders_NoDup.
    + eapply sublist_NoDup; [|apply List_filter_sublist].
      apply (NoDup_fmap_1 Folder.Path), refreshFolders_NoDup.
    + intros folder.
      rewrite elem_of_List_filter, !refreshFolders_elem_of by done. split.
      * intros (f & Hf & ->). apply elem_of_List_filter in Hf as [Hf Hkeep].
        split; [|exact Hkeep]. exists f. split; [exact Hf|].
        by apply folderOf_kept.
      * intros [(f & Hf & ->) Hkeep]. exists f. split.
        -- apply elem_of_List_filter. split; [exact Hf | exact Hkeep].
        -- symmetry. by apply folderOf_kept.
Qed.

End Folders.

Lemma visibleFileRows_bounds (height : Z) :
  (0 <= height < 4611686018427387904)%Z ->
  (3 <= visibleFileRows height < 4611686018427387904)%Z.
Proof.
  intros Hh. unfold visibleFileRows.
  destruct (Z_lt_ge_dec height 5) as [Hlt|Hge].
  - rewrite (wrap64_small (height - 5)) by (unfold int64; lia).
    destruct (Z.ltb_spec (height - 5) 3); lia.
  - rewrite (wrap64_small (height - 5)) by (unfold int64; lia).
    destruct (Z.ltb_spec (height - 5) 3); lia.
Qed.

Lemma unselectFolder_toggleFolder (folder : Folder.FolderInfo) :
  unselectFolder (toggleFolder folder) = unselectFolder folder.
Proof. reflexivity. Qed.

Lemma sumFileCount_filter_unselect (p : string -> bool)
    (l : list Folder.FolderInfo) :
  sumFileCount (List.filter (fun folder => p (Folder.Path folder))
                  (unselectFolder <$> l))
  = sumFileCount (List.filter (fun folder => p (Folder.Path folder)) l).
Proof.
  induction l as [|x l IH]; [reflexivity|].
  rewrite fmap_cons. cbn [List.filter unselectFolder Folder.Path].
  destruct (p (Folder.Path x)); [|exact IH].
  rewrite !sumFileCount_cons, IH. reflexivity.
Qed.

Lemma sumFileCount_unselect (l : list Folder.FolderInfo) :
  sumFileCount (unselectFolder <$> l) = sumFileCount l.
Proof.
  induction l as [|x l IH]; [reflexivity|].
  rewrite fmap_cons, !sumFileCount_cons, IH. reflexivity.
Qed.

Lemma sumFileCount_split (p : Folder.FolderInfo -> bool)
    (l : list Folder.FolderInfo) :
  sumFileCount l
  = sumFileCount (List.filter p l)
    + sumFileCount (List.filter (fun folder => negb (p folder)) l).
Proof.
  induction l as [|x l IH]; [reflexivity|].
  cbn [List.filter]. destruct (p x); cbn [negb];
    rewrite !sumFileCount_cons, IH; lia.
Qed.

Lemma existsb_eqb_decide (x : string) (l : list string) :
  existsb (String.eqb x) l = bool_decide (x ∈ l).
Proof.
  destruct (existsb (String.eqb x) l) eqn:Hex; symmetry.
  - apply bool_decide_eq_true. apply existsb_elem_of in Hex as (y & Hy & Heq).
    apply String.eqb_eq in Heq. by subst.
  - apply bool_decide_eq_false. intros Hin.
    assert (existsb (String.eqb x) l = true); [|congruence].
    apply existsb_elem_of. exists x. split; [exact Hin | apply String.eqb_refl].
Qed.

Lemma negb_existsb_eqb_decide (x : string) (l : list string) :
  negb (existsb (String.eqb x) l) = bool_decide (x ∉ l).
Proof.
  rewrite existsb_eqb_decide. by destruct (decide (x ∈ l)) as [H|H];
    [rewrite (bool_decide_eq_true_2 _ H), bool_decide_eq_false_2 by tauto
    |rewrite (bool_decide_eq_false_2 _ H), bool_decide_eq_true_2 by tauto].
Qed.

Section FolderKeys.

Variable filepath_Dir : string -> string.
Variable os_StatInfo : string -> option (Z * bool).

#[local] Abbreviation press := (handleFolderKey filepath_Dir os_StatInfo).
#[local] Abbreviation refreshed :=
  (refreshFiles (fun path => fst <$> os_StatInfo path)).
#[local] Abbreviation foldersOf := (refreshFolders filepath_Dir).

(** X28: the keys of the folder view other than ["d"] never make the program
    panic and keep the cursor on a folder inside the window, for a terminal
    and a folder list of sizes far from the bounds of [int]; they leave the
    files alone, and the folders but for the selection mark of the folder
    under the cursor, which only the space bar changes. *)
Theorem handleFolderKey_keeps_cursor_in_window
    (height : Z) (key : FolderKey) (v : FolderView) :
  (0 <= height < 4611686018427387904)%Z ->
  (Z.of_nat (length (folders v)) < 4611686018427387904)%Z ->
  key <> keyDelete ->
  cursorInWindow height v ->
  exists v',
    press height key v = Some v'
    /\ cursorInWindow height v'
    /\ model v' = model v
    /\ unselectFolder <$> folders v' = unselectFolder <$> folders v
    /\ (forall i, i <> Z.to_nat (folderCursor v) ->
                  folders v' !! i = folders v !! i)
    /\ (key <> keySpace -> folders v' = folders v).
Proof.
  intros Hheight Hcount Hkey (Hoff & Hwin & Hcur).
  pose proof (visibleFileRows_bounds height Hheight) as Hrows.
  destruct key; [| | | |done|]; cbn [handleFolderKey].
  - eexists. split; [reflexivity|]. split; [|done].
    unfold cursorInWindow. cbn [folderOffset folderCursor folders]. lia.
  - destruct (Z.ltb_spec 0 (folderCursor v)) as [Hpos|Hzero].
    + eexists. split; [reflexivity|].
      rewrite (wrap64_small (folderCursor v - 1)) by (unfold int64; lia).
      split; [|done]. unfold cursorInWindow. cbn [folderOffset folderCursor folders].
      destruct (Z.ltb_spec (folderCursor v - 1) (folderOffset v)); lia.
    + exists v. split; [reflexivity|]. split; [|done].
      unfold cursorInWindow. lia.
  - destruct (Z.ltb_spec (folderCursor v) (Z.of_nat (length (folders v)) - 1))
      as [Hmore|Hlast].
    + eexists. split; [reflexivity|].
      rewrite (wrap64_small (folderCursor v + 1)) by (unfold int64; lia).
      rewrite (wrap64_small (folderOffset v + visibleFileRows height))
        by (unfold int64; lia).
      rewrite (wrap64_small (folderCursor v + 1 - visibleFileRows height))
        by (unfold int64; lia).
      rewrite (wrap64_small (folderCursor v + 1 - visibleFileRows height + 1))
        by (unfold int64; lia).
      split; [|done]. unfold cursorInWindow. cbn [folderOffset folderCursor folders].
      destruct (Z.leb_spec (folderOffset v + visibleFileRows height)
                  (folderCursor v + 1)); lia.
    + exists v. split; [reflexivity|]. split; [|done].
      unfold cursorInWindow. lia.
  - destruct (Z.ltb_spec (folderCursor v) (Z.of_nat (length (folders v))))
      as [_|Hout]; [|lia].
    destruct (Z.ltb_spec (folderCursor v) 0) as [Hneg|_]; [lia|].
    destruct (lookup_lt_is_Some_2 (folders v) (Z.to_nat (folderCursor v)))
      as [folder Hfolder]; [lia|].
    rewrite Hfolder. eexists. split; [reflexivity|].
    cbn [model folders folderCursor folderOffset]. split_and!.
    + unfold cursorInWindow. cbn [folderOffset folderCursor folders].
      rewrite length_insert. lia.
    + reflexivity.
    + rewrite list_fmap_insert, unselectFolder_toggleFolder.
      apply list_insert_id. by rewrite list_lookup_fmap, Hfolder.
    + intros i Hi. by apply list_lookup_insert_ne.
    + done.
  - exists v. split; [reflexivity|]. split; [|done].
    unfold cursorInWindow. lia.
Qed.

Lemma buildFileInfo_int64 (path : string) :
  (forall p size isDir, os_StatInfo p = Some (size, isDir) -> int64 size) ->
  int64 (Size (buildFileInfo (fun path => fst <$> os_StatInfo path) path)).
Proof.
  intros Hstat. unfold buildFileInfo.
  destruct (os_StatInfo path) as [[size isDir]|] eqn:Hp; simpl.
  - by apply (Hstat path size isDir).
  - unfold int64. lia.
Qed.

Lemma refreshFiles_int64 (m : Model) :
  (forall p size isDir, os_StatInfo p = Some (size, isDir) -> int64 size) ->
  Forall (fun f => int64 (Size f)) (files (refreshed m)).
Proof.
  intros Hstat. rewrite (refreshFiles_Permutation _ m).
  apply Forall_forall. intros f Hf.
  apply list_elem_of_In, in_map_iff in Hf as (p & <- & _).
  by apply buildFileInfo_int64.
Qed.

(** The folders of the context once the files of [toDelete] are gone. *)
Lemma folders_after_delete (toDelete : list string) (ctx : Context)
    (fs fs' : list FileInfo) :
  (forall p size isDir, os_StatInfo p = Some (size, isDir) -> int64 size) ->
  foldersOf
    (files (refreshed
              (mkModel
                 (withFiles ctx
                    (List.filter (keepFile filepath_Dir toDelete) (Files ctx)))
                 fs')))
  = List.filter (fun folder => bool_decide (Folder.Path folder ∉ toDelete))
      (foldersOf (files (refreshed (mkModel ctx fs)))).
Proof.
  intros Hstat.
  erewrite (filter_agree (fun folder => bool_decide (Folder.Path folder ∉ toDelete)));
    [|intros folder _; symmetry; apply negb_existsb_eqb_decide].
  rewrite <- refreshFolders_filter by by apply refreshFiles_int64.
  apply refreshFolders_Permutation.
  { rewrite Forall_forall. intros f Hf.
    apply elem_of_List_filter in Hf as [Hf _].
    pose proof (refreshFiles_int64 (mkModel ctx fs) Hstat) as Hall.
    rewrite Forall_forall in Hall. by apply Hall. }
  rewrite (List_filter_Permutation _ _ _ (refreshFiles_Permutation _ _)).
  rewrite (refreshFiles_Permutation _ _). cbn [context Files withFiles].
  rewrite filter_map_comm.
  erewrite (filter_agree _ (keepFile filepath_Dir toDelete)); [reflexivity|].
  intros p _. by rewrite buildFileInfo_Path.
Qed.

(** What the [case "d"] is to delete: the selected folders, or the folder
    under the cursor when none is selected. *)
Lemma foldersToDelete_spec (v : FolderView) :
  (0 <= folderCursor v)%Z ->
  exists toDelete : list string,
    foldersToDelete v = Some toDelete
    /\ forall dir,
         dir ∈ toDelete
         <-> exists folder,
               folder ∈ folders v /\ Folder.Path folder = dir
               /\ if existsb Folder.Selected (folders v)
                  then Folder.Selected folder = true
                  else folders v !! Z.to_nat (folderCursor v) = Some folder.
Proof.
  intros Hcur. unfold foldersToDelete.
  destruct (existsb Folder.Selected (folders v)).
  { eexists. split; [reflexivity|]. intros dir.
    rewrite list_elem_of_In, in_map_iff. split.
    - intros (folder & Hp & Hin). apply filter_In in Hin as [Hin Hsel].
      exists folder. by rewrite list_elem_of_In.
    - intros (folder & Hin & Hp & Hsel). exists folder. split; [exact Hp|].
      apply filter_In. by rewrite <- list_elem_of_In. }
  destruct (Z.ltb_spec (folderCursor v) (Z.of_nat (length (folders v))))
    as [Hin|Hout].
  - destruct (Z.ltb_spec (folderCursor v) 0) as [Hneg|_]; [lia|].
    destruct (lookup_lt_is_Some_2 (folders v) (Z.to_nat (folderCursor v)))
      as [folder Hfolder]; [lia|].
    rewrite Hfolder. eexists. split; [reflexivity|]. intros dir.
    rewrite list_elem_of_singleton. split.
    + intros ->. exists folder. split; [|done].
      by apply list_elem_of_lookup_2 in Hfolder.
    + intros (folder' & _ & <- & [= <-]). reflexivity.
  - eexists. split; [reflexivity|]. intros dir. split.
    + intros Hnil. by apply elem_of_nil in Hnil.
    + intros (folder & _ & _ & Hfolder).
      rewrite lookup_ge_None_2 in Hfolder by lia. discriminate.
Qed.

(** X29: with the cursor on a folder, or anywhere past the list, the ["d"]
    of the folder view never panics.  It deletes the selected folders, or
    the folder under the cursor when none is selected: the context keeps
    the files of the other folders in their order, and when the folder list
    was that of the context, each folder deleted leaves the list, the
    others stay as they were, no longer selected, and the context loses as
    many files as the deleted folders counted.  The view goes back to the
    file list exactly when no folder is left. *)
Theorem handleFolderKey_delete (height : Z) (v : FolderView) :
  (forall p size isDir, os_StatInfo p = Some (size, isDir) -> int64 size) ->
  unselectFolder <$> folders v = foldersOf (files (refreshed (model v))) ->
  (0 <= folderCursor v)%Z ->
  exists (toDelete : list string) (v' : FolderView),
    press height keyDelete v = Some v'
    /\ (forall dir,
          dir ∈ toDelete
          <-> exists folder,
                folder ∈ folders v /\ Folder.Path folder = dir
                /\ if existsb Folder.Selected (folders v)
                   then Folder.Selected folder = true
                   else folders v !! Z.to_nat (folderCursor v) = Some folder)
    /\ Files (context (model v'))
       = List.filter (fun file => bool_decide (filepath_Dir file ∉ toDelete))
           (Files (context (model v)))
    /\ folders v'
       = List.filter (fun folder => bool_decide (Folder.Path folder ∉ toDelete))
           (unselectFolder <$> folders v)
    /\ length (Files (context (model v)))
       = length (Files (context (model v')))
         + sumFileCount
             (List.filter
                (fun folder => bool_decide (Folder.Path folder ∈ toDelete))
                (folders v))
    /\ (mode v' = modeNormal <-> mode v = modeNormal \/ folders v' = []).
Proof.
  intros Hstat Hfresh Hcur.
  destruct (foldersToDelete_spec v Hcur) as (toDelete & Hdel & Hspec).
  exists toDelete. cbn [handleFolderKey]. rewrite Hdel.
  eexists. split; [reflexivity|]. split; [exact Hspec|].
  cbn [model folders mode refreshView].
  assert (Hfolders :
    foldersOf
      (files (refreshed
                (mkModel
                   (withFiles (context (model v))
                      (List.filter (keepFile filepath_Dir toDelete)
                         (Files (context (model v)))))
                   (files (model v)))))
    = List.filter (fun folder => bool_decide (Folder.Path folder ∉ toDelete))
        (unselectFolder <$> folders v)).
  { rewrite (folders_after_delete toDelete (context (model v))
               (files (model v)) (files (model v)) Hstat).
    rewrite Hfresh. by destruct (model v). }
  assert (Hfiles :
    List.filter (keepFile filepath_Dir toDelete) (Files (context (model v)))
    = List.filter (fun file => bool_decide (filepath_Dir file ∉ toDelete))
        (Files (context (model v)))).
  { apply filter_agree. intros file _. apply negb_existsb_eqb_decide. }
  split_and!.
  - rewrite refreshFiles_context. exact Hfiles.
  - exact Hfolders.
  - rewrite refreshFiles_context. cbn [context Files withFiles].
    rewrite <- (length_map (buildFileInfo (fun path => fst <$> os_StatInfo path))
                  (Files (context (model v)))).
    rewrite <- (Permutation_length (refreshFiles_Permutation _ (model v))).
    rewrite <- (refreshFolders_count filepath_Dir), <- Hfresh.
    rewrite sumFileCount_unselect.
    rewrite <- (length_map (buildFileInfo (fun path => fst <$> os_StatInfo path))
                  (List.filter _ _)).
    pose proof (refreshFiles_Permutation (fun path => fst <$> os_StatInfo path)
                  (mkModel
                     (withFiles (context (model v))
                        (List.filter (keepFile filepath_Dir toDelete)
                           (Files (context (model v)))))
                     (files (model v)))) as Hperm.
    cbn [context Files withFiles] in Hperm.
    rewrite <- (Permutation_length Hperm).
    rewrite <- (refreshFolders_count filepath_Dir), Hfolders.
    pose proof (sumFileCount_filter_unselect
                  (fun path => bool_decide (path ∉ toDelete)) (folders v)) as Hun.
    cbv beta in Hun. rewrite Hun.
    rewrite (sumFileCount_split
               (fun folder => bool_decide (Folder.Path folder ∈ toDelete))
               (folders v)) at 1.
    rewrite Nat.add_comm. do 2 f_equal. apply filter_agree.
    intros folder _. by rewrite bool_decide_not.
  - rewrite Hfolders.
    destruct (List.filter _ (unselectFolder <$> folders v)) as [|x l].
    + cbn. tauto.
    + cbn [length]. destruct (Z.eqb_spec (Z.of_nat (S (length l))) 0); [lia|].
      split; [tauto | intros [H|H]; [exact H | discriminate]].
Qed.

End FolderKeys.

Lemma exampleStatInfo_int64 (p : string) (size : Z) (isDir : bool) :
  exampleStatInfo p = Some (size, isDir) -> int64 size.
Proof.
  unfold exampleStatInfo, diskStat, exampleDisk, diskRead, int64.
  destruct (String.eqb p "/root"); [intros [= <- _]; lia|].
  destruct (String.eqb "/p/small.go" p); [intros [= <- _]; vm_compute; by split|].
  destruct (String.eqb "/p/big.go" p); [intros [= <- _]; vm_compute; by split|].
  discriminate.
Qed.

Lemma refreshFolders_summary_witness :
  refreshFolders parentOf exampleFolderFiles
  = [Folder.mkFolderInfo "/p" 2 13 false; Folder.mkFolderInfo "/q" 1 0 false]
  /\ forall fs', exampleFolderFiles ≡ₚ fs' ->
       refreshFolders parentOf fs' = refreshFolders parentOf exampleFolderFiles.
Proof.
  split; [vm_compute; reflexivity|].
  apply (refreshFolders_summary parentOf exampleFolderFiles).
  unfold exampleFolderFiles, int64. repeat constructor; simpl; lia.
Defined.

Lemma refreshFolders_order_irrelevant_witness :
  [Folder.mkFolderInfo "/p" 2 13 false; Folder.mkFolderInfo "/q" 1 0 false]
  = refreshFolders parentOf exampleFolderFiles.
Proof.
  apply (refreshFolders_order_irrelevant parentOf exampleFolderFiles).
  - vm_compute. apply Permutation_swap.
  - repeat constructor.
Defined.

Lemma handleFolderKey_keeps_cursor_in_window_witness :
  exists v',
    handleFolderKey parentOf exampleStatInfo 24 keyDown exampleFolderView = Some v'
    /\ cursorInWindow 24 v'.
Proof.
  destruct (handleFolderKey_keeps_cursor_in_window parentOf exampleStatInfo
              24 keyDown exampleFolderView) as (v' & Hpress & Hwin & _).
  - lia.
  - simpl. lia.
  - discriminate.
  - unfold cursorInWindow. vm_compute. by repeat split.
  - exists v'. by split.
Defined.

Lemma handleFolderKey_delete_witness :
  exists v',
    handleFolderKey parentOf exampleStatInfo 24 keyDelete exampleFolderView
    = Some v'
    /\ folders v' = [Folder.mkFolderInfo "/p" 2 13 false]
    /\ mode v' = modeFolderView.
Proof.
  destruct (handleFolderKey_delete parentOf exampleStatInfo 24 exampleFolderView)
    as (toDelete & v' & Hpress & _).
  - apply exampleStatInfo_int64.
  - vm_compute. reflexivity.
  - simpl. lia.
  - exists v'. split; [exact Hpress|].
    vm_compute in Hpress. injection Hpress as <-. by split.
Defined.

(** ** The display fields of a file *)

Lemma strings_Split1_not_nil (s : string) (sep : ascii) :
  strings_Split1 s sep <> [].
Proof.
  destruct s as [|c s]; simpl; [done|].
  destruct (Ascii.eqb c sep); [done|]. by destruct (strings_Split1 s sep).
Qed.

Lemma strings_Join_cons (e : string) (rest : list string) (sep : string) :
  rest <> [] ->
  strings_Join (e :: rest) sep = e +:+ sep +:+ strings_Join rest sep.
Proof. by destruct rest. Qed.

(** Joining what was split gives the string back. *)
Lemma strings_Join_Split1 (s : string) (sep : ascii) :
  strings_Join (strings_Split1 s sep) (String sep EmptyString) = s.
Proof.
  induction s as [|c s IH]; [reflexivity|].
  cbn [strings_Split1]. destruct (Ascii.eqb_spec c sep) as [->|Hne].
  - rewrite strings_Join_cons by apply strings_Split1_not_nil.
    by rewrite IH.
  - pose proof (strings_Split1_not_nil s sep) as Hnil.
    destruct (strings_Split1 s sep) as [|part parts]; [done|].
    destruct parts as [|part' parts].
    + cbn in *. by rewrite IH.
    + rewrite strings_Join_cons by done.
      rewrite strings_Join_cons in IH by done. rewrite <- IH. reflexivity.
Qed.

(** No piece holds the separator. *)
Lemma strings_Split1_pieces (s : string) (sep : ascii) :
  Forall (fun part => sep ∉ list_ascii_of_string part) (strings_Split1 s sep).
Proof.
  induction s as [|c s IH]; cbn [strings_Split1].
  - constructor; [|constructor]. simpl. apply not_elem_of_nil.
  - destruct (Ascii.eqb_spec c sep) as [->|Hne].
    + constructor; [|exact IH]. simpl. apply not_elem_of_nil.
    + destruct (strings_Split1 s sep) as [|part parts].
      * constructor; [|constructor]. simpl.
        rewrite not_elem_of_cons. split; [done | apply not_elem_of_nil].
      * apply Forall_cons in IH as [Hpart Hparts].
        constructor; [|exact Hparts]. simpl.
        rewrite not_elem_of_cons. split; [done | exact Hpart].
Qed.

Section DisplayFieldsFacts.

Variable home : string.
Variable SkipPrefixes : list string.

#[local] Abbreviation skipped := (isSkipped SkipPrefixes).

Lemma isSkipped_elem_of (part : string) :
  skipped part = true <-> part ∈ SkipPrefixes.
Proof.
  unfold isSkipped. rewrite existsb_eqb_decide. apply bool_decide_eq_true.
Qed.

Lemma firstKept_Some (parts : list string) (i k : nat) :
  firstKept SkipPrefixes parts i = Some k ->
  exists before part rest,
    parts = before ++ part :: rest
    /\ k = i + length before
    /\ Forall (fun p => p ∈ SkipPrefixes) before
    /\ part ∉ SkipPrefixes.
Proof.
  revert i. induction parts as [|p parts IH]; intros i; simpl; [done|].
  destruct (skipped p) eqn:Hp.
  - intros Hk. destruct (IH _ Hk) as (before & part & rest & -> & -> & Hb & Hn).
    exists (p :: before), part, rest. split_and!; [done | simpl; lia | | done].
    constructor; [by apply isSkipped_elem_of | exact Hb].
  - intros [= <-]. exists [], p, parts. split_and!; [done | simpl; lia | constructor|].
    rewrite <- isSkipped_elem_of. congruence.
Qed.

Lemma firstKept_None (parts : list string) (i : nat) :
  firstKept SkipPrefixes parts i = None ->
  Forall (fun p => p ∈ SkipPrefixes) parts.
Proof.
  revert i. induction parts as [|p parts IH]; intros i; simpl; [constructor|].
  destruct (skipped p) eqn:Hp; [|done].
  intros Hk. constructor; [by apply isSkipped_elem_of | by apply (IH (S i))].
Qed.

Lemma drop_middle_rest (before : list string) (part : string) (rest : list string) :
  drop (S (length before)) (before ++ part :: rest) = rest.
Proof.
  change (S (length before)) with (1 + length before).
  rewrite Nat.add_comm, <- drop_drop, drop_app_length. reflexivity.
Qed.

(** X30: the project name that [buildFileInfo] shows for a file is the first
    element of its path relative to the home directory that is not one of
    the skipped prefixes, and the first element of all when every element
    is one; it holds no slash.  The relative path shown is what follows it,
    so that the skipped elements, the project and the relative path, joined
    by slashes, are the path the fields were computed from. *)
Theorem buildFileInfo_display_fields (path : string) :
  exists before rest,
    strings_Split1 (relPathOf home path) "/"
    = before ++ fst (displayFields home SkipPrefixes path) :: rest
    /\ Forall (fun p => p ∈ SkipPrefixes) before
    /\ (fst (displayFields home SkipPrefixes path) ∈ SkipPrefixes ->
        before = [] /\ Forall (fun p => p ∈ SkipPrefixes) rest)
    /\ snd (displayFields home SkipPrefixes path) = strings_Join rest "/"
    /\ relPathOf home path
       = strings_Join
           (before ++ fst (displayFields home SkipPrefixes path) :: rest) "/"
    /\ ("/"%char ∉
        list_ascii_of_string (fst (displayFields home SkipPrefixes path))).
Proof.
  unfold displayFields.
  pose proof (strings_Join_Split1 (relPathOf home path) "/") as Hjoin.
  pose proof (strings_Split1_pieces (relPathOf home path) "/") as Hpieces.
  pose proof (strings_Split1_not_nil (relPathOf home path) "/") as Hnil.
  destruct (firstKept SkipPrefixes (strings_Split1 (relPathOf home path) "/") 0)
    as [k|] eqn:Hk; cbn [default from_option id].
  - destruct (firstKept_Some _ _ _ Hk)
      as (before & part & rest & Hparts & -> & Hbefore & Hpart).
    rewrite Hparts in *. cbn [Nat.add id].
    assert (Hlen : (length before <? length (before ++ part :: rest)) = true).
    { apply Nat.ltb_lt. rewrite length_app. simpl. lia. }
    rewrite Hlen. cbn [fst snd].
    rewrite list_lookup_middle by done. cbn [default from_option id].
    exists before, rest. split_and!; [done | done | done | | done |].
    + rewrite drop_middle_rest.
      destruct (S (length before) <? length (before ++ part :: rest)) eqn:Hlt;
        [reflexivity|].
      apply Nat.ltb_ge in Hlt. rewrite length_app in Hlt. simpl in Hlt.
      destruct rest; [reflexivity | simpl in Hlt; lia].
    + apply Forall_app in Hpieces as [_ Hpieces].
      by apply Forall_cons in Hpieces as [Hp _].
  - apply firstKept_None in Hk.
    destruct (strings_Split1 (relPathOf home path) "/") as [|part rest];
      [done|].
    cbn [length Nat.ltb Nat.leb fst snd lookup list_lookup default from_option id drop].
    apply Forall_cons in Hk as [Hpart Hrest].
    exists [], rest. cbn [app]. split_and!; [done | constructor | done | | done |].
    + destruct rest; reflexivity.
    + by apply Forall_cons in Hpieces as [Hp _].
Qed.

End DisplayFieldsFacts.
